(** * Krea realtime server: generation stream orchestration

    A shallow embedding of [webapp/server]: the WHEP signalling client
    ([WHEPClient]) and the server's process-wide objects ([AppState],
    [LLMBot], [VideoGenerator], [FrameStreamer]) together with the
    handlers that the Node event loop runs on them.

    The server is single threaded: every handler runs to its next
    [await] without interleaving.  Each synchronous run is a function
    [World -> World]; an [async] function is cut at its [await]s into
    the part that issues the call and the continuation that the event
    loop resumes with the call's outcome.  [Date.now()] is the
    argument [now] of a run, [Math.random()] reads the stream [rng]. *)

From Stdlib Require Import ZArith NArith List String Ascii Bool Lia DecimalString.
Import ListNotations.

Open Scope string_scope.
Open Scope Z_scope.

(** ** Data *)

(** [appState.streamStatus]: one of the strings 'idle', 'starting',
    'active', 'error'. *)
Inductive StreamStatus := Idle | Starting | Active | Error.

(** The [data] member of the messages that carry one. *)
Inductive Payload :=
| FramePayload (streamId : option string) (frameNumber : Z) (stamp : Z)
               (width height : Z) (frameData : option string)
| WaitingPayload (message : string) (stamp : Z)
| ConnectionPayload (status : StreamStatus) (hasActiveStream : bool)
| StatusPayload (status : StreamStatus) (hasActiveStream frameStreaming : bool).

(** An object handed to [broadcast] or [sendToClient]; a member the
    object literal does not have is [None]. *)
Record Message := {
  type : string;
  content : option string;
  timestamp : option Z;
  data : option Payload
}.

(** An entry of [appState.messages].  [rec_id] is
    [Date.now() + Math.random()], kept as its two summands. *)
Record EventRecord := {
  rec_id : Z * N;
  rec_timestamp : Z;
  rec_type : string;
  rec_content : option string
}.

(** A value of [appState.clients]: a WebSocket, or the object the SSE
    route stores.  [readyState] is the socket's state (1 is OPEN);
    [sendThrows] says whether a call of its [send] throws. *)
Record Client := {
  readyState : Z;
  sendThrows : bool
}.

(** Values [JSON.parse] returns. *)
Unset Elimination Schemes.
Inductive Json :=
| JNull
| JBool (b : bool)
| JNum (z : Z)
| JStr (s : string)
| JArr (l : list Json)
| JObj (members : list (string * Json)).
Set Elimination Schemes.

(** What a template literal makes of a value: its text, or the
    message of the [TypeError] the conversion throws. *)
Inductive Rendered :=
| Text (s : string)
| Throws (message : string).

(** The two functions of the runtime's [JSON] object, and the
    runtime's conversion of a value to a string.  [JSON_parse] is
    [None] where [JSON.parse] throws a [SyntaxError]; [ToString] is
    the conversion a template literal applies to a value that
    [JSON.parse] returned and that is no string: a number in the
    runtime's notation, the elements of an array joined, an object by
    its [toString]. *)
Class JsRuntime := {
  JSON_stringify : Message -> string;
  JSON_parse : string -> option Json;
  ToString : Json -> Rendered
}.

(** [appState.currentStream] *)
Record CurrentStream := {
  cs_id : option string;
  cs_whepUrl : option string;
  cs_startTime : Z
}.

(** [FrameStreamer]; [frameInterval] is never assigned and
    [waitingImage] is never read, both are left out. *)
Record FrameStreamer := {
  hasFrames : bool;
  frameCount : Z;
  currentFrame : option string
}.

(** [LLMBot] *)
Record LLMBot := {
  currentThought : string;
  lastPrompt : string;
  cycleInterval : option nat
}.

(** [AppState]; [clients] is a [Map], whose iteration order is the
    order of insertion: an association list with distinct keys. *)
Record AppState := {
  clients : list (string * Client);
  messages : list EventRecord;
  currentStream : option CurrentStream;
  streamStatus : StreamStatus;
  llmBot : LLMBot;
  frameStreamer : FrameStreamer;
  lastFrameTime : Z;
  generationInProgress : bool
}.

(** States of [peerConnection.iceConnectionState]. *)
Inductive IceState :=
| IceNew | IceChecking | IceConnected | IceCompleted
| IceDisconnected | IceFailed | IceClosed.

(** A frame object handed to [onFrame]; [fd_data] is the buffer,
    written as its base64 text. *)
Record FrameData := {
  fd_frameNumber : Z;
  fd_timestamp : Z;
  fd_width : option Z;
  fd_height : option Z;
  fd_data : option string
}.

(** A call of one of the four callback members of a [WHEPClient]. *)
Inductive Callback :=
| OnConnect
| OnDisconnect (state : IceState)
| OnError (message : string)
| OnFrame (frameData : FrameData).

(** [WHEPClient].  [peerConnection] says whether the member holds a
    connection object; each of the four callback members says
    whether a function is assigned to it; [connecting] says that a
    [connect()] call of this client has not settled yet. *)
Record WHEPClient := {
  whepUrl : option string;
  peerConnection : bool;
  isConnected : bool;
  onFrame : bool;
  onError : bool;
  onConnect : bool;
  onDisconnect : bool;
  connecting : bool
}.

(** [VideoGenerator]; [whepConnection] refers to a client of the
    heap, [generationTimeout] to a timer. *)
Record VideoGenerator := {
  currentStreamId : option string;
  whepConnection : option nat;
  generationTimeout : option nat
}.

(** Callbacks handed to [setTimeout] and [setInterval]. *)
Inductive Task :=
| TaskCycle          (* () => this.processCycle() *)
| TaskPrompt         (* the callback processCycle arms *)
| TaskRequest        (* () => videoGenerator.requestGeneration(this.lastPrompt) *)
| TaskTimeout        (* () => this.handleGenerationTimeout() *)
| TaskWaiting        (* the waiting-frame callback of startPeriodicTasks *)
| TaskStatus.        (* the status-check callback of startPeriodicTasks *)

Record Timer := {
  t_id : nat;
  t_due : Z;
  t_task : Task;
  t_period : option Z
}.

(** Calls that leave the process, and the serialisations. *)
Inductive Call :=
| CStringify (m : Message)
| CSend (id : string) (payload : string)
| CSendThrew (id : string) (payload : string)
| CFetchStart (prompt : string)          (* the start call, by the text of its prompt *)
| CFetchStatus (streamId : string)
| CWhepConnect (c : nat) (url : option string)
| CWhepClose (c : nat).

Inductive Level := LInfo | LWarn | LError.

(** The process: the two global objects, the [WHEPClient] objects
    created so far, the armed timers, the start requests that have
    not been answered, the draws of [Math.random] (numerators over
    2^53), and what the process did. *)
Record World := {
  appState : AppState;
  videoGenerator : VideoGenerator;
  heap : list WHEPClient;
  timers : list Timer;
  nextTimer : nat;
  inflight : nat;
  rng : nat -> N;
  rngPos : nat;
  trace : list Call;
  logs : list (Level * string)
}.

(** ** Field updates *)

Definition upd_app (f : AppState -> AppState) (w : World) : World :=
  {| appState := f (appState w); videoGenerator := videoGenerator w;
     heap := heap w; timers := timers w; nextTimer := nextTimer w;
     inflight := inflight w; rng := rng w; rngPos := rngPos w;
     trace := trace w; logs := logs w |}.

Definition upd_gen (f : VideoGenerator -> VideoGenerator) (w : World) : World :=
  {| appState := appState w; videoGenerator := f (videoGenerator w);
     heap := heap w; timers := timers w; nextTimer := nextTimer w;
     inflight := inflight w; rng := rng w; rngPos := rngPos w;
     trace := trace w; logs := logs w |}.

Definition set_heap (h : list WHEPClient) (w : World) : World :=
  {| appState := appState w; videoGenerator := videoGenerator w;
     heap := h; timers := timers w; nextTimer := nextTimer w;
     inflight := inflight w; rng := rng w; rngPos := rngPos w;
     trace := trace w; logs := logs w |}.

Definition set_timers (t : list Timer) (n : nat) (w : World) : World :=
  {| appState := appState w; videoGenerator := videoGenerator w;
     heap := heap w; timers := t; nextTimer := n;
     inflight := inflight w; rng := rng w; rngPos := rngPos w;
     trace := trace w; logs := logs w |}.

Definition set_inflight (n : nat) (w : World) : World :=
  {| appState := appState w; videoGenerator := videoGenerator w;
     heap := heap w; timers := timers w; nextTimer := nextTimer w;
     inflight := n; rng := rng w; rngPos := rngPos w;
     trace := trace w; logs := logs w |}.

Definition set_rngPos (n : nat) (w : World) : World :=
  {| appState := appState w; videoGenerator := videoGenerator w;
     heap := heap w; timers := timers w; nextTimer := nextTimer w;
     inflight := inflight w; rng := rng w; rngPos := n;
     trace := trace w; logs := logs w |}.

Definition call (c : Call) (w : World) : World :=
  {| appState := appState w; videoGenerator := videoGenerator w;
     heap := heap w; timers := timers w; nextTimer := nextTimer w;
     inflight := inflight w; rng := rng w; rngPos := rngPos w;
     trace := trace w ++ [c]; logs := logs w |}.

Definition logger (l : Level) (msg : string) (w : World) : World :=
  {| appState := appState w; videoGenerator := videoGenerator w;
     heap := heap w; timers := timers w; nextTimer := nextTimer w;
     inflight := inflight w; rng := rng w; rngPos := rngPos w;
     trace := trace w; logs := logs w ++ [(l, msg)] |}.

Definition set_clients v (a : AppState) : AppState :=
  {| clients := v; messages := messages a; currentStream := currentStream a;
     streamStatus := streamStatus a; llmBot := llmBot a;
     frameStreamer := frameStreamer a; lastFrameTime := lastFrameTime a;
     generationInProgress := generationInProgress a |}.

Definition set_messages v (a : AppState) : AppState :=
  {| clients := clients a; messages := v; currentStream := currentStream a;
     streamStatus := streamStatus a; llmBot := llmBot a;
     frameStreamer := frameStreamer a; lastFrameTime := lastFrameTime a;
     generationInProgress := generationInProgress a |}.

Definition set_currentStream v (a : AppState) : AppState :=
  {| clients := clients a; messages := messages a; currentStream := v;
     streamStatus := streamStatus a; llmBot := llmBot a;
     frameStreamer := frameStreamer a; lastFrameTime := lastFrameTime a;
     generationInProgress := generationInProgress a |}.

Definition set_streamStatus v (a : AppState) : AppState :=
  {| clients := clients a; messages := messages a; currentStream := currentStream a;
     streamStatus := v; llmBot := llmBot a;
     frameStreamer := frameStreamer a; lastFrameTime := lastFrameTime a;
     generationInProgress := generationInProgress a |}.

Definition set_llmBot v (a : AppState) : AppState :=
  {| clients := clients a; messages := messages a; currentStream := currentStream a;
     streamStatus := streamStatus a; llmBot := v;
     frameStreamer := frameStreamer a; lastFrameTime := lastFrameTime a;
     generationInProgress := generationInProgress a |}.

Definition set_frameStreamer v (a : AppState) : AppState :=
  {| clients := clients a; messages := messages a; currentStream := currentStream a;
     streamStatus := streamStatus a; llmBot := llmBot a;
     frameStreamer := v; lastFrameTime := lastFrameTime a;
     generationInProgress := generationInProgress a |}.

Definition set_lastFrameTime v (a : AppState) : AppState :=
  {| clients := clients a; messages := messages a; currentStream := currentStream a;
     streamStatus := streamStatus a; llmBot := llmBot a;
     frameStreamer := frameStreamer a; lastFrameTime := v;
     generationInProgress := generationInProgress a |}.

Definition set_generationInProgress v (a : AppState) : AppState :=
  {| clients := clients a; messages := messages a; currentStream := currentStream a;
     streamStatus := streamStatus a; llmBot := llmBot a;
     frameStreamer := frameStreamer a; lastFrameTime := lastFrameTime a;
     generationInProgress := v |}.

Definition set_currentStreamId v (g : VideoGenerator) : VideoGenerator :=
  {| currentStreamId := v; whepConnection := whepConnection g;
     generationTimeout := generationTimeout g |}.

Definition set_whepConnection v (g : VideoGenerator) : VideoGenerator :=
  {| currentStreamId := currentStreamId g; whepConnection := v;
     generationTimeout := generationTimeout g |}.

Definition set_generationTimeout v (g : VideoGenerator) : VideoGenerator :=
  {| currentStreamId := currentStreamId g; whepConnection := whepConnection g;
     generationTimeout := v |}.

Definition set_peerConnection v (c : WHEPClient) : WHEPClient :=
  {| whepUrl := whepUrl c; peerConnection := v; isConnected := isConnected c;
     onFrame := onFrame c; onError := onError c; onConnect := onConnect c;
     onDisconnect := onDisconnect c; connecting := connecting c |}.

Definition set_isConnected v (c : WHEPClient) : WHEPClient :=
  {| whepUrl := whepUrl c; peerConnection := peerConnection c; isConnected := v;
     onFrame := onFrame c; onError := onError c; onConnect := onConnect c;
     onDisconnect := onDisconnect c; connecting := connecting c |}.

Definition set_connecting v (c : WHEPClient) : WHEPClient :=
  {| whepUrl := whepUrl c; peerConnection := peerConnection c;
     isConnected := isConnected c;
     onFrame := onFrame c; onError := onError c; onConnect := onConnect c;
     onDisconnect := onDisconnect c; connecting := v |}.

Definition set_hasFrames v (f : FrameStreamer) : FrameStreamer :=
  {| hasFrames := v; frameCount := frameCount f; currentFrame := currentFrame f |}.

Definition set_frameCount v (f : FrameStreamer) : FrameStreamer :=
  {| hasFrames := hasFrames f; frameCount := v; currentFrame := currentFrame f |}.

Definition set_currentFrame v (f : FrameStreamer) : FrameStreamer :=
  {| hasFrames := hasFrames f; frameCount := frameCount f; currentFrame := v |}.

Definition set_currentThought v (b : LLMBot) : LLMBot :=
  {| currentThought := v; lastPrompt := lastPrompt b; cycleInterval := cycleInterval b |}.

Definition set_lastPrompt v (b : LLMBot) : LLMBot :=
  {| currentThought := currentThought b; lastPrompt := v; cycleInterval := cycleInterval b |}.

Definition set_cycleInterval v (b : LLMBot) : LLMBot :=
  {| currentThought := currentThought b; lastPrompt := lastPrompt b; cycleInterval := v |}.

Definition upd_streamer (f : FrameStreamer -> FrameStreamer) (w : World) : World :=
  upd_app (fun a => set_frameStreamer (f (frameStreamer a)) a) w.

Definition upd_bot (f : LLMBot -> LLMBot) (w : World) : World :=
  upd_app (fun a => set_llmBot (f (llmBot a)) a) w.

(** ** The runtime's helpers *)

Definition dquote : string := String (ascii_of_nat 34) EmptyString.

(** A number inside a template literal. *)
Definition string_of_Z (z : Z) : string := NilZero.string_of_int (Z.to_int z).

(** [Math.random()]: the next draw, a numerator below 2^53. *)
Definition Math_random (w : World) : N * World :=
  ((rng w (rngPos w) mod 2 ^ 53)%N, set_rngPos (S (rngPos w)) w).

(** The product of two doubles whose exact value is [m / 2^53]: a
    double holds 53 significant bits, so an [m] of more bits is
    rounded to the nearest multiple of the power of two that leaves
    53, a tie going to the even one.  The result is again a
    numerator over 2^53. *)
Definition round_double (m : N) : N :=
  let e := N.log2 m in
  if (e <? 53)%N then m
  else
    let sh := (e - 52)%N in
    let q := (m / 2 ^ sh)%N in
    let r := (m mod 2 ^ sh)%N in
    let half := (2 ^ (sh - 1))%N in
    if (half <? r)%N || ((r =? half)%N && N.odd q)
    then ((q + 1) * 2 ^ sh)%N
    else (q * 2 ^ sh)%N.

(** [Math.floor(Math.random() * n)]: the product is a double, rounded
    before the floor. *)
Definition random_index (n : nat) (w : World) : nat * World :=
  let '(k, w1) := Math_random w in
  (N.to_nat (round_double (k * N.of_nat n) / 2 ^ 53)%N, w1).

(** [map.set(key, value)]: an existing key keeps its place. *)
Fixpoint Map_set {V} (k : string) (v : V) (m : list (string * V)) : list (string * V) :=
  match m with
  | [] => [(k, v)]
  | (k', v') :: m' => if String.eqb k' k then (k, v) :: m' else (k', v') :: Map_set k v m'
  end.

(** [map.delete(key)] *)
Definition Map_delete {V} (k : string) (m : list (string * V)) : list (string * V) :=
  filter (fun e => negb (String.eqb (fst e) k)) m.

(** [map.get(key)] *)
Fixpoint Map_get {V} (k : string) (m : list (string * V)) : option V :=
  match m with
  | [] => None
  | (k', v) :: m' => if String.eqb k' k then Some v else Map_get k m'
  end.

(** [array.slice(-n)] *)
Definition slice_last {A} (n : nat) (l : list A) : list A :=
  skipn (List.length l - n) l.

(** ** AppState *)

Section Server.
Context {rt : JsRuntime}.

Definition removeClient (id : string) (w : World) : World :=
  logger LInfo ("Client disconnected: " ++ id)
    (upd_app (fun a => set_clients (Map_delete id (clients a)) a) w).

(** ['thought', 'prompt', 'video_generation', 'error'].includes(type) *)
Definition stored_type (t : string) : bool :=
  existsb (String.eqb t) ["thought"; "prompt"; "video_generation"; "error"].

(** The first statement of [broadcast]: the push and the slice. *)
Definition store_message (message : Message) (now : Z) (w : World) : World :=
  if stored_type (type message) then
    let '(r, w1) := Math_random w in
    let pushed := (messages (appState w1) ++
      [{| rec_id := (now, r); rec_timestamp := now;
          rec_type := type message; rec_content := content message |}])%list in
    let kept := if (50 <? List.length pushed)%nat then slice_last 50 pushed else pushed in
    upd_app (set_messages kept) w1
  else w.

(** One turn of the [forEach] callback of [broadcast]. *)
Definition deliver (payload : string) (entry : string * Client) (w : World) : World :=
  let '(id, ws) := entry in
  if readyState ws =? 1 then
    if sendThrows ws then
      removeClient id
        (logger LError ("Error sending to client " ++ id ++ ":")
           (call (CSendThrew id payload) w))
    else call (CSend id payload) w
  else w.

(** [clients.forEach]: only the entry being visited is ever deleted
    during the walk, so the walk visits the entries present at its
    start, in order. *)
Fixpoint forEach_deliver (payload : string) (entries : list (string * Client))
    (w : World) : World :=
  match entries with
  | [] => w
  | e :: rest => forEach_deliver payload rest (deliver payload e w)
  end.

Definition broadcast (message : Message) (now : Z) (w : World) : World :=
  let w1 := store_message message now w in
  let payload := JSON_stringify message in
  let w2 := call (CStringify message) w1 in
  forEach_deliver payload (clients (appState w2)) w2.

Definition sendToClient (clientId : string) (message : Message) (w : World) : World :=
  match Map_get clientId (clients (appState w)) with
  | Some ws =>
      if readyState ws =? 1 then
        let payload := JSON_stringify message in
        let w1 := call (CStringify message) w in
        if sendThrows ws then
          removeClient clientId
            (logger LError ("Error sending to client " ++ clientId ++ ":")
               (call (CSendThrew clientId payload) w1))
        else call (CSend clientId payload) w1
      else w
  | None => w
  end.

Definition addClient (ws : Client) (id : string) (now : Z) (w : World) : World :=
  let w1 := upd_app (fun a => set_clients (Map_set id ws (clients a)) a) w in
  let w2 := logger LInfo ("Client connected: " ++ id) w1 in
  sendToClient id
    {| type := "connection_established"; content := None; timestamp := None;
       data := Some (ConnectionPayload (streamStatus (appState w2))
                       (match currentStream (appState w2) with Some _ => true | None => false end)) |}
    w2.

End Server.

(** ** Timers *)

(** [CONFIG] *)
Definition GENERATION_TIMEOUT : Z := 10000.
Definition LLM_CYCLE_INTERVAL : Z := 7000.

(** [setTimeout(task, delay)]: the handle and the world with the
    timer armed. *)
Definition setTimeout (task : Task) (delay : Z) (now : Z) (w : World) : nat * World :=
  (nextTimer w,
   set_timers (timers w ++ [{| t_id := nextTimer w; t_due := now + delay;
                               t_task := task; t_period := None |}])
              (S (nextTimer w)) w).

Definition setInterval (task : Task) (delay : Z) (now : Z) (w : World) : nat * World :=
  (nextTimer w,
   set_timers (timers w ++ [{| t_id := nextTimer w; t_due := now + delay;
                               t_task := task; t_period := Some delay |}])
              (S (nextTimer w)) w).

(** [clearTimeout(handle)], [clearInterval(handle)]: a handle whose
    timer has fired or was cleared changes nothing. *)
Definition clearTimeout (h : nat) (w : World) : World :=
  set_timers (filter (fun t => negb (Nat.eqb (t_id t) h)) (timers w)) (nextTimer w) w.

Definition find_timer (h : nat) (w : World) : option Timer :=
  find (fun t => Nat.eqb (t_id t) h) (timers w).

(** ** WHEPClient *)

(** [new WHEPClient(whepUrl, options)] *)
Definition new_WHEPClient (url : option string) : WHEPClient :=
  {| whepUrl := url; peerConnection := false; isConnected := false;
     onFrame := false; onError := false; onConnect := false;
     onDisconnect := false; connecting := false |}.

(** The four assignments [client.onX = ...] of [startWhepConnection]. *)
Definition assign_callbacks (c : WHEPClient) : WHEPClient :=
  {| whepUrl := whepUrl c; peerConnection := peerConnection c;
     isConnected := isConnected c;
     onFrame := true; onError := true; onConnect := true;
     onDisconnect := true; connecting := connecting c |}.

(** The [oniceconnectionstatechange] handler that
    [setupPeerConnectionHandlers] installs, run when the connection
    reports [state]: the client after it and the callbacks it
    called. *)
Definition oniceconnectionstatechange (state : IceState) (c : WHEPClient)
    : WHEPClient * list Callback :=
  match state with
  | IceConnected | IceCompleted =>
      (set_isConnected true c, if onConnect c then [OnConnect] else [])
  | IceDisconnected | IceFailed | IceClosed =>
      (set_isConnected false c, if onDisconnect c then [OnDisconnect state] else [])
  | IceNew | IceChecking => (c, [])
  end.

(** The handler over a run of state changes, callbacks in order. *)
Fixpoint observe (states : list IceState) (c : WHEPClient)
    : WHEPClient * list Callback :=
  match states with
  | [] => (c, [])
  | st :: rest =>
      let '(c1, out1) := oniceconnectionstatechange st c in
      let '(c2, out2) := observe rest c1 in
      (c2, (out1 ++ out2)%list)
  end.

(** The callback of the interval [simulateFrameReception] arms. *)
Definition frame_tick (fd : FrameData) (c : WHEPClient) : list Callback :=
  if negb (isConnected c) || negb (onFrame c) then [] else [OnFrame fd].

Definition ice_name (st : IceState) : string :=
  match st with
  | IceNew => "new" | IceChecking => "checking" | IceConnected => "connected"
  | IceCompleted => "completed" | IceDisconnected => "disconnected"
  | IceFailed => "failed" | IceClosed => "closed"
  end.

(** [array[i] = v] on the heap of clients. *)
Fixpoint heap_set (i : nat) (c : WHEPClient) (h : list WHEPClient) : list WHEPClient :=
  match h, i with
  | [], _ => []
  | _ :: h', O => c :: h'
  | x :: h', S i' => x :: heap_set i' c h'
  end.

Definition upd_client (i : nat) (f : WHEPClient -> WHEPClient) (w : World) : World :=
  match nth_error (heap w) i with
  | Some c => set_heap (heap_set i (f c) (heap w)) w
  | None => w
  end.

(** [WHEPClient.disconnect()] on client [i]. *)
Definition disconnect (i : nat) (w : World) : World :=
  match nth_error (heap w) i with
  | Some c =>
      let w1 := if peerConnection c
                then upd_client i (set_peerConnection false) (call (CWhepClose i) w)
                else w in
      logger LInfo "WHEP connection closed" (upd_client i (set_isConnected false) w1)
  | None => w
  end.

Definition show (o : option string) : string :=
  match o with Some s => s | None => "undefined" end.

(** [connect()] up to its first [await]. *)
Definition connect (i : nat) (w : World) : World :=
  match nth_error (heap w) i with
  | Some c =>
      let w1 := logger LInfo ("Connecting to WHEP endpoint: " ++ show (whepUrl c)) w in
      let w2 := upd_client i (fun c => set_connecting true (set_peerConnection true c)) w1 in
      call (CWhepConnect i (whepUrl c)) w2
  | None => w
  end.

(** Statements run one after the other. *)
Definition run_statements (body : list (World -> World)) (w : World) : World :=
  fold_left (fun w statement => statement w) body w.

(** The states a run of statements passes through, from the state
    before the first to the state after the last. *)
Fixpoint states_passed (body : list (World -> World)) (w : World) : list World :=
  match body with
  | [] => [w]
  | statement :: rest => w :: states_passed rest (statement w)
  end.

Section Handlers.
Context {rt : JsRuntime}.

(** ** FrameStreamer *)

Definition stopReceiving (w : World) : World :=
  logger LInfo "Stopped receiving frames" (upd_streamer (set_hasFrames false) w).

(** [this.hasFrames && (Date.now() - appState.lastFrameTime < 5000)] *)
Definition hasActiveFrames (now : Z) (w : World) : bool :=
  hasFrames (frameStreamer (appState w)) && (now - lastFrameTime (appState w) <? 5000).

(** [x || d] on a number member: absent and 0 give [d]. *)
Definition number_or (x : option Z) (d : Z) : Z :=
  match x with
  | Some v => if v =? 0 then d else v
  | None => d
  end.

Definition processIncomingFrame (frameData : FrameData) (now : Z) (w : World) : World :=
  match currentStream (appState w) with
  | None => w
  | Some cs =>
      let w1 := upd_streamer (set_hasFrames true) w in
      let w2 := upd_streamer (fun f => set_frameCount (frameCount f + 1) f) w1 in
      let w3 := upd_app (set_lastFrameTime now) w2 in
      let frameBase64 := fd_data frameData in
      let w4 := match frameBase64 with
                | Some (String _ _ as b) =>
                    upd_streamer (set_currentFrame (Some ("data:image/jpeg;base64," ++ b))) w3
                | _ => w3
                end in
      broadcast
        {| type := "frame"; content := None; timestamp := None;
           data := Some (FramePayload (cs_id cs)
                           (frameCount (frameStreamer (appState w4))) now
                           (number_or (fd_width frameData) 1920)
                           (number_or (fd_height frameData) 1080)
                           frameBase64) |}
        now w4
  end.

Definition sendWaitingFrame (now : Z) (w : World) : World :=
  if negb (hasActiveFrames now w) then
    broadcast
      {| type := "waiting_frame"; content := None; timestamp := None;
         data := Some (WaitingPayload "Waiting for video frames..." now) |}
      now w
  else w.

(** ** VideoGenerator *)

(** How the [fetch] of the start API and the reading of its body
    end: a 2xx answer whose body parses (with the two members read
    from it), another status, a rejected [fetch], or a body for which
    [response.json()] (or reading the members) throws. *)
Inductive StartResponse :=
| ResponseOk (stream_id whep_url : option string)
| ResponseStatus (status : Z)
| ResponseRejected (message : string)
| ResponseBadBody (message : string).

(** How a [connect()] call ends: it returns, or it throws an error
    with this message. *)
Inductive WhepResult :=
| WhepOk
| WhepFailed (message : string).

Definition status_message (text : string) (now : Z) : Message :=
  {| type := "video_generation"; content := Some text;
     timestamp := Some now; data := None |}.

Definition error_message (text : string) (now : Z) : Message :=
  {| type := "error"; content := Some text;
     timestamp := Some now; data := None |}.

(** [requestGeneration(prompt)] up to the [await] of the [fetch]. *)
Definition requestGeneration (prompt : string) (now : Z) (w : World) : World :=
  if generationInProgress (appState w) then
    logger LInfo "Generation already in progress, skipping" w
  else
    let w1 := upd_app (set_generationInProgress true) w in
    let w2 := upd_app (set_streamStatus Starting) w1 in
    let w3 := broadcast
                (status_message ("Starting video generation: " ++ dquote ++ prompt ++ dquote) now)
                now w2 in
    let w4 := logger LInfo ("Requesting video generation with prompt: " ++ prompt) w3 in
    set_inflight (S (inflight w4)) (call (CFetchStart prompt) w4).

(** The [catch] block of [requestGeneration]. *)
Definition requestGeneration_catch (message : string) (now : Z) (w : World) : World :=
  let w1 := logger LError "Video generation request failed:" w in
  let w2 := upd_app (set_streamStatus Error) w1 in
  let w3 := upd_app (set_generationInProgress false) w2 in
  broadcast (error_message ("Video generation failed: " ++ message) now) now w3.

(** The [onConnect] function [startWhepConnection] assigns; [url]
    is the [whepUrl] its closure holds. *)
Definition whep_onConnect (url : option string) (now : Z) (w : World) : World :=
  let w1 := upd_app (set_streamStatus Active) w in
  let w2 := upd_app (set_currentStream
                       (Some {| cs_id := currentStreamId (videoGenerator w1);
                                cs_whepUrl := url; cs_startTime := now |})) w1 in
  let w3 := upd_app (set_generationInProgress false) w2 in
  let w4 := broadcast
              (status_message "WHEP connection established, receiving video frames" now)
              now w3 in
  logger LInfo "WHEP connection established successfully" w4.

Definition whep_onError (message : string) (now : Z) (w : World) : World :=
  let w1 := logger LError "WHEP connection error:" w in
  let w2 := upd_app (set_streamStatus Error) w1 in
  broadcast (error_message ("WHEP connection error: " ++ message) now) now w2.

Definition whep_onDisconnect (reason : IceState) (now : Z) (w : World) : World :=
  let w1 := logger LInfo ("WHEP disconnected: " ++ ice_name reason) w in
  let w2 := stopReceiving w1 in
  let w3 := upd_app (set_streamStatus Idle) w2 in
  broadcast (status_message ("Stream disconnected: " ++ ice_name reason) now) now w3.

(** A callback of the client whose closure holds [url], as
    [startWhepConnection] wires it. *)
Definition run_callback (url : option string) (now : Z) (cb : Callback) (w : World) : World :=
  match cb with
  | OnConnect => whep_onConnect url now w
  | OnDisconnect reason => whep_onDisconnect reason now w
  | OnError message => whep_onError message now w
  | OnFrame frameData => processIncomingFrame frameData now w
  end.

Definition run_callbacks (url : option string) (now : Z) (cbs : list Callback) (w : World)
    : World :=
  fold_left (fun w cb => run_callback url now cb w) cbs w.

(** [startWhepConnection(whepUrl)] up to the [await] inside
    [connect()]: the client is created, stored in
    [this.whepConnection] and given its four callbacks. *)
Definition startWhepConnection (url : option string) (w : World) : World :=
  let w1 := logger LInfo ("Connecting to WHEP endpoint: " ++ show url) w in
  let i := List.length (heap w1) in
  let c := assign_callbacks (new_WHEPClient url) in
  let w2 := set_heap (heap w1 ++ [c]) w1 in
  let w3 := upd_gen (set_whepConnection (Some i)) w2 in
  connect i w3.

(** The [catch] block of [startWhepConnection]; it rethrows. *)
Definition startWhepConnection_catch (message : string) (now : Z) (w : World) : World :=
  let w1 := logger LError "WHEP connection failed:" w in
  let w2 := upd_app (set_streamStatus Error) w1 in
  let w3 := upd_app (set_generationInProgress false) w2 in
  broadcast (error_message ("WHEP connection failed: " ++ message) now) now w3.

(** [requestGeneration] resumed with the outcome of the start call. *)
Definition requestGeneration_resume (r : StartResponse) (now : Z) (w : World) : World :=
  match r with
  | ResponseOk stream_id whep_url =>
      let w1 := upd_gen (set_currentStreamId stream_id) w in
      let w2 := logger LInfo ("Video generation started. Stream ID: " ++ show stream_id
                              ++ ", WHEP URL: " ++ show whep_url) w1 in
      let w3 := broadcast
                  (status_message ("Video generation initiated. Stream ID: " ++ show stream_id) now)
                  now w2 in
      startWhepConnection whep_url w3
  | ResponseStatus status =>
      requestGeneration_catch
        ("Video API responded with status: " ++ string_of_Z status) now w
  | ResponseRejected message => requestGeneration_catch message now w
  | ResponseBadBody message => requestGeneration_catch message now w
  end.

(** [requestGeneration] resumed when the [connect()] of client [i]
    has settled.  A failure runs the [catch] of [connect] (which
    calls [onError]), then that of [startWhepConnection], then that
    of [requestGeneration]; a success arms the timer. *)
Definition requestGeneration_connected (i : nat) (r : WhepResult) (now : Z) (w : World)
    : World :=
  match nth_error (heap w) i with
  | None => w
  | Some c =>
      let w0 := upd_client i (set_connecting false) w in
      match r with
      | WhepOk =>
          let w1 := logger LInfo "WHEP connection established" w0 in
          let '(h, w2) := setTimeout TaskTimeout GENERATION_TIMEOUT now w1 in
          upd_gen (set_generationTimeout (Some h)) w2
      | WhepFailed message =>
          let w1 := logger LError "WHEP connection failed:" w0 in
          let w2 := if onError c then whep_onError message now w1 else w1 in
          let w3 := startWhepConnection_catch message now w2 in
          requestGeneration_catch message now w3
      end
  end.

(** The five statements of [handleGenerationTimeout], in order. *)
Definition handleGenerationTimeout_statements (now : Z) : list (World -> World) :=
  [ logger LWarn "Video generation timeout reached";
    broadcast
      (error_message "Video generation timeout - retrying with adjusted parameters" now)
      now;
    upd_app (set_streamStatus Idle);
    upd_app (set_generationInProgress false);
    upd_gen (set_currentStreamId None) ].

Definition handleGenerationTimeout (now : Z) (w : World) : World :=
  run_statements (handleGenerationTimeout_statements now) w.

Definition stopCurrentGeneration (w : World) : World :=
  let w1 := match generationTimeout (videoGenerator w) with
            | Some h => upd_gen (set_generationTimeout None) (clearTimeout h w)
            | None => w
            end in
  let w2 := match whepConnection (videoGenerator w1) with
            | Some i => upd_gen (set_whepConnection None) (disconnect i w1)
            | None => w1
            end in
  let w3 := stopReceiving w2 in
  let w4 := upd_app (set_streamStatus Idle) w3 in
  let w5 := upd_app (set_currentStream None) w4 in
  let w6 := upd_gen (set_currentStreamId None) w5 in
  let w7 := upd_app (set_generationInProgress false) w6 in
  logger LInfo "Video generation stopped" w7.

End Handlers.

(** ** LLMBot *)

(** [s.startsWith(p)] *)
Fixpoint starts_with (p s : string) : bool :=
  match p, s with
  | EmptyString, _ => true
  | String a p', String b s' => Ascii.eqb a b && starts_with p' s'
  | String _ _, EmptyString => false
  end.

Fixpoint drop_chars (n : nat) (s : string) : string :=
  match n, s with
  | O, _ => s
  | S n', String _ s' => drop_chars n' s'
  | S _, EmptyString => EmptyString
  end.

(** [s.replace(pat, rep)] for a string pattern: the first occurrence
    only.  No replacement text used here contains a dollar sign. *)
Fixpoint replace (pat rep s : string) : string :=
  if starts_with pat s then rep ++ drop_chars (String.length pat) s
  else match s with
       | EmptyString => EmptyString
       | String a s' => String a (replace pat rep s')
       end.

Definition thoughtPatterns : list string :=
  [ "Analyzing visual aesthetics and trending motifs...";
    "Considering color palettes that evoke specific emotions...";
    "Exploring dynamic camera movements and transitions...";
    "Thinking about narrative elements to enhance engagement...";
    "Evaluating lighting conditions for dramatic effect...";
    "Contemplating abstract vs realistic visual approaches...";
    "Processing feedback from previous generations...";
    "Adjusting parameters for optimal visual impact..." ].

Definition promptTemplates : list string :=
  [ "A {adjective} {setting} with {elements}, {style} style, {technical_specs}";
    "{action} in a {environment}, featuring {visual_elements}, {atmosphere}";
    "{concept} with {colors} and {effects}, {mood} lighting, {format}" ].

Definition adjectives : list string :=
  ["cyberpunk"; "ethereal"; "dramatic"; "surreal"; "vibrant"; "mystical"].
Definition settings : list string :=
  ["cityscape"; "forest"; "ocean depths"; "space station"; "mountain peak"; "desert"].
Definition elements : list string :=
  ["neon lights"; "floating particles"; "energy beams"; "crystal formations"; "smoke effects"].
Definition styles : list string :=
  ["cinematic"; "80s retro"; "abstract art"; "photorealistic"; "anime-inspired"].

(** [list[Math.floor(Math.random() * list.length)]] *)
Definition pick (l : list string) (w : World) : string * World :=
  let '(i, w1) := random_index (List.length l) w in
  (nth i l "undefined", w1).

Section Scheduler.
Context {rt : JsRuntime}.

Definition generateThought (now : Z) (w : World) : World :=
  let '(thought, w1) := pick thoughtPatterns w in
  let w2 := upd_bot (set_currentThought thought) w1 in
  let w3 := broadcast {| type := "thought"; content := Some thought;
                         timestamp := Some now; data := None |} now w2 in
  logger LInfo ("LLM Thought: " ++ thought) w3.

Definition generatePrompt (now : Z) (w : World) : World :=
  let '(template, w) := pick promptTemplates w in
  let '(adjective, w) := pick adjectives w in
  let p := replace "{adjective}" adjective template in
  let '(setting, w) := pick settings w in
  let p := replace "{setting}" setting p in
  let '(element, w) := pick elements w in
  let p := replace "{elements}" element p in
  let '(style, w) := pick styles w in
  let p := replace "{style}" style p in
  let p := replace "{technical_specs}" "4K resolution, smooth motion" p in
  let p := replace "{action}" "Dynamic movement" p in
  let '(environment, w) := pick settings w in
  let p := replace "{environment}" environment p in
  let '(visual, w) := pick elements w in
  let p := replace "{visual_elements}" visual p in
  let '(atmosphere, w) := pick adjectives w in
  let p := replace "{atmosphere}" (atmosphere ++ " atmosphere") p in
  let p := replace "{concept}" "Abstract visualization" p in
  let p := replace "{colors}" "vibrant neon colors" p in
  let p := replace "{effects}" "particle effects" p in
  let p := replace "{mood}" "dramatic" p in
  let prompt := replace "{format}" "seamless loop" p in
  let w := upd_bot (set_lastPrompt prompt) w in
  let w := broadcast {| type := "prompt"; content := Some prompt;
                        timestamp := Some now; data := None |} now w in
  logger LInfo ("Generated Prompt: " ++ prompt) w.

(** [processCycle()]: the thought, then the first timer.  Nothing in
    its [try] block throws, so its [catch] never runs. *)
Definition processCycle (now : Z) (w : World) : World :=
  let w1 := generateThought now w in
  snd (setTimeout TaskPrompt 2000 now w1).

(** The callback [processCycle] hands to [setTimeout]:
    [generatePrompt], then the check and the second timer. *)
Definition cycle_prompt_check (now : Z) (w : World) : World :=
  if negb (hasActiveFrames now w) then snd (setTimeout TaskRequest 2000 now w)
  else w.

Definition cycle_prompt (now : Z) (w : World) : World :=
  cycle_prompt_check now (generatePrompt now w).

(** The callback [cycle_prompt] hands to [setTimeout]. *)
Definition cycle_request (now : Z) (w : World) : World :=
  requestGeneration (lastPrompt (llmBot (appState w))) now w.

(** [LLMBot.start()] *)
Definition start (now : Z) (w : World) : World :=
  let w1 := logger LInfo "Starting LLM Bot cycle" w in
  let '(h, w2) := setInterval TaskCycle LLM_CYCLE_INTERVAL now w1 in
  let w3 := upd_bot (set_cycleInterval (Some h)) w2 in
  snd (setTimeout TaskCycle 1000 now w3).

(** [LLMBot.stop()] *)
Definition stop (w : World) : World :=
  let w1 := match cycleInterval (llmBot (appState w)) with
            | Some h => upd_bot (set_cycleInterval None) (clearTimeout h w)
            | None => w
            end in
  logger LInfo "LLM Bot cycle stopped" w1.

(** The status-check callback up to the [await] of its [fetch];
    what follows the answer only writes to the log. *)
Definition checkStreamStatus (w : World) : World :=
  match currentStreamId (videoGenerator w) with
  | Some (String a s) => call (CFetchStatus (String a s)) w
  | _ => w
  end.

(** What a timer's callback does. *)
Definition run_task (t : Task) (now : Z) (w : World) : World :=
  match t with
  | TaskCycle => processCycle now w
  | TaskPrompt => cycle_prompt now w
  | TaskRequest => cycle_request now w
  | TaskTimeout => handleGenerationTimeout now w
  | TaskWaiting =>
      if negb (hasActiveFrames now w) then sendWaitingFrame now w else w
  | TaskStatus => checkStreamStatus w
  end.

(** ** Client messages *)

(** [data.name]: [None] where reading a member of [data] throws
    (null), [Some None] where the member is undefined. *)
Definition member (name : string) (v : Json) : option (option Json) :=
  match v with
  | JNull => None
  | JObj members => Some (Map_get name members)
  | _ => Some None
  end.

Definition truthy (v : Json) : bool :=
  match v with
  | JNull => false
  | JBool b => b
  | JNum z => negb (z =? 0)
  | JStr s => negb (String.eqb s "")
  | JArr _ | JObj _ => true
  end.

(** A prompt inside a template literal: a string as it is, another
    value as the runtime converts it. *)
Definition prompt_text (v : Json) : Rendered :=
  match v with
  | JStr s => Text s
  | _ => ToString v
  end.

(** [videoGenerator.requestGeneration(data.prompt)] for a prompt that
    [JSON.parse] returned.  The first template literal stands inside
    the [try], after the two assignments: when the conversion throws,
    the [catch] runs with the flag and the status already written. *)
Definition requestGeneration_value (prompt : Json) (now : Z) (w : World) : World :=
  match prompt_text prompt with
  | Text s => requestGeneration s now w
  | Throws message =>
      if generationInProgress (appState w) then
        logger LInfo "Generation already in progress, skipping" w
      else
        let w1 := upd_app (set_generationInProgress true) w in
        let w2 := upd_app (set_streamStatus Starting) w1 in
        requestGeneration_catch message now w2
  end.

(** [value === 'label']: the comparison a [case] label makes. *)
Definition is_label (value : option Json) (label : string) : bool :=
  match value with
  | Some (JStr s) => String.eqb s label
  | _ => false
  end.

(** [handleClientMessage(clientId, data)]; [None] where it throws. *)
Definition handleClientMessage (clientId : string) (v : Json) (now : Z) (w : World)
    : option World :=
  match member "type" v with
  | None => None
  | Some ty =>
      if is_label ty "start_generation" then
        match member "prompt" v with
        | Some (Some p) =>
            Some (if truthy p then requestGeneration_value p now w else w)
        | _ => Some w
        end
      else if is_label ty "stop_generation" then Some (stopCurrentGeneration w)
      else if is_label ty "get_status" then
        Some (sendToClient clientId
                {| type := "status_response"; content := None; timestamp := None;
                   data := Some (StatusPayload (streamStatus (appState w))
                                   (match currentStream (appState w) with
                                    | Some _ => true | None => false end)
                                   (hasActiveFrames now w)) |} w)
      else
        Some (logger LWarn ("Unknown message type from client " ++ clientId ++ ":") w)
  end.

(** The ['message'] listener of a socket: the [try] and its [catch]. *)
Definition on_message (clientId : string) (payload : string) (now : Z) (w : World) : World :=
  match JSON_parse payload with
  | None => logger LError "Error parsing client message:" w
  | Some v =>
      match handleClientMessage clientId v now w with
      | Some w' => w'
      | None => logger LError "Error parsing client message:" w
      end
  end.

(** ** The event loop *)

Inductive Event :=
| EvListen                                      (* the [server.listen] callback *)
| EvFire (h : nat)                              (* timer [h] is due and runs *)
| EvGenerate (prompt : string)                  (* POST /api/generate *)
| EvStartResponse (r : StartResponse)           (* a start call is answered *)
| EvWhepSettled (i : nat) (r : WhepResult)      (* [connect()] of client [i] settles *)
| EvIce (i : nat) (state : IceState)            (* its ICE state changes *)
| EvFrame (i : nat) (frameData : FrameData)     (* its frame interval ticks *)
| EvConnection (id : string) (ws : Client)      (* a socket is accepted *)
| EvStream (id : string) (ws : Client)          (* GET /api/stream *)
| EvMessage (id : string) (payload : string)
| EvClose (id : string)
| EvSocketError (id : string)
| EvTransport (id : string) (ws : Client)       (* a socket changes state *)
| EvSignal (name : string).                     (* SIGTERM, SIGINT *)

Definition fire (h : nat) (now : Z) (w : World) : option World :=
  match find_timer h w with
  | Some t =>
      if t_due t <=? now then
        let w1 := match t_period t with
                  | None => clearTimeout h w
                  | Some d =>
                      set_timers
                        (map (fun x => if Nat.eqb (t_id x) h
                                       then {| t_id := h; t_due := now + d;
                                               t_task := t_task x; t_period := t_period x |}
                                       else x) (timers w))
                        (nextTimer w) w
                  end in
        Some (run_task (t_task t) now w1)
      else None
  | None => None
  end.

(** One turn of the event loop at time [now]; [None] where the
    event cannot happen in [w]. *)
Definition step (now : Z) (e : Event) (w : World) : option World :=
  match e with
  | EvListen =>
      (* the three lines the callback logs first print the configured
         port and are left out of the log *)
      let w1 := start now w in
      let w2 := snd (setInterval TaskWaiting 1000 now w1) in
      Some (snd (setInterval TaskStatus 30000 now w2))
  | EvFire h => fire h now w
  | EvGenerate prompt =>
      Some (if String.eqb prompt "" then w else requestGeneration prompt now w)
  | EvStartResponse r =>
      match inflight w with
      | O => None
      | S n => Some (requestGeneration_resume r now (set_inflight n w))
      end
  | EvWhepSettled i r =>
      match nth_error (heap w) i with
      | Some c => if connecting c then Some (requestGeneration_connected i r now w) else None
      | None => None
      end
  | EvIce i state =>
      match nth_error (heap w) i with
      | Some c =>
          if peerConnection c then
            let '(c', cbs) := oniceconnectionstatechange state c in
            Some (run_callbacks (whepUrl c) now cbs
                    (logger LInfo ("ICE connection state: " ++ ice_name state)
                       (upd_client i (fun _ => c') w)))
          else None
      | None => None
      end
  | EvFrame i frameData =>
      match nth_error (heap w) i with
      | Some c => Some (run_callbacks (whepUrl c) now (frame_tick frameData c) w)
      | None => None
      end
  | EvConnection id ws => Some (addClient ws id now w)
  | EvStream id ws =>
      Some (upd_app (fun a => set_clients (Map_set (id ++ "_sse") ws (clients a)) a) w)
  | EvMessage id payload => Some (on_message id payload now w)
  | EvClose id => Some (removeClient id w)
  | EvSocketError id =>
      Some (removeClient id (logger LError ("WebSocket error for client " ++ id ++ ":") w))
  | EvTransport id ws =>
      match Map_get id (clients (appState w)) with
      | Some _ => Some (upd_app (fun a => set_clients (Map_set id ws (clients a)) a) w)
      | None => None
      end
  | EvSignal name =>
      Some (stopCurrentGeneration
              (stop (logger LInfo (name ++ " received, shutting down gracefully") w)))
  end.

Fixpoint run (events : list (Z * Event)) (w : World) : option World :=
  match events with
  | [] => Some w
  | (now, e) :: rest =>
      match step now e w with
      | Some w1 => run rest w1
      | None => None
      end
  end.

End Scheduler.

(** The state the constructors build, before [server.listen]. *)
Definition initial (draws : nat -> N) : World :=
  {| appState :=
       {| clients := []; messages := []; currentStream := None;
          streamStatus := Idle;
          llmBot := {| currentThought := ""; lastPrompt := ""; cycleInterval := None |};
          frameStreamer := {| hasFrames := false; frameCount := 0; currentFrame := None |};
          lastFrameTime := 0; generationInProgress := false |};
     videoGenerator :=
       {| currentStreamId := None; whepConnection := None; generationTimeout := None |};
     heap := []; timers := []; nextTimer := O; inflight := O;
     rng := draws; rngPos := O; trace := []; logs := [] |}.

(** ** Auxiliary definitions of the statements *)

Section Statements.
Context {rt : JsRuntime}.

(** The part of the world a delivery walk cannot touch. *)
Definition core (w : World) :=
  (messages (appState w), currentStream (appState w), streamStatus (appState w),
   llmBot (appState w), frameStreamer (appState w), lastFrameTime (appState w),
   generationInProgress (appState w), videoGenerator w, heap w, timers w,
   nextTimer w, inflight w, rng w, rngPos w).

(** The history a stored message leaves: the push, then the slice. *)
Definition record_at (message : Message) (now : Z) (w : World) : EventRecord :=
  {| rec_id := (now, (rng w (rngPos w) mod 2 ^ 53)%N); rec_timestamp := now;
     rec_type := type message; rec_content := content message |}.

(** A run of [broadcast] calls, each with its [Date.now()]. *)
Fixpoint broadcasts (bs : list (Message * Z)) (w : World) : World :=
  match bs with
  | [] => w
  | (m, now) :: rest => broadcasts rest (broadcast m now w)
  end.

(** The records a run of calls pushes, the first stored one taking
    the draw at [pos]. *)
Fixpoint records (draws : nat -> N) (pos : nat) (bs : list (Message * Z))
    : list EventRecord :=
  match bs with
  | [] => []
  | (m, now) :: rest =>
      if stored_type (type m) then
        {| rec_id := (now, (draws pos mod 2 ^ 53)%N); rec_timestamp := now;
           rec_type := type m; rec_content := content m |}
        :: records draws (S pos) rest
      else records draws pos rest
  end.

(** The socket is OPEN. *)
Definition is_open (e : string * Client) : bool := readyState (snd e) =? 1.

(** What the walk of [broadcast] does with an open socket. *)
Definition attempt (payload : string) (e : string * Client) : Call :=
  if sendThrows (snd e) then CSendThrew (fst e) payload else CSend (fst e) payload.

(** The entries a walk over [es] deletes: those whose key is the key
    of an open entry of [es] whose [send] throws. *)
Definition dropped (es : list (string * Client)) (c : string * Client) : bool :=
  existsb (fun e => is_open e && sendThrows (snd e) && String.eqb (fst c) (fst e)) es.

(** A run of [requestGeneration] calls with nothing in between. *)
Fixpoint requests (ps : list (string * Z)) (w : World) : World :=
  match ps with
  | [] => w
  | (prompt, now) :: rest => requests rest (requestGeneration prompt now w)
  end.

(** [w'] differs from [w] in its log at most. *)
Definition unchanged (w w' : World) : Prop :=
  appState w' = appState w /\ videoGenerator w' = videoGenerator w /\
  heap w' = heap w /\ timers w' = timers w /\ nextTimer w' = nextTimer w /\
  inflight w' = inflight w /\ rngPos w' = rngPos w /\ trace w' = trace w.

(** The calls one [broadcast] of [m] adds to the trace when the
    registry is [cs]. *)
Definition one_broadcast (m : Message) (cs : list (string * Client)) : list Call :=
  CStringify m :: map (attempt (JSON_stringify m)) (filter is_open cs).

(** The text of the error a failed start call throws. *)
Definition failure_reason (r : StartResponse) : option string :=
  match r with
  | ResponseOk _ _ => None
  | ResponseStatus status => Some ("Video API responded with status: " ++ string_of_Z status)
  | ResponseRejected message => Some message
  | ResponseBadBody message => Some message
  end.

(** The start calls made so far. *)
Definition start_calls (w : World) : list Call :=
  filter (fun c => match c with CFetchStart _ => true | _ => false end) (trace w).

(** The client [startWhepConnection] has created when it reaches the
    [await] of [connect()]. *)
Definition connecting_client (url : option string) : WHEPClient :=
  {| whepUrl := url; peerConnection := true; isConnected := false;
     onFrame := true; onError := true; onConnect := true;
     onDisconnect := true; connecting := true |}.

(** The timer [requestGeneration] arms at [now] with handle [h]. *)
Definition timeout_timer (h : nat) (now : Z) : Timer :=
  {| t_id := h; t_due := now + GENERATION_TIMEOUT; t_task := TaskTimeout;
     t_period := None |}.

(** A one-shot timer with handle [h] that runs [task] at [due]. *)
Definition one_shot (h : nat) (due : Z) (task : Task) : Timer :=
  {| t_id := h; t_due := due; t_task := task; t_period := None |}.

(** The stream status and the flag that guards [requestGeneration]. *)
Definition lifecycle (w : World) : StreamStatus * bool :=
  (streamStatus (appState w), generationInProgress (appState w)).

(** How the two go together between two turns of the event loop:
    the flag is set while the status is Starting and clear while it
    is Active or Error. *)
Definition lifecycle_ok (g : StreamStatus * bool) : Prop :=
  match g with
  | (Starting, b) => b = true
  | (Active, b) | (Error, b) => b = false
  | (Idle, _) => True
  end.

(** The callbacks the ICE handler and the frame interval call. *)
Definition connectivity_or_frame (cb : Callback) : Prop :=
  match cb with OnError _ => False | _ => True end.

End Statements.

(** ** A runtime for the examples

    [JSON_stringify] writes the type and the content of a message;
    [JSON_parse] reads three literals and the stop message, and
    rejects every other text; [ToString] prints the values the
    examples parse. *)

(** [null], the booleans and small integers as every runtime prints
    them; an array is its elements joined by commas, [null] printing
    as nothing there; an object with a member toString, which is no
    function in a value of [JSON.parse], cannot be converted. *)
Fixpoint example_ToString (v : Json) : Rendered :=
  match v with
  | JNull => Text "null"
  | JBool true => Text "true"
  | JBool false => Text "false"
  | JNum z => Text (string_of_Z z)
  | JStr s => Text s
  | JArr l =>
      (fix join (l : list Json) : Rendered :=
         match l with
         | [] => Text ""
         | x :: rest =>
             match (match x with JNull => Text "" | _ => example_ToString x end) with
             | Throws message => Throws message
             | Text a =>
                 match rest with
                 | [] => Text a
                 | _ => match join rest with
                        | Text b => Text (a ++ "," ++ b)
                        | Throws message => Throws message
                        end
                 end
             end
         end) l
  | JObj members =>
      match Map_get "toString" members with
      | Some _ => Throws "Cannot convert object to primitive value"
      | None => Text "[object Object]"
      end
  end.

(** The text of the object with the one member type, stop_generation. *)
Definition stop_text : string :=
  "{" ++ dquote ++ "type" ++ dquote ++ ":" ++ dquote ++ "stop_generation" ++ dquote ++ "}".

Definition example_runtime : JsRuntime :=
  {| JSON_stringify := fun m =>
       type m ++ ":" ++ match content m with Some c => c | None => "" end;
     JSON_parse := fun s =>
       if String.eqb s "null" then Some JNull
       else if String.eqb s "true" then Some (JBool true)
       else if String.eqb s "0" then Some (JNum 0)
       else if String.eqb s stop_text then Some (JObj [("type", JStr "stop_generation")])
       else None;
     ToString := example_ToString |}.

Definition open_client : Client := {| readyState := 1; sendThrows := false |}.
Definition closing_client : Client := {| readyState := 2; sendThrows := false |}.
Definition closed_client : Client := {| readyState := 3; sendThrows := false |}.
Definition broken_client : Client := {| readyState := 1; sendThrows := true |}.

(** The world after the events under the example runtime, from the
    constructors' state with every draw 0; the initial world itself
    if an event cannot happen. *)
Definition after (events : list (Z * Event)) : World :=
  match @run example_runtime events (initial (fun _ => 0%N)) with
  | Some w => w
  | None => initial (fun _ => 0%N)
  end.

Definition thought_at (n : Z) : Message * Z :=
  ({| type := "thought"; content := Some (string_of_Z n);
      timestamp := Some n; data := None |}, n).

Definition fifty_one : list (Message * Z) := map thought_at (map Z.of_nat (seq 0 51)).

(** The same broadcasts with a waiting frame after each. *)
Definition thoughts_and_frames : list (Message * Z) :=
  flat_map (fun n =>
              [thought_at n;
               ({| type := "waiting_frame"; content := None; timestamp := None;
                   data := Some (WaitingPayload "Waiting for video frames..." n) |}, n)])
           (map Z.of_nat (seq 0 51)).

(** Four sockets: two open, one whose [send] throws, one closed. *)
Definition three_clients : World :=
  after [(0, EvConnection "a" open_client);
         (1, EvConnection "b" broken_client);
         (2, EvConnection "c" open_client);
         (3, EvConnection "d" open_client);
         (4, EvTransport "d" closed_client)].

(** A stream made active: a request, its answer, the handshake and
    the ICE connection. *)
Definition active_stream : World :=
  after [(0, EvGenerate "p");
         (1, EvStartResponse (ResponseOk (Some "s1") (Some "u")));
         (2, EvWhepSettled 0 WhepOk);
         (3, EvIce 0 IceConnected)].

Definition a_frame : FrameData :=
  {| fd_frameNumber := 0; fd_timestamp := 100; fd_width := Some 1920;
     fd_height := Some 1080; fd_data := Some "AAAA" |}.

(** A client of [startWhepConnection] whose handshake has returned. *)
Definition wired_client : WHEPClient :=
  {| whepUrl := Some "u"; peerConnection := true; isConnected := false;
     onFrame := true; onError := true; onConnect := true;
     onDisconnect := true; connecting := false |}.

(** The states at which the handler calls [onConnect], and those at
    which it calls [onDisconnect]. *)
Definition connected_family (st : IceState) : bool :=
  match st with IceConnected | IceCompleted => true | _ => false end.

Definition disconnected_family (st : IceState) : bool :=
  match st with IceDisconnected | IceFailed | IceClosed => true | _ => false end.

(** Following the specification's words: the number of entries into
    a family along a run of states, an entry being a state of the
    family that follows a state outside it ([inside] says whether
    the state before the run is in the family). *)
Fixpoint spec_entries (family : IceState -> bool) (inside : bool) (states : list IceState)
    : nat :=
  match states with
  | [] => O
  | st :: rest =>
      ((if family st && negb inside then 1 else 0) + spec_entries family (family st) rest)%nat
  end.

Definition is_OnConnect (cb : Callback) : bool :=
  match cb with OnConnect => true | _ => false end.

Definition is_OnDisconnect (cb : Callback) : bool :=
  match cb with OnDisconnect _ => true | _ => false end.

(** The callback the handler calls at one state change, when both
    callbacks are assigned. *)
Definition fired (st : IceState) : list Callback :=
  if connected_family st then [OnConnect]
  else if disconnected_family st then [OnDisconnect st]
  else [].

(** A cycle of the bot while a stream is connected and has sent no
    frame yet: the prompt callback finds no frames and arms the
    request; a frame arrives during the wait. *)
Definition frames_during_wait : list (Z * Event) :=
  [(0, EvListen);
   (10, EvGenerate "p");
   (20, EvStartResponse (ResponseOk (Some "s1") (Some "u")));
   (30, EvWhepSettled 0 WhepOk);
   (40, EvIce 0 IceConnected);
   (1000, EvFire 1);
   (3000, EvFire 5);
   (3500, EvFrame 0 a_frame)].

(** ** Well-formed worlds *)

(** The history holds at most 50 records. *)
Definition history_ok (w : World) : Prop :=
  (List.length (messages (appState w)) <= 50)%nat.

(** The keys of the registry are distinct, as the keys of a [Map]. *)
Definition registry_ok (w : World) : Prop :=
  NoDup (map fst (clients (appState w))).

(** The handles of the armed timers are distinct and were all handed
    out already. *)
Definition timers_ok (w : World) : Prop :=
  NoDup (map t_id (timers w)) /\
  Forall (fun t => (t_id t < nextTimer w)%nat) (timers w).

Definition well_formed (w : World) : Prop :=
  history_ok w /\ registry_ok w /\ timers_ok w.

(** The messages serialised along a trace, in order. *)
Definition serialised (t : list Call) : list Message :=
  flat_map (fun c => match c with CStringify m => [m] | _ => [] end) t.

(** The texts sent to client [id] along a trace, in order. *)
Definition sent_to (id : string) (t : list Call) : list string :=
  flat_map (fun c => match c with
                     | CSend id' payload => if String.eqb id' id then [payload] else []
                     | _ => []
                     end) t.

(** A first tick of the bot after the server started listening. *)
Definition first_cycle : list (Z * Event) :=
  [(0, EvListen); (1000, EvFire 1)].

(** A request whose start call was answered, waiting for the
    handshake, with one socket listening. *)
Definition handshake_pending : World :=
  after [(0, EvConnection "a" open_client);
         (1, EvGenerate "p");
         (2, EvStartResponse (ResponseOk (Some "s1") (Some "u")))].

Section MoreStatements.
Context {rt : JsRuntime}.

(** A run of frames handed to [processIncomingFrame], each with its
    [Date.now()]. *)
Fixpoint frames (fds : list (FrameData * Z)) (w : World) : World :=
  match fds with
  | [] => w
  | (fd, now) :: rest => frames rest (processIncomingFrame fd now w)
  end.

(** The event [processIncomingFrame] broadcasts for frame [fd] when
    it is the [n]-th frame counted. *)
Definition frame_message (cs : CurrentStream) (n : Z) (fd : FrameData) (now : Z) : Message :=
  {| type := "frame"; content := None; timestamp := None;
     data := Some (FramePayload (cs_id cs) n now
                     (number_or (fd_width fd) 1920)
                     (number_or (fd_height fd) 1080)
                     (fd_data fd)) |}.

(** The events of a run of frames when [n] frames were counted
    before. *)
Fixpoint frame_messages (cs : CurrentStream) (n : Z) (fds : list (FrameData * Z))
    : list Message :=
  match fds with
  | [] => []
  | (fd, now) :: rest => frame_message cs (n + 1) fd now :: frame_messages cs (n + 1) rest
  end.

(** The object [addClient] sends to a new client. *)
Definition greeting (w : World) : Message :=
  {| type := "connection_established"; content := None; timestamp := None;
     data := Some (ConnectionPayload (streamStatus (appState w))
                     (match currentStream (appState w) with
                      | Some _ => true | None => false end)) |}.

(** The object [handleClientMessage] answers get_status with. *)
Definition status_response (now : Z) (w : World) : Message :=
  {| type := "status_response"; content := None; timestamp := None;
     data := Some (StatusPayload (streamStatus (appState w))
                     (match currentStream (appState w) with
                      | Some _ => true | None => false end)
                     (hasActiveFrames now w)) |}.

End MoreStatements.

(** Three registered sockets: "a" is open, the [send] of "b" has
    begun to throw, "d" is closed. *)
Definition one_broken : World :=
  after [(0, EvConnection "a" open_client);
         (1, EvConnection "b" open_client);
         (2, EvConnection "d" open_client);
         (3, EvTransport "b" broken_client);
         (4, EvTransport "d" closed_client)].

(** The text of the object with the one member type,
    start_generation. *)
Definition start_text : string :=
  "{" ++ dquote ++ "type" ++ dquote ++ ":" ++ dquote ++ "start_generation" ++ dquote ++ "}".

(** The text of the object with the one member type, get_status. *)
Definition status_text : string :=
  "{" ++ dquote ++ "type" ++ dquote ++ ":" ++ dquote ++ "get_status" ++ dquote ++ "}".

(** A runtime for the examples that reads objects: the empty object
    and the three one-member messages. *)
Definition object_runtime : JsRuntime :=
  {| JSON_stringify := fun m => type m;
     JSON_parse := fun s =>
       if String.eqb s "{}" then Some (JObj [])
       else if String.eqb s start_text then Some (JObj [("type", JStr "start_generation")])
       else if String.eqb s stop_text then Some (JObj [("type", JStr "stop_generation")])
       else if String.eqb s status_text then Some (JObj [("type", JStr "get_status")])
       else if String.eqb s "null" then Some JNull
       else if String.eqb s "7" then Some (JNum 7)
       else None;
     ToString := example_ToString |}.

(** ** Shapes of the generated prompt *)

(** [s.includes(c)] for a character. *)
Fixpoint has_char (c : ascii) (s : string) : bool :=
  match s with
  | EmptyString => false
  | String a s' => Ascii.eqb a c || has_char c s'
  end.

(** The opening brace of a placeholder. *)
Definition brace : ascii := ascii_of_nat 123.

(** The chain of [replace] calls of [generatePrompt], on a template
    and the seven picked words. *)
Definition fill (template adjective setting element style environment visual atmosphere
                 : string) : string :=
  let p := replace "{adjective}" adjective template in
  let p := replace "{setting}" setting p in
  let p := replace "{elements}" element p in
  let p := replace "{style}" style p in
  let p := replace "{technical_specs}" "4K resolution, smooth motion" p in
  let p := replace "{action}" "Dynamic movement" p in
  let p := replace "{environment}" environment p in
  let p := replace "{visual_elements}" visual p in
  let p := replace "{atmosphere}" (atmosphere ++ " atmosphere") p in
  let p := replace "{concept}" "Abstract visualization" p in
  let p := replace "{colors}" "vibrant neon colors" p in
  let p := replace "{effects}" "particle effects" p in
  let p := replace "{mood}" "dramatic" p in
  replace "{format}" "seamless loop" p.

(** The three shapes a prompt can have, one for each template. *)
Definition prompt_scene (adjective setting element style : string) : string :=
  "A " ++ adjective ++ " " ++ setting ++ " with " ++ element ++ ", " ++ style
  ++ " style, 4K resolution, smooth motion".

Definition prompt_action (environment visual atmosphere : string) : string :=
  "Dynamic movement in a " ++ environment ++ ", featuring " ++ visual ++ ", "
  ++ atmosphere ++ " atmosphere".

Definition prompt_abstract : string :=
  "Abstract visualization with vibrant neon colors and particle effects, dramatic lighting, seamless loop".

(** A request whose handshake call has returned, with one socket
    listening: the timeout timer is armed. *)
Definition handshake_done : World :=
  after [(0, EvConnection "a" open_client);
         (1, EvGenerate "p");
         (2, EvStartResponse (ResponseOk (Some "s1") (Some "u")));
         (3, EvWhepSettled 0 WhepOk)].

(** ** [simulateFrameReception] *)

(** The locals of one call of [simulateFrameReception]: its counter,
    and whether its interval is still armed. *)
Record Simulation := {
  sim_frameCount : Z;
  sim_armed : bool
}.

(** What the call leaves behind: counter 0 and the interval armed. *)
Definition simulateFrameReception : Simulation :=
  {| sim_frameCount := 0; sim_armed := true |}.

(** The frame object the interval callback builds; [buffer] is the
    base64 text of [Buffer.alloc(1920 * 1080 * 3)]. *)
Definition simulated_frame (buffer : string) (n now : Z) : FrameData :=
  {| fd_frameNumber := n; fd_timestamp := now; fd_width := Some 1920;
     fd_height := Some 1080; fd_data := Some buffer |}.

(** The callback of [frameInterval], run at [now] if the interval is
    still armed. *)
Definition frameInterval (buffer : string) (now : Z) (c : WHEPClient) (s : Simulation)
    : Simulation * list Callback :=
  if sim_armed s then
    if negb (isConnected c) || negb (onFrame c)
    then ({| sim_frameCount := sim_frameCount s; sim_armed := false |}, [])
    else ({| sim_frameCount := sim_frameCount s + 1; sim_armed := true |},
          [OnFrame (simulated_frame buffer (sim_frameCount s) now)])
  else (s, []).

(** The listener the call adds for [iceconnectionstatechange]. *)
Definition frame_cleanup (state : IceState) (s : Simulation) : Simulation :=
  match state with
  | IceDisconnected | IceClosed =>
      {| sim_frameCount := sim_frameCount s; sim_armed := false |}
  | _ => s
  end.

(** What happens to a client with a running simulation: the interval
    is due, or the ICE state changes. *)
Inductive SimEvent :=
| SimTick (now : Z)
| SimIce (state : IceState).

(** The callbacks of the client called along a run of such events. *)
Fixpoint simulate (buffer : string) (es : list SimEvent) (c : WHEPClient) (s : Simulation)
    : list Callback :=
  match es with
  | [] => []
  | SimTick now :: rest =>
      let '(s1, out) := frameInterval buffer now c s in
      (out ++ simulate buffer rest c s1)%list
  | SimIce state :: rest =>
      let '(c1, out) := oniceconnectionstatechange state c in
      (out ++ simulate buffer rest c1 (frame_cleanup state s))%list
  end.

Definition frame_numbers (cbs : list Callback) : list Z :=
  flat_map (fun cb => match cb with OnFrame fd => [fd_frameNumber fd] | _ => [] end) cbs.

Definition ticks (es : list SimEvent) : nat :=
  List.length (filter (fun e => match e with SimTick _ => true | SimIce _ => false end) es).

(** [n, n + 1, ..., n + k - 1] *)
Definition count_from (n : Z) (k : nat) : list Z :=
  map (fun i => n + Z.of_nat i) (seq 0 k).

(** ** The main route *)

(** [recentMessages] of the handler of [GET /]. *)
Definition recentMessages (w : World) : list EventRecord :=
  slice_last 20
    (List.concat (map (fun _ => messages (appState w)) (clients (appState w)))).

(** Two sockets and the three events of a refused start call. *)
Definition two_viewers : World :=
  after [(0, EvConnection "a" open_client);
         (1, EvConnection "c" open_client);
         (2, EvGenerate "p");
         (3, EvStartResponse (ResponseStatus 500))].

(** A start_generation message whose prompt is an object with a
    member toString, as [JSON.parse] returns it. *)
Definition unprintable_request : Json :=
  JObj [("type", JStr "start_generation");
        ("prompt", JObj [("toString", JNum 1)])].
(** * Properties *)

(** ** Lists *)

Lemma slice_last_short {A} (n : nat) (l : list A) :
  (List.length l <= n)%nat -> slice_last n l = l.
Proof.
  intros H. unfold slice_last.
  replace (List.length l - n)%nat with O by lia. reflexivity.
Qed.

Lemma slice_last_length {A} (n : nat) (l : list A) :
  List.length (slice_last n l) = Nat.min n (List.length l).
Proof. unfold slice_last. rewrite length_skipn. lia. Qed.

Lemma slice_last_app {A} (n : nat) (l r : list A) :
  (n <= List.length r)%nat -> slice_last n (l ++ r) = slice_last n r.
Proof.
  intros H. unfold slice_last.
  rewrite skipn_app, length_app.
  replace (List.length l + List.length r - n - List.length l)%nat
    with (List.length r - n)%nat by lia.
  rewrite skipn_all2 by lia. reflexivity.
Qed.

Lemma slice_last_absorb {A} (n : nat) (l r : list A) :
  slice_last n (slice_last n l ++ r) = slice_last n (l ++ r).
Proof.
  destruct (Nat.le_gt_cases (List.length l) n) as [Hle | Hgt].
  - rewrite (slice_last_short n l) by assumption. reflexivity.
  - set (k := (List.length l - n)%nat).
    transitivity (slice_last n (firstn k l ++ (skipn k l ++ r))).
    + rewrite (slice_last_app n (firstn k l) (skipn k l ++ r)); [reflexivity|].
      rewrite length_app, length_skipn. lia.
    + rewrite app_assoc, firstn_skipn. reflexivity.
Qed.

Lemma filter_filter_and {A} (f g : A -> bool) (l : list A) :
  filter f (filter g l) = filter (fun x => g x && f x) l.
Proof.
  induction l as [|a l IH]; cbn [filter]; [reflexivity|].
  destruct (g a); cbn [filter andb]; [destruct (f a)|]; rewrite IH; reflexivity.
Qed.

(** ** Broadcast: what it leaves alone *)

Section BroadcastFacts.
Context {rt : JsRuntime}.

Lemma deliver_core payload e w : core (deliver payload e w) = core w.
Proof.
  destruct e as [id ws]. unfold deliver.
  destruct (readyState ws =? 1); [destruct (sendThrows ws)|]; reflexivity.
Qed.

Lemma forEach_deliver_core payload es w :
  core (forEach_deliver payload es w) = core w.
Proof.
  revert w. induction es as [|e es IH]; intros w; cbn [forEach_deliver].
  - reflexivity.
  - rewrite IH. apply deliver_core.
Qed.

Lemma store_message_messages message now w :
  messages (appState (store_message message now w)) =
  if stored_type (type message)
  then slice_last 50 (messages (appState w) ++ [record_at message now w])
  else messages (appState w).
Proof.
  unfold store_message. destruct (stored_type (type message)); [|reflexivity].
  unfold Math_random. cbv beta iota zeta.
  cbn [appState set_rngPos upd_app messages set_messages].
  fold (record_at message now w).
  destruct (Nat.ltb_spec 50 (List.length (messages (appState w) ++ [record_at message now w]))).
  - reflexivity.
  - symmetry. apply slice_last_short. lia.
Qed.

Lemma store_message_rng message now w :
  rng (store_message message now w) = rng w /\
  rngPos (store_message message now w) =
  if stored_type (type message) then S (rngPos w) else rngPos w.
Proof.
  unfold store_message. destruct (stored_type (type message)); split; reflexivity.
Qed.

Lemma store_message_rest message now w :
  let w' := store_message message now w in
  clients (appState w') = clients (appState w) /\
  currentStream (appState w') = currentStream (appState w) /\
  streamStatus (appState w') = streamStatus (appState w) /\
  llmBot (appState w') = llmBot (appState w) /\
  frameStreamer (appState w') = frameStreamer (appState w) /\
  lastFrameTime (appState w') = lastFrameTime (appState w) /\
  generationInProgress (appState w') = generationInProgress (appState w) /\
  videoGenerator w' = videoGenerator w /\ heap w' = heap w /\
  timers w' = timers w /\ nextTimer w' = nextTimer w /\
  inflight w' = inflight w /\ trace w' = trace w /\ logs w' = logs w.
Proof.
  unfold store_message. destruct (stored_type (type message)); cbn; repeat split; reflexivity.
Qed.

Lemma broadcast_core message now w :
  core (broadcast message now w) = core (store_message message now w).
Proof. unfold broadcast. rewrite forEach_deliver_core. reflexivity. Qed.

End BroadcastFacts.

(** ** History *)

Section History.
Context {rt : JsRuntime}.

Lemma broadcast_messages m now w :
  messages (appState (broadcast m now w)) =
  if stored_type (type m)
  then slice_last 50 (messages (appState w) ++ [record_at m now w])
  else messages (appState w).
Proof.
  pose proof (broadcast_core m now w) as H. unfold core in H.
  rewrite <- store_message_messages.
  injection H; intros; assumption.
Qed.

Lemma broadcast_rng m now w :
  rng (broadcast m now w) = rng w /\
  rngPos (broadcast m now w) =
  if stored_type (type m) then S (rngPos w) else rngPos w.
Proof.
  pose proof (broadcast_core m now w) as H. unfold core in H.
  destruct (store_message_rng m now w) as [Hr Hp].
  injection H; intros; split; congruence.
Qed.

Lemma broadcasts_messages bs : forall w,
  messages (appState (broadcasts bs w)) =
  match records (rng w) (rngPos w) bs with
  | [] => messages (appState w)
  | rs => slice_last 50 (messages (appState w) ++ rs)
  end.
Proof.
  induction bs as [|[m now] bs IH]; intros w; cbn [broadcasts records].
  - reflexivity.
  - rewrite IH.
    destruct (broadcast_rng m now w) as [Hr Hp]. rewrite Hr, Hp.
    rewrite broadcast_messages.
    destruct (stored_type (type m)).
    + fold (record_at m now w).
      destruct (records (rng w) (S (rngPos w)) bs) as [|r rs].
      * reflexivity.
      * rewrite slice_last_absorb, <- app_assoc. reflexivity.
    + reflexivity.
Qed.

Lemma records_view draws bs : forall pos,
  map (fun r => (rec_type r, rec_content r, rec_timestamp r)) (records draws pos bs) =
  map (fun b => (type (fst b), content (fst b), snd b))
      (filter (fun b => stored_type (type (fst b))) bs).
Proof.
  induction bs as [|[m now] bs IH]; intros pos; cbn [records map filter fst].
  - reflexivity.
  - destruct (stored_type (type m)).
    + cbn [map rec_type rec_content rec_timestamp fst snd]. rewrite IH. reflexivity.
    + apply IH.
Qed.

Lemma map_slice_last {A B} (f : A -> B) n (l : list A) :
  map f (slice_last n l) = slice_last n (map f l).
Proof. unfold slice_last. rewrite length_map. symmetry. apply skipn_map. Qed.

(** C6. After any run of broadcasts the history holds at most 50
    records, and it is the last 50 of the records it held followed
    by those of the eligible broadcasts of the run, in the order of
    the calls, whatever broadcasts of other types came in between.
    So once more than 50 eligible events were broadcast it holds
    exactly the last 50 of them. *)
Theorem history_bound (bs : list (Message * Z)) (w : World) :
  (List.length (messages (appState w)) <= 50)%nat ->
  let h := messages (appState (broadcasts bs w)) in
  let eligible := filter (fun b => stored_type (type (fst b))) bs in
  let view := fun r => (rec_type r, rec_content r, rec_timestamp r) in
  let sent := fun b : Message * Z => (type (fst b), content (fst b), snd b) in
  (List.length h <= 50)%nat /\
  map view h = slice_last 50 (map view (messages (appState w)) ++ map sent eligible) /\
  ((50 < List.length eligible)%nat ->
   List.length h = 50%nat /\ map view h = slice_last 50 (map sent eligible)).
Proof.
  intros Hw h eligible view sent. subst h eligible view sent.
  rewrite broadcasts_messages.
  pose proof (records_view (rng w) bs (rngPos w)) as Hview.
  assert (Hn : List.length (records (rng w) (rngPos w) bs) =
               List.length (filter (fun b => stored_type (type (fst b))) bs)).
  { erewrite <- length_map, Hview. apply length_map. }
  rewrite <- Hview.
  destruct (records (rng w) (rngPos w) bs) as [|r rs] eqn:E.
  - split; [assumption|]. split.
    + cbn [map]. rewrite app_nil_r, slice_last_short by (rewrite length_map; exact Hw).
      reflexivity.
    + cbn [List.length] in Hn. intros Hlen. rewrite <- Hn in Hlen. inversion Hlen.
  - split; [rewrite slice_last_length; lia|]. split.
    + rewrite map_slice_last, map_app. reflexivity.
    + intros Hlen. rewrite <- Hn in Hlen. rewrite slice_last_app by exact (Nat.lt_le_incl _ _ Hlen).
      split; [rewrite slice_last_length; lia|apply map_slice_last].
Qed.

End History.

Lemma history_bound_witness :
  let h := messages (appState (@broadcasts example_runtime thoughts_and_frames
                                 (initial (fun _ => 0%N)))) in
  List.length thoughts_and_frames = 102%nat /\
  List.length h = 50%nat /\
  map (fun r => (rec_type r, rec_content r, rec_timestamp r)) h =
  slice_last 50 (map (fun b => (type (fst b), content (fst b), snd b)) fifty_one).
Proof.
  assert (E : filter (fun b => stored_type (type (fst b))) thoughts_and_frames = fifty_one)
    by (vm_compute; reflexivity).
  destruct (@history_bound example_runtime thoughts_and_frames (initial (fun _ => 0%N)))
    as (_ & _ & H).
  - cbn. lia.
  - rewrite E in H. split; [vm_compute; reflexivity|]. apply H. vm_compute. lia.
Defined.

(** ** Delivery *)

Section Delivery.
Context {rt : JsRuntime}.

Lemma deliver_trace payload e w :
  trace (deliver payload e w) =
  (trace w ++ if is_open e then [attempt payload e] else [])%list.
Proof.
  destruct e as [id ws]. unfold deliver, is_open, attempt. cbn [fst snd].
  destruct (readyState ws =? 1); [destruct (sendThrows ws)|]; cbn;
    try reflexivity.
  symmetry. apply app_nil_r.
Qed.

Lemma forEach_deliver_trace payload es : forall w,
  trace (forEach_deliver payload es w) =
  (trace w ++ map (attempt payload) (filter is_open es))%list.
Proof.
  induction es as [|e es IH]; intros w; cbn [forEach_deliver filter map].
  - symmetry. apply app_nil_r.
  - rewrite IH, deliver_trace.
    destruct (is_open e); cbn [map]; rewrite <- app_assoc; reflexivity.
Qed.

Lemma deliver_clients payload e w :
  clients (appState (deliver payload e w)) =
  if is_open e && sendThrows (snd e)
  then Map_delete (fst e) (clients (appState w))
  else clients (appState w).
Proof.
  destruct e as [id ws]. unfold deliver, is_open. cbn [fst snd].
  destruct (readyState ws =? 1); [destruct (sendThrows ws)|]; reflexivity.
Qed.

Lemma forEach_deliver_clients payload es : forall w,
  clients (appState (forEach_deliver payload es w)) =
  filter (fun c => negb (dropped es c)) (clients (appState w)).
Proof.
  induction es as [|e es IH]; intros w; cbn [forEach_deliver].
  - unfold dropped. cbn [existsb negb].
    induction (clients (appState w)) as [|a l IHl]; cbn [filter]; congruence.
  - rewrite IH, deliver_clients. unfold dropped at 2. cbn [existsb].
    fold (dropped es).
    destruct (is_open e && sendThrows (snd e)); cbn [andb orb].
    + unfold Map_delete. rewrite filter_filter_and.
      apply filter_ext. intros c. rewrite negb_orb. reflexivity.
    + reflexivity.
Qed.

Lemma dropped_absent es c :
  ~ In (fst c) (map fst es) -> dropped es c = false.
Proof.
  unfold dropped. induction es as [|e es IH]; intros H; cbn [existsb].
  - reflexivity.
  - cbn [map] in H. rewrite IH by (intros X; apply H; right; exact X).
    destruct (String.eqb_spec (fst c) (fst e)) as [E|E].
    + exfalso. apply H. left. symmetry. exact E.
    + rewrite andb_false_r. reflexivity.
Qed.

Lemma dropped_own es : NoDup (map fst es) ->
  forall c, In c es -> dropped es c = is_open c && sendThrows (snd c).
Proof.
  induction es as [|e es IH]; intros Hnd c Hin; [destruct Hin|].
  cbn [map] in Hnd. inversion Hnd as [|k ks Hk Hks]; subst.
  unfold dropped. cbn [existsb]. fold (dropped es c).
  destruct Hin as [-> | Hin].
  - rewrite String.eqb_refl, andb_true_r.
    rewrite dropped_absent by assumption. apply orb_false_r.
  - rewrite IH by assumption.
    destruct (String.eqb_spec (fst c) (fst e)) as [E|E].
    + exfalso. apply Hk. rewrite <- E. apply in_map. exact Hin.
    + rewrite andb_false_r. reflexivity.
Qed.

Lemma broadcast_trace m now w :
  trace (broadcast m now w) =
  (trace w ++ CStringify m ::
     map (attempt (JSON_stringify m)) (filter is_open (clients (appState w))))%list.
Proof.
  unfold broadcast. rewrite forEach_deliver_trace.
  destruct (store_message_rest m now w) as (Hc & _ & _ & _ & _ & _ & _ & _ & _ & _ & _ & _ & Ht & _).
  cbn [call trace appState]. rewrite Hc, Ht, <- app_assoc. reflexivity.
Qed.

Lemma broadcast_clients m now w :
  clients (appState (broadcast m now w)) =
  filter (fun c => negb (dropped (clients (appState w)) c)) (clients (appState w)).
Proof.
  unfold broadcast. rewrite forEach_deliver_clients.
  destruct (store_message_rest m now w) as (Hc & _).
  cbn [call appState]. rewrite Hc. reflexivity.
Qed.

(** C5, as the code has it.  A broadcast serialises the message once;
    it walks the registry in order and calls [send], with that one
    text, on exactly the sockets that are open, whether or not an
    earlier [send] threw; the sockets whose [send] threw are deleted,
    and every other entry, a closed socket included, stays. *)
Theorem broadcast_isolation (m : Message) (now : Z) (w : World) :
  NoDup (map fst (clients (appState w))) ->
  let w' := broadcast m now w in
  trace w' =
    (trace w ++ CStringify m ::
       map (attempt (JSON_stringify m)) (filter is_open (clients (appState w))))%list /\
  clients (appState w') =
    filter (fun e => negb (is_open e && sendThrows (snd e))) (clients (appState w)).
Proof.
  intros Hnd w'. subst w'. split.
  - apply broadcast_trace.
  - rewrite broadcast_clients. apply filter_ext_in.
    intros c Hc. rewrite (dropped_own _ Hnd c Hc). reflexivity.
Qed.

End Delivery.

Lemma broadcast_isolation_witness :
  let m := {| type := "thought"; content := Some "hi"; timestamp := Some 5; data := None |} in
  let w' := @broadcast example_runtime m 5 three_clients in
  trace w' =
    (trace three_clients ++
     [CStringify m; CSend "a" "thought:hi"; CSend "c" "thought:hi"])%list /\
  clients (appState w') = [("a", open_client); ("c", open_client); ("d", closed_client)].
Proof.
  intros m w'.
  destruct (@broadcast_isolation example_runtime m 5 three_clients) as [Ht Hc].
  - vm_compute. repeat constructor; cbn; intuition congruence.
  - subst w'. split; [rewrite Ht | rewrite Hc]; reflexivity.
Defined.

(** C5 as stated fails: a subscriber whose transport reports that it
    is closing, or closed, is still registered after the broadcast. *)
Lemma closed_subscriber_not_removed :
  let w := after [(0, EvConnection "a" open_client);
                  (1, EvConnection "b" open_client);
                  (2, EvTransport "a" closing_client);
                  (3, EvTransport "b" closed_client)] in
  let w' := @broadcast example_runtime
              {| type := "thought"; content := Some "hi"; timestamp := Some 5; data := None |}
              5 w in
  clients (appState w) = [("a", closing_client); ("b", closed_client)] /\
  clients (appState w') = [("a", closing_client); ("b", closed_client)].
Proof. vm_compute. split; reflexivity. Qed.

(** ** Reading fields through the handlers *)

Ltac fields :=
  cbn [appState videoGenerator heap timers nextTimer inflight rng rngPos trace logs
       clients messages currentStream streamStatus llmBot frameStreamer lastFrameTime
       generationInProgress currentStreamId whepConnection generationTimeout
       hasFrames frameCount currentFrame currentThought lastPrompt cycleInterval
       upd_app upd_gen upd_streamer upd_bot set_heap set_timers set_inflight set_rngPos
       clearTimeout
       call logger set_clients set_messages set_currentStream set_streamStatus set_llmBot
       set_frameStreamer set_lastFrameTime set_generationInProgress set_currentStreamId
       set_whepConnection set_generationTimeout set_hasFrames set_frameCount
       set_currentFrame set_currentThought set_lastPrompt set_cycleInterval
       fst snd].

Tactic Notation "fields" "in" hyp(H) :=
  cbn [appState videoGenerator heap timers nextTimer inflight rng rngPos trace logs
       clients messages currentStream streamStatus llmBot frameStreamer lastFrameTime
       generationInProgress currentStreamId whepConnection generationTimeout
       hasFrames frameCount currentFrame currentThought lastPrompt cycleInterval
       upd_app upd_gen upd_streamer upd_bot set_heap set_timers set_inflight set_rngPos
       clearTimeout
       call logger set_clients set_messages set_currentStream set_streamStatus set_llmBot
       set_frameStreamer set_lastFrameTime set_generationInProgress set_currentStreamId
       set_whepConnection set_generationTimeout set_hasFrames set_frameCount
       set_currentFrame set_currentThought set_lastPrompt set_cycleInterval
       fst snd] in H.

Section BroadcastFields.
Context {rt : JsRuntime}.

Lemma broadcast_keeps m now w :
  let w' := broadcast m now w in
  currentStream (appState w') = currentStream (appState w) /\
  streamStatus (appState w') = streamStatus (appState w) /\
  llmBot (appState w') = llmBot (appState w) /\
  frameStreamer (appState w') = frameStreamer (appState w) /\
  lastFrameTime (appState w') = lastFrameTime (appState w) /\
  generationInProgress (appState w') = generationInProgress (appState w) /\
  videoGenerator w' = videoGenerator w /\ heap w' = heap w /\
  timers w' = timers w /\ nextTimer w' = nextTimer w /\
  inflight w' = inflight w /\ rng w' = rng w.
Proof.
  intros w'. subst w'.
  pose proof (broadcast_core m now w) as H. unfold core in H.
  pose proof (store_message_rest m now w) as R. cbv zeta in R.
  destruct (store_message_rng m now w) as [Hr _].
  injection H; intros. intuition congruence.
Qed.

Lemma broadcast_currentStream m now w :
  currentStream (appState (broadcast m now w)) = currentStream (appState w).
Proof. apply (broadcast_keeps m now w). Qed.

Lemma broadcast_streamStatus m now w :
  streamStatus (appState (broadcast m now w)) = streamStatus (appState w).
Proof. apply (broadcast_keeps m now w). Qed.

Lemma broadcast_llmBot m now w :
  llmBot (appState (broadcast m now w)) = llmBot (appState w).
Proof. apply (broadcast_keeps m now w). Qed.

Lemma broadcast_frameStreamer m now w :
  frameStreamer (appState (broadcast m now w)) = frameStreamer (appState w).
Proof. apply (broadcast_keeps m now w). Qed.

Lemma broadcast_lastFrameTime m now w :
  lastFrameTime (appState (broadcast m now w)) = lastFrameTime (appState w).
Proof. apply (broadcast_keeps m now w). Qed.

Lemma broadcast_generationInProgress m now w :
  generationInProgress (appState (broadcast m now w)) = generationInProgress (appState w).
Proof. apply (broadcast_keeps m now w). Qed.

Lemma broadcast_videoGenerator m now w :
  videoGenerator (broadcast m now w) = videoGenerator w.
Proof. apply (broadcast_keeps m now w). Qed.

Lemma broadcast_heap m now w : heap (broadcast m now w) = heap w.
Proof. apply (broadcast_keeps m now w). Qed.

Lemma broadcast_timers m now w : timers (broadcast m now w) = timers w.
Proof. apply (broadcast_keeps m now w). Qed.

Lemma broadcast_nextTimer m now w : nextTimer (broadcast m now w) = nextTimer w.
Proof. apply (broadcast_keeps m now w). Qed.

Lemma broadcast_inflight m now w : inflight (broadcast m now w) = inflight w.
Proof. apply (broadcast_keeps m now w). Qed.

End BroadcastFields.

Create Rewrite HintDb through.

#[export] Hint Rewrite
  @broadcast_currentStream @broadcast_streamStatus @broadcast_llmBot
  @broadcast_frameStreamer @broadcast_lastFrameTime @broadcast_generationInProgress
  @broadcast_videoGenerator @broadcast_heap @broadcast_timers @broadcast_nextTimer
  @broadcast_inflight @broadcast_trace : through.

Ltac through := repeat (fields; autorewrite with through); fields.

(** ** Liveness *)

Section Liveness.
Context {rt : JsRuntime}.

Lemma hasActiveFrames_spec now w :
  hasFrames (frameStreamer (appState w)) = true ->
  (hasActiveFrames now w = true <-> now - lastFrameTime (appState w) < 5000).
Proof.
  intros H. unfold hasActiveFrames. rewrite H. cbn [andb]. apply Z.ltb_lt.
Qed.

Lemma processIncomingFrame_bookkeeping frameData T w :
  currentStream (appState w) <> None ->
  let w' := processIncomingFrame frameData T w in
  hasFrames (frameStreamer (appState w')) = true /\ lastFrameTime (appState w') = T.
Proof.
  intros Hcs w'. subst w'. unfold processIncomingFrame.
  destruct (currentStream (appState w)) as [cs|]; [|congruence].
  destruct (fd_data frameData) as [[|a b]|]; through; split; reflexivity.
Qed.

(** C9. Once a frame of a session has been recorded at time [T], the
    streamer is live at [now] exactly when [now - T < 5000]; at
    [T + 5000] it is not. *)
Theorem liveness_threshold (frameData : FrameData) (T now : Z) (w : World) :
  currentStream (appState w) <> None ->
  let w' := processIncomingFrame frameData T w in
  (hasActiveFrames now w' = true <-> now - T < 5000) /\
  (hasActiveFrames now w' = false <-> 5000 <= now - T) /\
  hasActiveFrames (T + 5000) w' = false /\
  hasActiveFrames (T + 4999) w' = true.
Proof.
  intros Hcs w'.
  destruct (processIncomingFrame_bookkeeping frameData T w Hcs) as [Hf Ht].
  fold w' in Hf, Ht.
  unfold hasActiveFrames. rewrite Hf, Ht. cbn [andb].
  repeat split; try (intros H; apply Z.ltb_lt; exact H);
    try (intros H; apply Z.ltb_lt in H; exact H);
    try (intros H; apply Z.ltb_ge; exact H);
    try (intros H; apply Z.ltb_ge in H; exact H).
  - apply Z.ltb_ge. lia.
  - apply Z.ltb_lt. lia.
Qed.

End Liveness.

Lemma liveness_threshold_witness :
  let w' := @processIncomingFrame example_runtime a_frame 1000 active_stream in
  (@hasActiveFrames 5999 w' = true <-> 5999 - 1000 < 5000) /\
  (@hasActiveFrames 5999 w' = false <-> 5000 <= 5999 - 1000) /\
  @hasActiveFrames (1000 + 5000) w' = false /\
  @hasActiveFrames (1000 + 4999) w' = true.
Proof.
  apply (@liveness_threshold example_runtime a_frame 1000 5999 active_stream).
  vm_compute. discriminate.
Defined.

(** ** Client messages *)

Section ClientMessages.
Context {rt : JsRuntime}.

(** C10. A message whose text [JSON.parse] rejects changes nothing
    but the log: the registry, the stream state, the generator, the
    timers and the calls made are as before, and one error line is
    logged. *)
Theorem malformed_message_inert (clientId payload : string) (now : Z) (w : World) :
  JSON_parse payload = None ->
  let w' := on_message clientId payload now w in
  appState w' = appState w /\ videoGenerator w' = videoGenerator w /\
  heap w' = heap w /\ timers w' = timers w /\ nextTimer w' = nextTimer w /\
  inflight w' = inflight w /\ trace w' = trace w /\
  logs w' = (logs w ++ [(LError, "Error parsing client message:")])%list.
Proof.
  intros H w'. subst w'. unfold on_message. rewrite H.
  repeat split; reflexivity.
Qed.

End ClientMessages.

Lemma malformed_message_inert_witness :
  let w := three_clients in
  let w' := @on_message example_runtime "a" "{type: oops" 9 w in
  appState w' = appState w /\ videoGenerator w' = videoGenerator w /\
  heap w' = heap w /\ timers w' = timers w /\ nextTimer w' = nextTimer w /\
  inflight w' = inflight w /\ trace w' = trace w /\
  logs w' = (logs w ++ [(LError, "Error parsing client message:")])%list.
Proof.
  apply (@malformed_message_inert example_runtime "a" "{type: oops" 9 three_clients).
  reflexivity.
Defined.

(** ** Connectivity callbacks *)

Lemma observe_callbacks states : forall c,
  onConnect c = true -> onDisconnect c = true ->
  snd (observe states c) = flat_map fired states.
Proof.
  induction states as [|st states IH]; intros c Hc Hd; cbn [observe flat_map].
  - reflexivity.
  - destruct (oniceconnectionstatechange st c) as [c1 out1] eqn:E1.
    destruct (observe states c1) as [c2 out2] eqn:E2.
    cbn [snd].
    assert (Hout : out1 = fired st /\ onConnect c1 = true /\ onDisconnect c1 = true).
    { unfold oniceconnectionstatechange in E1.
      destruct st; rewrite ?Hc, ?Hd in E1; injection E1 as <- <-;
        repeat split; assumption || reflexivity. }
    destruct Hout as (-> & Hc1 & Hd1).
    specialize (IH c1 Hc1 Hd1). rewrite E2 in IH. cbn [snd] in IH.
    rewrite IH. reflexivity.
Qed.

Lemma count_fired_connect states :
  List.length (filter is_OnConnect (flat_map fired states)) =
  List.length (filter connected_family states).
Proof.
  induction states as [|st states IH]; cbn [flat_map filter]; [reflexivity|].
  rewrite filter_app, length_app, IH. destruct st; reflexivity.
Qed.

Lemma count_fired_disconnect states :
  List.length (filter is_OnDisconnect (flat_map fired states)) =
  List.length (filter disconnected_family states).
Proof.
  induction states as [|st states IH]; cbn [flat_map filter]; [reflexivity|].
  rewrite filter_app, length_app, IH. destruct st; reflexivity.
Qed.

(** C8, as the code has it.  With both callbacks assigned, the
    handler calls [onConnect] once at every state change whose new
    state is connected or completed, and [onDisconnect(state)] once
    at every state change whose new state is disconnected, failed or
    closed, whatever the state before; it sets the flag at the
    former and clears it at the latter, and never reads it, so a
    connected state after a disconnect calls [onConnect] again. *)
Theorem connectivity_callbacks (states : list IceState) (c : WHEPClient) :
  onConnect c = true -> onDisconnect c = true ->
  snd (observe states c) = flat_map fired states /\
  List.length (filter is_OnConnect (snd (observe states c))) =
    List.length (filter connected_family states) /\
  List.length (filter is_OnDisconnect (snd (observe states c))) =
    List.length (filter disconnected_family states) /\
  (forall st, connected_family st = true ->
     isConnected (fst (oniceconnectionstatechange st c)) = true) /\
  (forall st, disconnected_family st = true ->
     isConnected (fst (oniceconnectionstatechange st c)) = false) /\
  (forall st, disconnected_family st = true ->
     snd (oniceconnectionstatechange IceConnected (fst (oniceconnectionstatechange st c)))
     = [OnConnect]).
Proof.
  intros Hc Hd. rewrite (observe_callbacks states c Hc Hd).
  split; [reflexivity|]. split; [apply count_fired_connect|].
  split; [apply count_fired_disconnect|].
  repeat split; intros st H; destruct st; try discriminate H; cbn; try reflexivity;
    rewrite Hc; reflexivity.
Qed.

Lemma connectivity_callbacks_witness :
  snd (observe [IceChecking; IceConnected; IceDisconnected; IceConnected] wired_client)
  = [OnConnect; OnDisconnect IceDisconnected; OnConnect].
Proof.
  destruct (connectivity_callbacks
              [IceChecking; IceConnected; IceDisconnected; IceConnected] wired_client)
    as [H _]; [reflexivity | reflexivity |].
  rewrite H. reflexivity.
Defined.

(** C8 as stated fails: one handshake that passes through connected
    and completed enters the family once and calls [onConnect] twice;
    a connection that passes through disconnected and failed enters
    the other family once and calls [onDisconnect] twice. *)
Lemma onConnect_once_per_state :
  let up := [IceChecking; IceConnected; IceCompleted] in
  let down := [IceDisconnected; IceFailed] in
  spec_entries connected_family false up = 1%nat /\
  List.length (filter is_OnConnect (snd (observe up wired_client))) = 2%nat /\
  spec_entries disconnected_family false down = 1%nat /\
  List.length (filter is_OnDisconnect (snd (observe down wired_client))) = 2%nat.
Proof. repeat split; reflexivity. Qed.

(** ** Single flight *)

Section Orchestrator.
Context {rt : JsRuntime}.

Lemma unchanged_refl w : unchanged w w.
Proof. repeat split. Qed.

Lemma unchanged_trans w1 w2 w3 : unchanged w1 w2 -> unchanged w2 w3 -> unchanged w1 w3.
Proof. unfold unchanged. intuition congruence. Qed.

Lemma requestGeneration_skipped prompt now w :
  generationInProgress (appState w) = true ->
  requestGeneration prompt now w = logger LInfo "Generation already in progress, skipping" w.
Proof. intros H. unfold requestGeneration. rewrite H. reflexivity. Qed.

Lemma requestGeneration_accepted prompt now w :
  generationInProgress (appState w) = false ->
  let w1 := requestGeneration prompt now w in
  generationInProgress (appState w1) = true /\
  streamStatus (appState w1) = Starting /\
  inflight w1 = S (inflight w) /\
  trace w1 = (trace w ++
              one_broadcast
                (status_message ("Starting video generation: " ++ dquote ++ prompt ++ dquote) now)
                (clients (appState w)) ++ [CFetchStart prompt])%list /\
  timers w1 = timers w /\ nextTimer w1 = nextTimer w /\
  videoGenerator w1 = videoGenerator w /\ heap w1 = heap w /\
  currentStream (appState w1) = currentStream (appState w).
Proof.
  intros H w1. subst w1. unfold requestGeneration. rewrite H. unfold one_broadcast.
  through. rewrite <- app_assoc. repeat split; reflexivity.
Qed.

Lemma requests_skipped later : forall w,
  generationInProgress (appState w) = true -> unchanged w (requests later w).
Proof.
  induction later as [|[p now] later IH]; intros w H; cbn [requests].
  - apply unchanged_refl.
  - rewrite requestGeneration_skipped by assumption.
    apply unchanged_trans with (w2 := logger LInfo "Generation already in progress, skipping" w).
    + repeat split.
    + apply IH. exact H.
Qed.

Lemma start_calls_broadcast m cs :
  filter (fun c => match c with CFetchStart _ => true | _ => false end)
         (one_broadcast m cs) = [].
Proof.
  unfold one_broadcast. cbn [filter].
  induction (filter is_open cs) as [|e l IHl]; [reflexivity|].
  cbn [map filter]. unfold attempt at 1. destruct (sendThrows (snd e)); exact IHl.
Qed.

Lemma start_calls_accepted prompt now w :
  generationInProgress (appState w) = false ->
  start_calls (requestGeneration prompt now w) = (start_calls w ++ [CFetchStart prompt])%list.
Proof.
  intros H.
  destruct (requestGeneration_accepted prompt now w H) as (_ & _ & _ & Ht & _).
  unfold start_calls. rewrite Ht, !filter_app, start_calls_broadcast. reflexivity.
Qed.

End Orchestrator.

(** ** Start of the signalling connection *)

Lemma heap_set_end (h : list WHEPClient) (c c' : WHEPClient) :
  heap_set (List.length h) c' (h ++ [c]) = (h ++ [c'])%list.
Proof. induction h as [|x h IH]; cbn; [reflexivity|]. rewrite IH. reflexivity. Qed.

Lemma nth_error_end {A} (h : list A) (c : A) :
  nth_error (h ++ [c]) (List.length h) = Some c.
Proof. induction h as [|x h IH]; cbn; [reflexivity|exact IH]. Qed.

Section Signalling.
Context {rt : JsRuntime}.

Lemma startWhepConnection_spec url w :
  let w' := startWhepConnection url w in
  heap w' = (heap w ++ [connecting_client url])%list /\
  videoGenerator w' = set_whepConnection (Some (List.length (heap w))) (videoGenerator w) /\
  trace w' = (trace w ++ [CWhepConnect (List.length (heap w)) url])%list /\
  appState w' = appState w /\ timers w' = timers w /\ nextTimer w' = nextTimer w /\
  inflight w' = inflight w.
Proof.
  intros w'. subst w'. unfold startWhepConnection, connect. fields.
  rewrite nth_error_end. unfold upd_client. fields.
  rewrite nth_error_end, heap_set_end. fields. repeat split; reflexivity.
Qed.

Lemma requestGeneration_resume_ok stream_id whep_url now w :
  let w' := requestGeneration_resume (ResponseOk stream_id whep_url) now w in
  let i := List.length (heap w) in
  currentStreamId (videoGenerator w') = stream_id /\
  whepConnection (videoGenerator w') = Some i /\
  generationTimeout (videoGenerator w') = generationTimeout (videoGenerator w) /\
  heap w' = (heap w ++ [connecting_client whep_url])%list /\
  trace w' = (trace w ++
              one_broadcast
                (status_message ("Video generation initiated. Stream ID: " ++ show stream_id) now)
                (clients (appState w)) ++ [CWhepConnect i whep_url])%list /\
  streamStatus (appState w') = streamStatus (appState w) /\
  generationInProgress (appState w') = generationInProgress (appState w) /\
  currentStream (appState w') = currentStream (appState w) /\
  timers w' = timers w /\ nextTimer w' = nextTimer w.
Proof.
  intros w' i. subst w' i. unfold requestGeneration_resume.
  match goal with |- context [startWhepConnection ?u ?x] =>
    destruct (startWhepConnection_spec u x) as (Hh & Hg & Ht & Ha & Hti & Hn & _)
  end.
  rewrite Hh, Hg, Ht, Ha, Hti, Hn. unfold one_broadcast. through.
  rewrite <- app_assoc. repeat split; reflexivity.
Qed.

Lemma requestGeneration_connected_ok i c now w :
  nth_error (heap w) i = Some c ->
  let w' := requestGeneration_connected i WhepOk now w in
  timers w' = (timers w ++ [timeout_timer (nextTimer w) now])%list /\
  generationTimeout (videoGenerator w') = Some (nextTimer w) /\
  appState w' = appState w /\ trace w' = trace w.
Proof.
  intros H w'. subst w'. unfold requestGeneration_connected, upd_client. rewrite H.
  unfold setTimeout, timeout_timer. fields. repeat split; reflexivity.
Qed.

Lemma handleGenerationTimeout_spec now w :
  let w' := handleGenerationTimeout now w in
  streamStatus (appState w') = Idle /\
  generationInProgress (appState w') = false /\
  currentStreamId (videoGenerator w') = None /\
  currentStream (appState w') = currentStream (appState w) /\
  trace w' = (trace w ++
              one_broadcast
                (error_message "Video generation timeout - retrying with adjusted parameters" now)
                (clients (appState w)))%list.
Proof.
  intros w'. subst w'.
  unfold handleGenerationTimeout, handleGenerationTimeout_statements, run_statements, one_broadcast.
  cbn [fold_left]. through.
  repeat split; reflexivity.
Qed.

Lemma clearTimeout_fields h w :
  appState (clearTimeout h w) = appState w /\
  videoGenerator (clearTimeout h w) = videoGenerator w /\
  heap (clearTimeout h w) = heap w /\ trace (clearTimeout h w) = trace w /\
  inflight (clearTimeout h w) = inflight w.
Proof. repeat split. Qed.

Lemma disconnect_fields i w :
  appState (disconnect i w) = appState w /\
  videoGenerator (disconnect i w) = videoGenerator w /\
  timers (disconnect i w) = timers w /\ nextTimer (disconnect i w) = nextTimer w /\
  inflight (disconnect i w) = inflight w /\
  List.length (heap (disconnect i w)) = List.length (heap w).
Proof.
  assert (Hlen : forall k (c : WHEPClient) h, List.length (heap_set k c h) = List.length h).
  { intros k c h. revert k. induction h as [|x h IH]; intros [|k]; cbn; auto. }
  unfold disconnect. destruct (nth_error (heap w) i) as [c|] eqn:E; [|repeat split].
  destruct (peerConnection c); unfold upd_client; fields; rewrite ?E; fields.
  - destruct (nth_error (heap_set i (set_peerConnection false c) (heap w)) i);
      fields; rewrite ?Hlen; repeat split; reflexivity.
  - rewrite ?Hlen. repeat split; reflexivity.
Qed.

Lemma stopCurrentGeneration_spec w :
  let w' := stopCurrentGeneration w in
  streamStatus (appState w') = Idle /\
  currentStream (appState w') = None /\
  generationInProgress (appState w') = false /\
  hasFrames (frameStreamer (appState w')) = false /\
  videoGenerator w' =
    {| currentStreamId := None; whepConnection := None; generationTimeout := None |} /\
  clients (appState w') = clients (appState w) /\
  inflight w' = inflight w /\
  List.length (heap w') = List.length (heap w) /\
  (forall h, generationTimeout (videoGenerator w) = Some h -> find_timer h w' = None).
Proof.
  intros w'. subst w'. unfold stopCurrentGeneration, stopReceiving.
  assert (Hclear : forall h l, find (fun t => Nat.eqb (t_id t) h)
                     (filter (fun t => negb (Nat.eqb (t_id t) h)) l) = None).
  { intros h l. induction l as [|t l IHl]; [reflexivity|]. cbn [filter].
    destruct (Nat.eqb (t_id t) h) eqn:E; cbn [negb find]; [exact IHl|].
    rewrite E. exact IHl. }
  destruct (generationTimeout (videoGenerator w)) as [h|] eqn:Eh;
    fields; (destruct (whepConnection (videoGenerator w)) as [i|] eqn:Ei; fields);
    try match goal with |- context [disconnect i ?x] =>
      destruct (disconnect_fields i x) as (Ha & Hg & Ht & _ & Hi & Hl);
      fields in Ha; fields in Hg; fields in Ht; fields in Hi; fields in Hl;
      rewrite ?Ha, ?Hg, ?Hi, ?Hl
    end;
    fields; rewrite ?Eh; repeat split; try reflexivity;
    try (intros h' [=]; fail).
  all: try (intros h' [= <-]; unfold find_timer; fields; rewrite ?Ht; apply Hclear).
  all: unfold set_currentStreamId, set_generationTimeout, set_whepConnection; fields;
    rewrite ?Eh, ?Ei; reflexivity.
Qed.

End Signalling.

(** ** Stop during the start call *)

Section LateResponse.
Context {rt : JsRuntime}.


End LateResponse.


(** ** Timeout *)

Section Timeout.
Context {rt : JsRuntime}.

Lemma requestGeneration_timers prompt now w :
  timers (requestGeneration prompt now w) = timers w.
Proof.
  destruct (generationInProgress (appState w)) eqn:E.
  - rewrite requestGeneration_skipped by assumption. reflexivity.
  - apply (requestGeneration_accepted prompt now w E).
Qed.

Lemma last_default {A} (x : A) (l : list A) (d d' : A) :
  last (x :: l) d = last (x :: l) d'.
Proof.
  revert x. induction l as [|y l IH]; intros x; [reflexivity|].
  cbn [last]. apply IH.
Qed.

Lemma states_passed_last body : forall w,
  last (states_passed body w) w = run_statements body w.
Proof.
  induction body as [|statement body IH]; intros w; [reflexivity|].
  cbn [states_passed]. unfold run_statements. cbn [fold_left].
  fold (run_statements body (statement w)). rewrite <- IH.
  destruct body as [|next body]; cbn [states_passed]; [reflexivity|].
  exact (last_default (statement w) _ w (statement w)).
Qed.

Lemma handleGenerationTimeout_statuses now w :
  map (fun x => streamStatus (appState x))
      (states_passed (handleGenerationTimeout_statements now) w)
  = [streamStatus (appState w); streamStatus (appState w); streamStatus (appState w);
     Idle; Idle; Idle].
Proof.
  unfold handleGenerationTimeout_statements. cbn [states_passed map].
  rewrite broadcast_streamStatus. reflexivity.
Qed.

(** C3, as the code has it.  No timer is armed on entering Starting:
    the timer is armed, for 10000 ms, when the handshake call of the
    signalling client has returned.  When it is due its callback
    runs [handleGenerationTimeout], which broadcasts one error, the
    timeout message, and sets the status Idle directly: of the
    states its five statements pass through, the first three have
    the status of before and the last three are Idle, so no
    statement assigns Error.  It clears the flag and the stream id
    and leaves [currentStream] alone. *)
Theorem generation_timeout (prompt : string) (i h : nat) (c : WHEPClient) (t : Timer)
    (now : Z) (w : World) :
  GENERATION_TIMEOUT = 10000 /\
  timers (requestGeneration prompt now w) = timers w /\
  (nth_error (heap w) i = Some c ->
   let w' := requestGeneration_connected i WhepOk now w in
   timers w' = (timers w ++ [timeout_timer (nextTimer w) now])%list /\
   generationTimeout (videoGenerator w') = Some (nextTimer w)) /\
  (find_timer h w = Some t -> t_task t = TaskTimeout -> t_period t = None ->
   fire h now w =
   if t_due t <=? now then Some (handleGenerationTimeout now (clearTimeout h w)) else None) /\
  (let w' := handleGenerationTimeout now w in
   streamStatus (appState w') = Idle /\
   generationInProgress (appState w') = false /\
   currentStreamId (videoGenerator w') = None /\
   currentStream (appState w') = currentStream (appState w) /\
   trace w' = (trace w ++
               one_broadcast
                 (error_message "Video generation timeout - retrying with adjusted parameters" now)
                 (clients (appState w)))%list) /\
  (let passed := states_passed (handleGenerationTimeout_statements now) w in
   last passed w = handleGenerationTimeout now w /\
   map (fun x => streamStatus (appState x)) passed
   = [streamStatus (appState w); streamStatus (appState w); streamStatus (appState w);
      Idle; Idle; Idle]).
Proof.
  split; [reflexivity|]. split; [apply requestGeneration_timers|].
  split; [|split; [|split]].
  - intros H. destruct (requestGeneration_connected_ok i c now w H) as (A & B & _).
    split; assumption.
  - intros Hf Ht Hp. unfold fire. rewrite Hf, Ht, Hp. reflexivity.
  - apply handleGenerationTimeout_spec.
  - split; [apply states_passed_last|apply handleGenerationTimeout_statuses].
Qed.

End Timeout.

(** A request answered and its handshake returned: the stream is
    Starting and timer 0 is armed. *)
Lemma generation_timeout_witness :
  let w := after [(0, EvGenerate "p");
                  (1, EvStartResponse (ResponseOk (Some "s1") (Some "u")))] in
  let w' := @requestGeneration_connected example_runtime 0 WhepOk 2 w in
  (timers w' = [timeout_timer 0 2] /\
   generationTimeout (videoGenerator w') = Some 0%nat) /\
  @fire example_runtime 0 10002 w' =
    Some (@handleGenerationTimeout example_runtime 10002 (clearTimeout 0 w')) /\
  @fire example_runtime 0 10001 w' = None /\
  map (fun x => streamStatus (appState x))
      (states_passed (@handleGenerationTimeout_statements example_runtime 10002)
         (clearTimeout 0 w'))
  = [Starting; Starting; Starting; Idle; Idle; Idle].
Proof.
  intros w w'.
  assert (Hs : streamStatus (appState (clearTimeout 0 w')) = Starting)
    by (vm_compute; reflexivity).
  pose proof (@generation_timeout example_runtime "p" 0 0 (connecting_client (Some "u"))
                (timeout_timer 0 2) 10002 (clearTimeout 0 w')) as (_ & _ & _ & _ & _ & _ & Hst).
  rewrite Hs in Hst.
  pose proof (@generation_timeout example_runtime "p" 0 0 (connecting_client (Some "u"))
                (timeout_timer 0 2) 2 w) as (_ & _ & Harm & _).
  pose proof (@generation_timeout example_runtime "p" 0 0 (connecting_client (Some "u"))
                (timeout_timer 0 2) 10002 w') as (_ & _ & _ & Hfire & _).
  pose proof (@generation_timeout example_runtime "p" 0 0 (connecting_client (Some "u"))
                (timeout_timer 0 2) 10001 w') as (_ & _ & _ & Hearly & _).
  split; [apply Harm; reflexivity|].
  split; [rewrite Hfire by reflexivity; reflexivity|].
  split; [rewrite Hearly by reflexivity; reflexivity|exact Hst].
Defined.

(** C3 as stated fails: on entering Starting no timer is armed, and
    a timer that fires takes the status from Starting to Idle with
    no Error in between; it also fires after the stream became
    Active. *)
Lemma no_timer_on_starting :
  let w := after [(0, EvGenerate "p")] in
  let armed := after [(0, EvGenerate "p");
                      (1, EvStartResponse (ResponseOk (Some "s1") (Some "u")));
                      (2, EvWhepSettled 0 WhepOk)] in
  (streamStatus (appState w) = Starting /\ timers w = []) /\
  (streamStatus (appState armed) = Starting /\
   option_map (fun x => streamStatus (appState x)) (@step example_runtime 10002 (EvFire 0) armed)
     = Some Idle /\
   map (fun x => streamStatus (appState x))
       (states_passed (@handleGenerationTimeout_statements example_runtime 10002)
          (clearTimeout 0 armed))
   = [Starting; Starting; Starting; Idle; Idle; Idle]) /\
  (streamStatus (appState active_stream) = Active /\
   timers active_stream = [timeout_timer 0 2] /\
   option_map (fun x => streamStatus (appState x))
     (@step example_runtime 10002 (EvFire 0) active_stream) = Some Idle).
Proof. vm_compute. intuition. Qed.

(** ** Failure of the start call *)

Section StartFailure.
Context {rt : JsRuntime}.

Lemma requestGeneration_catch_spec message now w :
  let w' := requestGeneration_catch message now w in
  streamStatus (appState w') = Error /\
  generationInProgress (appState w') = false /\
  trace w' = (trace w ++
              one_broadcast (error_message ("Video generation failed: " ++ message) now)
                (clients (appState w)))%list /\
  currentStream (appState w') = currentStream (appState w) /\
  videoGenerator w' = videoGenerator w /\ timers w' = timers w /\ heap w' = heap w.
Proof.
  intros w'. subst w'. unfold requestGeneration_catch, one_broadcast. through.
  repeat split; reflexivity.
Qed.

(** C4, as the code has it.  When the start call fails (another
    status than 2xx, a rejected fetch, a body that does not parse)
    one error message carrying the reason is broadcast, the status
    becomes Error and the flag is cleared.  The status stays Error
    and [currentStream] and the generator are left alone; a request
    made then is accepted. *)
Theorem start_failure (r : StartResponse) (reason prompt : string) (now now' : Z) (w : World) :
  failure_reason r = Some reason ->
  let w' := requestGeneration_resume r now w in
  streamStatus (appState w') = Error /\
  generationInProgress (appState w') = false /\
  trace w' = (trace w ++
              one_broadcast (error_message ("Video generation failed: " ++ reason) now)
                (clients (appState w)))%list /\
  currentStream (appState w') = currentStream (appState w) /\
  videoGenerator w' = videoGenerator w /\ timers w' = timers w /\
  (let w2 := requestGeneration prompt now' w' in
   streamStatus (appState w2) = Starting /\
   generationInProgress (appState w2) = true /\
   start_calls w2 = (start_calls w' ++ [CFetchStart prompt])%list).
Proof.
  intros Hr w'.
  assert (Hw : w' = requestGeneration_catch reason now w).
  { subst w'. destruct r; cbn in Hr; try discriminate Hr; injection Hr as <-; reflexivity. }
  destruct (requestGeneration_catch_spec reason now w) as (Hs & Hg & Ht & Hc & Hv & Hti & _).
  rewrite <- Hw in Hs, Hg, Ht, Hc, Hv, Hti.
  repeat split; try assumption.
  - apply (requestGeneration_accepted prompt now' w' Hg).
  - apply (requestGeneration_accepted prompt now' w' Hg).
  - apply start_calls_accepted. exact Hg.
Qed.

End StartFailure.

Lemma start_failure_witness :
  let w := after [(0, EvConnection "a" open_client); (1, EvGenerate "p")] in
  let w' := @requestGeneration_resume example_runtime (ResponseStatus 503) 2 w in
  streamStatus (appState w') = Error /\
  generationInProgress (appState w') = false /\
  trace w' = (trace w ++
              [CStringify (error_message
                 "Video generation failed: Video API responded with status: 503" 2);
               CSend "a" "error:Video generation failed: Video API responded with status: 503"])%list /\
  streamStatus (appState (@requestGeneration example_runtime "q" 3 w')) = Starting.
Proof.
  intros w w'.
  destruct (@start_failure example_runtime (ResponseStatus 503)
              "Video API responded with status: 503" "q" 2 3 w)
    as (Hs & Hg & Ht & _ & _ & _ & Hn & _); [reflexivity|].
  fold w' in Hs, Hg, Ht, Hn.
  repeat split; assumption.
Defined.

(** C4 as stated fails: after a failed start call the status is
    Error, not Idle, whatever the failure. *)
Lemma status_stays_error :
  streamStatus (appState (after [(0, EvGenerate "p");
                                 (1, EvStartResponse (ResponseStatus 500))])) = Error /\
  streamStatus (appState (after [(0, EvGenerate "p");
                                 (1, EvStartResponse (ResponseRejected "ECONNREFUSED"))])) = Error /\
  streamStatus (appState (after [(0, EvGenerate "p");
                                 (1, EvStartResponse (ResponseBadBody "Unexpected token"))])) = Error.
Proof. vm_compute. intuition. Qed.

(** ** The prompt cycle *)

Section Cycle.
Context {rt : JsRuntime}.

Lemma fire_one_shot h due task now w :
  find_timer h w = Some (one_shot h due task) ->
  fire h now w =
  if due <=? now then Some (run_task task now (clearTimeout h w)) else None.
Proof. intros H. unfold fire. rewrite H. reflexivity. Qed.

Lemma generateThought_spec now w :
  let w' := generateThought now w in
  start_calls w' = start_calls w /\ inflight w' = inflight w /\
  timers w' = timers w /\ nextTimer w' = nextTimer w /\
  videoGenerator w' = videoGenerator w /\
  streamStatus (appState w') = streamStatus (appState w) /\
  generationInProgress (appState w') = generationInProgress (appState w) /\
  frameStreamer (appState w') = frameStreamer (appState w) /\
  lastFrameTime (appState w') = lastFrameTime (appState w).
Proof.
  intros w'. subst w'. unfold generateThought, pick, random_index, Math_random.
  cbv beta iota zeta. unfold start_calls. through.
  rewrite filter_app.
  match goal with
  | |- context [CStringify ?m :: _] => fold (one_broadcast m (clients (appState w)))
  end.
  rewrite start_calls_broadcast, app_nil_r. repeat split; reflexivity.
Qed.

Lemma pick_keeps l w v y :
  pick l w = (v, y) ->
  appState y = appState w /\ videoGenerator y = videoGenerator w /\
  timers y = timers w /\ nextTimer y = nextTimer w /\
  inflight y = inflight w /\ trace y = trace w.
Proof. intros [= _ <-]. repeat split. Qed.

Lemma generatePrompt_spec now w :
  let w' := generatePrompt now w in
  start_calls w' = start_calls w /\ inflight w' = inflight w /\
  timers w' = timers w /\ nextTimer w' = nextTimer w /\
  videoGenerator w' = videoGenerator w /\
  streamStatus (appState w') = streamStatus (appState w) /\
  generationInProgress (appState w') = generationInProgress (appState w) /\
  frameStreamer (appState w') = frameStreamer (appState w) /\
  lastFrameTime (appState w') = lastFrameTime (appState w).
Proof.
  intros w'. subst w'. unfold generatePrompt.
  repeat match goal with
  | |- context [pick ?l ?x] =>
      let v := fresh "v" in let y := fresh "w" in let E := fresh "E" in
      destruct (pick l x) as [v y] eqn:E;
      apply pick_keeps in E; destruct E as (? & ? & ? & ? & ? & ?)
  end.
  match goal with |- context [set_lastPrompt ?p] => generalize p; intros prompt end.
  unfold start_calls. through.
  repeat match goal with H : _ = _ |- _ => rewrite ?H; clear H end.
  rewrite filter_app.
  match goal with |- context [CStringify ?m :: map _ (filter is_open ?cs)] =>
    fold (one_broadcast m cs)
  end.
  rewrite start_calls_broadcast, app_nil_r. repeat split; reflexivity.
Qed.

Lemma processCycle_spec now w :
  let w' := processCycle now w in
  start_calls w' = start_calls w /\ inflight w' = inflight w /\
  generationInProgress (appState w') = generationInProgress (appState w) /\
  streamStatus (appState w') = streamStatus (appState w) /\
  timers w' = (timers w ++ [one_shot (nextTimer w) (now + 2000) TaskPrompt])%list.
Proof.
  intros w'. subst w'. unfold processCycle, setTimeout, one_shot.
  destruct (generateThought_spec now w) as (Hc & Hi & Ht & Hn & _ & Hs & Hg & _).
  generalize dependent (generateThought now w). intros g Hc Hi Ht Hn Hs Hg.
  cbn [snd]. unfold start_calls in *. fields.
  rewrite Hc, Hi, Ht, Hn, Hs, Hg. repeat split; reflexivity.
Qed.

Lemma cycle_prompt_eq now w :
  cycle_prompt now w = cycle_prompt_check now (generatePrompt now w).
Proof. reflexivity. Qed.

Lemma cycle_prompt_check_spec now g :
  let w' := cycle_prompt_check now g in
  start_calls w' = start_calls g /\ inflight w' = inflight g /\
  generationInProgress (appState w') = generationInProgress (appState g) /\
  streamStatus (appState w') = streamStatus (appState g) /\
  timers w' = (timers g ++ if hasActiveFrames now g then []
                           else [one_shot (nextTimer g) (now + 2000) TaskRequest])%list.
Proof.
  intros w'. subst w'. unfold cycle_prompt_check.
  destruct (hasActiveFrames now g); cbn [negb snd].
  - rewrite app_nil_r. repeat split; reflexivity.
  - repeat split; reflexivity.
Qed.

Lemma cycle_prompt_spec now w :
  let w' := cycle_prompt now w in
  start_calls w' = start_calls w /\ inflight w' = inflight w /\
  generationInProgress (appState w') = generationInProgress (appState w) /\
  streamStatus (appState w') = streamStatus (appState w) /\
  timers w' = (timers w ++ if hasActiveFrames now w then []
                           else [one_shot (nextTimer w) (now + 2000) TaskRequest])%list.
Proof.
  intros w'. subst w'. rewrite cycle_prompt_eq.
  destruct (generatePrompt_spec now w) as (Hc & Hi & Ht & Hn & _ & Hs & Hg & Hf & Hl).
  generalize dependent (generatePrompt now w). intros g Hc Hi Ht Hn Hs Hg Hf Hl.
  destruct (cycle_prompt_check_spec now g) as (Hc' & Hi' & Hg' & Hs' & Ht').
  assert (Hlive : hasActiveFrames now g = hasActiveFrames now w).
  { unfold hasActiveFrames. rewrite Hf, Hl. reflexivity. }
  rewrite Hc', Hi', Hg', Hs', Ht', Hlive, Hc, Hi, Ht, Hn, Hs, Hg.
  repeat split; reflexivity.
Qed.

(** C7, as the code has it.  A tick ([processCycle]) makes no start
    call: it arms the prompt callback 2000 ms ahead.  The prompt
    callback makes none either: it reads the liveness once, at its
    own time, and if the streamer is not live it arms the request
    callback 2000 ms ahead.  The request callback, which runs no
    earlier than that, calls [requestGeneration] with the last
    prompt without reading the liveness again. *)
Theorem scheduler_deferred_request (h : nat) (due now : Z) (w : World) :
  (let w' := processCycle now w in
   start_calls w' = start_calls w /\ inflight w' = inflight w /\
   timers w' = (timers w ++ [one_shot (nextTimer w) (now + 2000) TaskPrompt])%list) /\
  (let w' := cycle_prompt now w in
   start_calls w' = start_calls w /\ inflight w' = inflight w /\
   timers w' = (timers w ++ if hasActiveFrames now w then []
                            else [one_shot (nextTimer w) (now + 2000) TaskRequest])%list) /\
  (find_timer h w = Some (one_shot h due TaskRequest) ->
   fire h now w =
   if due <=? now
   then Some (requestGeneration (lastPrompt (llmBot (appState w))) now (clearTimeout h w))
   else None) /\
  (generationInProgress (appState w) = false ->
   start_calls (cycle_request now w) =
   (start_calls w ++ [CFetchStart (lastPrompt (llmBot (appState w)))])%list).
Proof.
  split; [|split; [|split]].
  - destruct (processCycle_spec now w) as (A & B & _ & _ & C). repeat split; assumption.
  - destruct (cycle_prompt_spec now w) as (A & B & _ & _ & C). repeat split; assumption.
  - intros H. rewrite (fire_one_shot h due TaskRequest now w H). reflexivity.
  - intros H. unfold cycle_request. apply start_calls_accepted. exact H.
Qed.

End Cycle.

Lemma scheduler_deferred_request_witness :
  let w := after frames_during_wait in
  hasActiveFrames 5000 w = true /\
  @fire example_runtime 6 4999 w = None /\
  @fire example_runtime 6 5000 w =
    Some (@requestGeneration example_runtime (lastPrompt (llmBot (appState w))) 5000
            (clearTimeout 6 w)) /\
  start_calls (@cycle_request example_runtime 5000 w) =
    (start_calls w ++ [CFetchStart (lastPrompt (llmBot (appState w)))])%list.
Proof.
  intros w.
  pose proof (@scheduler_deferred_request example_runtime 6 5000 4999 w) as (_ & _ & He & _).
  pose proof (@scheduler_deferred_request example_runtime 6 5000 5000 w) as (_ & _ & Hf & Hr).
  split; [reflexivity|].
  split; [rewrite He by reflexivity; reflexivity|].
  split; [rewrite Hf by reflexivity; reflexivity|].
  apply Hr. reflexivity.
Defined.

(** C7 as stated fails: frames that start during the wait do not
    suppress the call.  The streamer is live when the request
    callback runs, and the start call is made. *)
Lemma request_despite_live_frames :
  let w := after frames_during_wait in
  let w' := after (frames_during_wait ++ [(5000, EvFire 6)]) in
  hasActiveFrames 5000 w = true /\
  start_calls w = [CFetchStart "p"] /\
  start_calls w' =
    [CFetchStart "p";
     CFetchStart "A cyberpunk cityscape with neon lights, cinematic style, 4K resolution, smooth motion"] /\
  streamStatus (appState w') = Starting.
Proof. vm_compute. intuition. Qed.

(** ** The status and the flag in every reachable state *)

Section Lifecycle.
Context {rt : JsRuntime}.

Lemma lifecycle_broadcast m now w : lifecycle (broadcast m now w) = lifecycle w.
Proof. unfold lifecycle. through. reflexivity. Qed.

Lemma lifecycle_sendToClient id m w : lifecycle (sendToClient id m w) = lifecycle w.
Proof.
  unfold sendToClient.
  destruct (Map_get id (clients (appState w))) as [ws|]; [|reflexivity].
  destruct (readyState ws =? 1); [|reflexivity].
  destruct (sendThrows ws); reflexivity.
Qed.

Lemma lifecycle_addClient ws id now w : lifecycle (addClient ws id now w) = lifecycle w.
Proof. unfold addClient. rewrite lifecycle_sendToClient. reflexivity. Qed.

Lemma lifecycle_processIncomingFrame fd now w : lifecycle (processIncomingFrame fd now w) = lifecycle w.
Proof.
  unfold processIncomingFrame.
  destruct (currentStream (appState w)); [|reflexivity].
  rewrite lifecycle_broadcast. destruct (fd_data fd) as [[|a b]|]; reflexivity.
Qed.

Lemma lifecycle_sendWaitingFrame now w : lifecycle (sendWaitingFrame now w) = lifecycle w.
Proof.
  unfold sendWaitingFrame. destruct (negb (hasActiveFrames now w)); [|reflexivity].
  apply lifecycle_broadcast.
Qed.

Lemma lifecycle_requestGeneration prompt now w :
  lifecycle (requestGeneration prompt now w) =
  if generationInProgress (appState w) then lifecycle w else (Starting, true).
Proof.
  destruct (generationInProgress (appState w)) eqn:E.
  - rewrite requestGeneration_skipped by assumption. reflexivity.
  - destruct (requestGeneration_accepted prompt now w E) as (Hg & Hs & _).
    unfold lifecycle. rewrite Hg, Hs. reflexivity.
Qed.

Lemma lifecycle_requestGeneration_catch message now w :
  lifecycle (requestGeneration_catch message now w) = (Error, false).
Proof.
  destruct (requestGeneration_catch_spec message now w) as (Hs & Hg & _).
  unfold lifecycle. rewrite Hs, Hg. reflexivity.
Qed.

Lemma lifecycle_requestGeneration_resume r now w :
  lifecycle (requestGeneration_resume r now w) =
  match r with ResponseOk _ _ => lifecycle w | _ => (Error, false) end.
Proof.
  destruct r as [sid url| | |]; try apply lifecycle_requestGeneration_catch.
  destruct (requestGeneration_resume_ok sid url now w) as (_ & _ & _ & _ & _ & Hs & Hg & _).
  unfold lifecycle. rewrite Hs, Hg. reflexivity.
Qed.

Lemma lifecycle_requestGeneration_connected i r now w :
  lifecycle (requestGeneration_connected i r now w) =
  match nth_error (heap w) i, r with
  | Some _, WhepFailed _ => (Error, false)
  | _, _ => lifecycle w
  end.
Proof.
  unfold requestGeneration_connected.
  destruct (nth_error (heap w) i) as [c|] eqn:E; [|reflexivity].
  destruct r as [|message].
  - unfold upd_client. rewrite E. reflexivity.
  - apply lifecycle_requestGeneration_catch.
Qed.

Lemma lifecycle_handleGenerationTimeout now w :
  lifecycle (handleGenerationTimeout now w) = (Idle, false).
Proof.
  destruct (handleGenerationTimeout_spec now w) as (Hs & Hg & _).
  unfold lifecycle. rewrite Hs, Hg. reflexivity.
Qed.

Lemma lifecycle_stopCurrentGeneration w : lifecycle (stopCurrentGeneration w) = (Idle, false).
Proof.
  destruct (stopCurrentGeneration_spec w) as (Hs & _ & Hg & _).
  unfold lifecycle. rewrite Hs, Hg. reflexivity.
Qed.

Lemma lifecycle_whep_onConnect url now w : lifecycle (whep_onConnect url now w) = (Active, false).
Proof. unfold lifecycle, whep_onConnect. through. reflexivity. Qed.

Lemma lifecycle_whep_onDisconnect reason now w :
  lifecycle (whep_onDisconnect reason now w) = (Idle, generationInProgress (appState w)).
Proof. unfold lifecycle, whep_onDisconnect, stopReceiving. through. reflexivity. Qed.

Lemma lifecycle_ok_requestGeneration prompt now w :
  lifecycle_ok (lifecycle w) -> lifecycle_ok (lifecycle (requestGeneration prompt now w)).
Proof.
  rewrite lifecycle_requestGeneration.
  destruct (generationInProgress (appState w)); [trivial|]. intros _. reflexivity.
Qed.

Lemma lifecycle_ok_run_task t now w :
  lifecycle_ok (lifecycle w) -> lifecycle_ok (lifecycle (run_task t now w)).
Proof.
  intros H. destruct t; cbn [run_task].
  - destruct (processCycle_spec now w) as (_ & _ & Hg & Hs & _).
    unfold lifecycle. rewrite Hs, Hg. exact H.
  - destruct (cycle_prompt_spec now w) as (_ & _ & Hg & Hs & _).
    unfold lifecycle. rewrite Hs, Hg. exact H.
  - apply lifecycle_ok_requestGeneration. exact H.
  - rewrite lifecycle_handleGenerationTimeout. exact I.
  - destruct (negb (hasActiveFrames now w)); [|exact H].
    rewrite lifecycle_sendWaitingFrame. exact H.
  - unfold checkStreamStatus.
    destruct (currentStreamId (videoGenerator w)) as [[|a s]|]; exact H.
Qed.

Lemma lifecycle_ok_fire h now w w' :
  lifecycle_ok (lifecycle w) -> fire h now w = Some w' -> lifecycle_ok (lifecycle w').
Proof.
  intros H. unfold fire.
  destruct (find_timer h w) as [t|]; [|discriminate].
  destruct (t_due t <=? now); [|discriminate].
  intros [= <-]. apply lifecycle_ok_run_task.
  destruct (t_period t); exact H.
Qed.

Lemma lifecycle_ok_requestGeneration_value p now w :
  lifecycle_ok (lifecycle w) -> lifecycle_ok (lifecycle (requestGeneration_value p now w)).
Proof.
  intros H. unfold requestGeneration_value.
  destruct (prompt_text p) as [s|message]; [apply lifecycle_ok_requestGeneration; exact H|].
  destruct (generationInProgress (appState w)); [exact H|].
  rewrite lifecycle_requestGeneration_catch. reflexivity.
Qed.

Lemma lifecycle_ok_handleClientMessage id v now w w' :
  lifecycle_ok (lifecycle w) -> handleClientMessage id v now w = Some w' -> lifecycle_ok (lifecycle w').
Proof.
  intros H. unfold handleClientMessage.
  destruct (member "type" v) as [ty|]; [|discriminate].
  destruct (is_label ty "start_generation").
  { destruct (member "prompt" v) as [[p|]|]; intros [= <-]; try exact H.
    destruct (truthy p); [apply lifecycle_ok_requestGeneration_value|]; exact H. }
  destruct (is_label ty "stop_generation").
  { intros [= <-]. rewrite lifecycle_stopCurrentGeneration. exact I. }
  destruct (is_label ty "get_status"); intros [= <-].
  - rewrite lifecycle_sendToClient. exact H.
  - exact H.
Qed.

End Lifecycle.

Section Reachable.
Context {rt : JsRuntime}.

Lemma lifecycle_upd_client i f w : lifecycle (upd_client i f w) = lifecycle w.
Proof. unfold upd_client. destruct (nth_error (heap w) i); reflexivity. Qed.

Lemma lifecycle_logger l msg w : lifecycle (logger l msg w) = lifecycle w.
Proof. reflexivity. Qed.

Lemma lifecycle_ok_run_callbacks url now cbs : forall w,
  Forall connectivity_or_frame cbs ->
  lifecycle_ok (lifecycle w) -> lifecycle_ok (lifecycle (run_callbacks url now cbs w)).
Proof.
  unfold run_callbacks.
  induction cbs as [|cb cbs IH]; intros w Hall H; cbn [fold_left]; [exact H|].
  inversion Hall as [|? ? Hcb Hrest]; subst.
  apply IH; [exact Hrest|].
  destruct cb; cbn [run_callback].
  - rewrite lifecycle_whep_onConnect. reflexivity.
  - rewrite lifecycle_whep_onDisconnect. exact I.
  - destruct Hcb.
  - rewrite lifecycle_processIncomingFrame. exact H.
Qed.

Lemma ice_callbacks state c :
  Forall connectivity_or_frame (snd (oniceconnectionstatechange state c)).
Proof.
  unfold oniceconnectionstatechange.
  destruct state; cbn [snd]; try constructor;
    try (destruct (onConnect c); repeat constructor);
    try (destruct (onDisconnect c); repeat constructor).
Qed.

Lemma frame_callbacks fd c : Forall connectivity_or_frame (frame_tick fd c).
Proof.
  unfold frame_tick. destruct (negb (isConnected c) || negb (onFrame c));
    repeat constructor.
Qed.

Lemma lifecycle_ok_step now e w w' :
  lifecycle_ok (lifecycle w) -> step now e w = Some w' -> lifecycle_ok (lifecycle w').
Proof.
  intros H. destruct e; cbn [step].
  - intros [= <-]. exact H.
  - apply lifecycle_ok_fire. exact H.
  - intros [= <-]. destruct (String.eqb prompt ""); [exact H|].
    apply lifecycle_ok_requestGeneration. exact H.
  - destruct (inflight w); [discriminate|]. intros [= <-].
    rewrite lifecycle_requestGeneration_resume. destruct r; try reflexivity. exact H.
  - destruct (nth_error (heap w) i) as [c|] eqn:E; [|discriminate].
    destruct (connecting c); [|discriminate]. intros [= <-].
    rewrite lifecycle_requestGeneration_connected, E. destruct r; [exact H|reflexivity].
  - destruct (nth_error (heap w) i) as [c|] eqn:E; [|discriminate].
    destruct (peerConnection c); [|discriminate].
    pose proof (ice_callbacks state c) as Hcbs.
    destruct (oniceconnectionstatechange state c) as [c' cbs]. cbn [snd] in Hcbs.
    intros [= <-]. apply lifecycle_ok_run_callbacks; [exact Hcbs|].
    rewrite lifecycle_logger, lifecycle_upd_client. exact H.
  - destruct (nth_error (heap w) i) as [c|]; [|discriminate].
    intros [= <-]. apply lifecycle_ok_run_callbacks; [apply frame_callbacks|exact H].
  - intros [= <-]. rewrite lifecycle_addClient. exact H.
  - intros [= <-]. exact H.
  - intros [= <-]. unfold on_message.
    destruct (JSON_parse payload) as [v|]; [|exact H].
    destruct (handleClientMessage id v now w) as [w1|] eqn:E; [|exact H].
    apply (lifecycle_ok_handleClientMessage id v now w w1 H E).
  - intros [= <-]. exact H.
  - intros [= <-]. exact H.
  - destruct (Map_get id (clients (appState w))); [|discriminate].
    intros [= <-]. exact H.
  - intros [= <-]. rewrite lifecycle_stopCurrentGeneration. exact I.
Qed.

Lemma lifecycle_ok_run events : forall w w',
  lifecycle_ok (lifecycle w) -> run events w = Some w' -> lifecycle_ok (lifecycle w').
Proof.
  induction events as [|[now e] events IH]; intros w w' H; cbn [run].
  - intros [= <-]. exact H.
  - destruct (step now e w) as [w1|] eqn:E; [|discriminate].
    apply IH. apply (lifecycle_ok_step now e w w1 H E).
Qed.

Lemma lifecycle_ok_reachable draws events w :
  run events (initial draws) = Some w -> lifecycle_ok (lifecycle w).
Proof. intros H. apply (lifecycle_ok_run events (initial draws) w); [exact I|exact H]. Qed.

(** C1, as the code has it.  The guard of [requestGeneration] is the
    flag [generationInProgress].  In every state the server reaches
    the flag is set while the status is Starting and clear while it
    is Active or Error.  So a call made while the status is Starting
    changes nothing but the log, and in a run of calls with nothing
    in between only the first is accepted: it sets the flag and the
    status Starting and issues one start call, and the later ones
    are skipped.  A call made while the status is Active or Error
    is accepted in the same way. *)
Theorem single_flight (draws : nat -> N) (events : list (Z * Event))
    (prompt : string) (now : Z) (later : list (string * Z)) (w : World) :
  run events (initial draws) = Some w ->
  (streamStatus (appState w) = Starting ->
   generationInProgress (appState w) = true /\
   unchanged w (requestGeneration prompt now w)) /\
  (streamStatus (appState w) = Active \/ streamStatus (appState w) = Error ->
   generationInProgress (appState w) = false) /\
  (generationInProgress (appState w) = true ->
   unchanged w (requestGeneration prompt now w)) /\
  (generationInProgress (appState w) = false ->
   let w1 := requestGeneration prompt now w in
   generationInProgress (appState w1) = true /\
   streamStatus (appState w1) = Starting /\
   start_calls w1 = (start_calls w ++ [CFetchStart prompt])%list /\
   unchanged w1 (requests later w1)).
Proof.
  intros Hrun. pose proof (lifecycle_ok_reachable draws events w Hrun) as H.
  unfold lifecycle in H.
  assert (Hskip : generationInProgress (appState w) = true ->
                  unchanged w (requestGeneration prompt now w)).
  { intros Hg. rewrite requestGeneration_skipped by assumption. repeat split. }
  split; [|split; [|split]].
  - intros Hs. rewrite Hs in H. cbn in H. split; [exact H|]. apply Hskip. exact H.
  - intros [Hs|Hs]; rewrite Hs in H; exact H.
  - exact Hskip.
  - intros Hg w1.
    destruct (requestGeneration_accepted prompt now w Hg) as (Hg1 & Hs1 & _).
    fold w1 in Hg1, Hs1.
    split; [exact Hg1|]. split; [exact Hs1|]. split.
    + apply start_calls_accepted. exact Hg.
    + apply requests_skipped. exact Hg1.
Qed.

End Reachable.

Lemma single_flight_witness :
  let w := after [(0, EvGenerate "p")] in
  (generationInProgress (appState w) = true /\
   unchanged w (@requestGeneration example_runtime "q" 1 w)) /\
  generationInProgress (appState active_stream) = false /\
  (let w1 := @requestGeneration example_runtime "p" 9 three_clients in
   generationInProgress (appState w1) = true /\
   streamStatus (appState w1) = Starting /\
   start_calls w1 = (start_calls three_clients ++ [CFetchStart "p"])%list /\
   unchanged w1 (@requests example_runtime [("q", 10); ("r", 11)] w1)).
Proof.
  intros w.
  assert (R1 : @run example_runtime [(0, EvGenerate "p")] (initial (fun _ => 0%N)) = Some w)
    by (vm_compute; reflexivity).
  assert (R2 : @run example_runtime
                 [(0, EvGenerate "p");
                  (1, EvStartResponse (ResponseOk (Some "s1") (Some "u")));
                  (2, EvWhepSettled 0 WhepOk);
                  (3, EvIce 0 IceConnected)] (initial (fun _ => 0%N)) = Some active_stream)
    by (vm_compute; reflexivity).
  assert (R3 : @run example_runtime
                 [(0, EvConnection "a" open_client);
                  (1, EvConnection "b" broken_client);
                  (2, EvConnection "c" open_client);
                  (3, EvConnection "d" open_client);
                  (4, EvTransport "d" closed_client)] (initial (fun _ => 0%N))
               = Some three_clients)
    by (vm_compute; reflexivity).
  pose proof (@single_flight example_runtime _ _ "q" 1 [] w R1) as (Hstarting & _ & _ & _).
  pose proof (@single_flight example_runtime _ _ "q" 4 [] active_stream R2)
    as (_ & Hactive & _ & _).
  pose proof (@single_flight example_runtime _ _ "p" 9 [("q", 10); ("r", 11)] three_clients R3)
    as (_ & _ & _ & Hidle).
  split; [apply Hstarting; vm_compute; reflexivity|].
  split; [apply Hactive; left; vm_compute; reflexivity|].
  apply Hidle. vm_compute. reflexivity.
Defined.

(** C1 as stated fails: with the stream Active, and with the status
    Error after a failed start, a request is accepted: the status
    becomes Starting and a start call is issued. *)
Lemma request_accepted_when_active :
  let w := active_stream in
  let w' := @requestGeneration example_runtime "q" 4 w in
  streamStatus (appState w) = Active /\
  streamStatus (appState w') = Starting /\
  start_calls w = [CFetchStart "p"] /\
  start_calls w' = [CFetchStart "p"; CFetchStart "q"] /\
  let e := after [(0, EvGenerate "p"); (1, EvStartResponse (ResponseStatus 500))] in
  let e' := @requestGeneration example_runtime "q" 4 e in
  streamStatus (appState e) = Error /\
  streamStatus (appState e') = Starting /\
  start_calls e' = [CFetchStart "p"; CFetchStart "q"].
Proof. vm_compute. repeat split; reflexivity. Qed.

(** * Further properties *)

(** ** Well-formed worlds are kept by every handler *)

Lemma NoDup_keys_filter {V} (f : string * V -> bool) (l : list (string * V)) :
  NoDup (map fst l) -> NoDup (map fst (filter f l)).
Proof.
  induction l as [|a l IH]; cbn [filter map]; intros H; [exact H|].
  inversion H as [|k ks Hk Hks]; subst.
  destruct (f a); cbn [map]; [|apply IH; exact Hks].
  constructor; [|apply IH; exact Hks].
  intros Hin. apply Hk. apply in_map_iff in Hin. destruct Hin as [x [Hx Hin]].
  apply filter_In in Hin. rewrite <- Hx. apply in_map. apply Hin.
Qed.

Lemma Map_set_keys {V} (k : string) (v : V) (m : list (string * V)) :
  map fst (Map_set k v m) =
  if existsb (String.eqb k) (map fst m) then map fst m else (map fst m ++ [k])%list.
Proof.
  induction m as [|[k' v'] m IH]; cbn [Map_set map existsb fst]; [reflexivity|].
  rewrite (String.eqb_sym k k').
  destruct (String.eqb_spec k' k) as [->|N]; cbn [orb map fst]; [reflexivity|].
  rewrite IH. destruct (existsb (String.eqb k) (map fst m)); reflexivity.
Qed.

Lemma NoDup_keys_Map_set {V} (k : string) (v : V) (m : list (string * V)) :
  NoDup (map fst m) -> NoDup (map fst (Map_set k v m)).
Proof.
  intros H. rewrite Map_set_keys.
  destruct (existsb (String.eqb k) (map fst m)) eqn:E; [exact H|].
  apply NoDup_app; [exact H | repeat constructor; intros [] |].
  intros x Hx [Ek|[]]. subst x.
  assert (existsb (String.eqb k) (map fst m) = true); [|congruence].
  apply existsb_exists. exists k. split; [exact Hx|apply String.eqb_refl].
Qed.

Section WellFormed.
Context {rt : JsRuntime}.

(** A world with the same history, registry and timers. *)
Lemma wf_same w w' :
  messages (appState w') = messages (appState w) ->
  clients (appState w') = clients (appState w) ->
  timers w' = timers w -> nextTimer w' = nextTimer w ->
  well_formed w -> well_formed w'.
Proof.
  unfold well_formed, history_ok, registry_ok, timers_ok.
  intros -> -> -> ->. trivial.
Qed.

Lemma wf_logger l msg w : well_formed w -> well_formed (logger l msg w).
Proof. apply wf_same; reflexivity. Qed.

Lemma wf_call c w : well_formed w -> well_formed (call c w).
Proof. apply wf_same; reflexivity. Qed.

Lemma wf_upd_gen f w : well_formed w -> well_formed (upd_gen f w).
Proof. apply wf_same; reflexivity. Qed.

Lemma wf_set_heap h w : well_formed w -> well_formed (set_heap h w).
Proof. apply wf_same; reflexivity. Qed.

Lemma wf_set_inflight n w : well_formed w -> well_formed (set_inflight n w).
Proof. apply wf_same; reflexivity. Qed.

Lemma wf_set_rngPos n w : well_formed w -> well_formed (set_rngPos n w).
Proof. apply wf_same; reflexivity. Qed.

Lemma wf_upd_streamer f w : well_formed w -> well_formed (upd_streamer f w).
Proof. apply wf_same; reflexivity. Qed.

Lemma wf_upd_bot f w : well_formed w -> well_formed (upd_bot f w).
Proof. apply wf_same; reflexivity. Qed.

Lemma wf_upd_client i f w : well_formed w -> well_formed (upd_client i f w).
Proof.
  unfold upd_client. destruct (nth_error (heap w) i); [|trivial].
  apply wf_same; reflexivity.
Qed.

Lemma wf_streamStatus v w : well_formed w -> well_formed (upd_app (set_streamStatus v) w).
Proof. apply wf_same; reflexivity. Qed.

Lemma wf_currentStream v w : well_formed w -> well_formed (upd_app (set_currentStream v) w).
Proof. apply wf_same; reflexivity. Qed.

Lemma wf_lastFrameTime v w : well_formed w -> well_formed (upd_app (set_lastFrameTime v) w).
Proof. apply wf_same; reflexivity. Qed.

Lemma wf_generationInProgress v w :
  well_formed w -> well_formed (upd_app (set_generationInProgress v) w).
Proof. apply wf_same; reflexivity. Qed.

Lemma wf_filter_clients f w :
  well_formed w ->
  well_formed (upd_app (fun a => set_clients (filter f (clients a)) a) w).
Proof.
  intros (Hh & Hr & Ht). split; [exact Hh|]. split; [|exact Ht].
  unfold registry_ok. fields. apply NoDup_keys_filter. exact Hr.
Qed.

Lemma wf_Map_set id ws w :
  well_formed w ->
  well_formed (upd_app (fun a => set_clients (Map_set id ws (clients a)) a) w).
Proof.
  intros (Hh & Hr & Ht). split; [exact Hh|]. split; [|exact Ht].
  unfold registry_ok. fields. apply NoDup_keys_Map_set. exact Hr.
Qed.

Lemma wf_removeClient id w : well_formed w -> well_formed (removeClient id w).
Proof.
  intros H. unfold removeClient. apply wf_logger. unfold Map_delete.
  apply (wf_filter_clients (fun e => negb (String.eqb (fst e) id))). exact H.
Qed.

Lemma wf_store_message m now w : well_formed w -> well_formed (store_message m now w).
Proof.
  intros (Hh & Hr & Ht).
  destruct (store_message_rest m now w) as (Hc & _ & _ & _ & _ & _ & _ & _ & _ & Hti & Hn & _).
  split; [|split].
  - unfold history_ok. rewrite store_message_messages.
    destruct (stored_type (type m)); [|exact Hh].
    rewrite slice_last_length. lia.
  - unfold registry_ok. rewrite Hc. exact Hr.
  - unfold timers_ok. rewrite Hti, Hn. exact Ht.
Qed.

Lemma wf_deliver payload e w : well_formed w -> well_formed (deliver payload e w).
Proof.
  intros H. destruct e as [id ws]. unfold deliver.
  destruct (readyState ws =? 1); [|exact H].
  destruct (sendThrows ws).
  - apply wf_removeClient, wf_logger, wf_call. exact H.
  - apply wf_call. exact H.
Qed.

Lemma wf_forEach_deliver payload es : forall w,
  well_formed w -> well_formed (forEach_deliver payload es w).
Proof.
  induction es as [|e es IH]; intros w H; cbn [forEach_deliver]; [exact H|].
  apply IH, wf_deliver. exact H.
Qed.

Lemma wf_broadcast m now w : well_formed w -> well_formed (broadcast m now w).
Proof.
  intros H. unfold broadcast. apply wf_forEach_deliver, wf_call, wf_store_message. exact H.
Qed.

Lemma wf_sendToClient id m w : well_formed w -> well_formed (sendToClient id m w).
Proof.
  intros H. unfold sendToClient.
  destruct (Map_get id (clients (appState w))) as [ws|]; [|exact H].
  destruct (readyState ws =? 1); [|exact H].
  destruct (sendThrows ws).
  - apply wf_removeClient, wf_logger, wf_call, wf_call. exact H.
  - apply wf_call, wf_call. exact H.
Qed.

Lemma wf_addClient ws id now w : well_formed w -> well_formed (addClient ws id now w).
Proof.
  intros H. unfold addClient. apply wf_sendToClient, wf_logger, wf_Map_set. exact H.
Qed.

(** A timer armed with the next handle. *)
Lemma wf_arm due task period w :
  well_formed w ->
  well_formed
    (set_timers (timers w ++ [{| t_id := nextTimer w; t_due := due;
                                 t_task := task; t_period := period |}])
       (S (nextTimer w)) w).
Proof.
  intros (Hh & Hr & Hn & Hf). split; [exact Hh|]. split; [exact Hr|].
  unfold timers_ok. fields. split.
  - rewrite map_app. cbn [map t_id]. apply NoDup_app; [exact Hn|repeat constructor; intros []|].
    intros x Hx [Ek|[]]. subst x. apply in_map_iff in Hx. destruct Hx as [t [Ht Hin]].
    rewrite Forall_forall in Hf. specialize (Hf t Hin). lia.
  - apply Forall_app. split.
    + eapply Forall_impl; [|exact Hf]. cbv beta. intros t Ht. lia.
    + constructor; [cbn [t_id]; lia|constructor].
Qed.

Lemma wf_setTimeout task delay now w :
  well_formed w -> well_formed (snd (setTimeout task delay now w)).
Proof. apply wf_arm. Qed.

Lemma wf_setInterval task delay now w :
  well_formed w -> well_formed (snd (setInterval task delay now w)).
Proof. apply wf_arm. Qed.

Lemma NoDup_ids_filter (f : Timer -> bool) (l : list Timer) :
  NoDup (map t_id l) -> NoDup (map t_id (filter f l)).
Proof.
  induction l as [|a l IH]; cbn [filter map]; intros H; [exact H|].
  inversion H as [|k ks Hk Hks]; subst.
  destruct (f a); cbn [map]; [|apply IH; exact Hks].
  constructor; [|apply IH; exact Hks].
  intros Hin. apply Hk. apply in_map_iff in Hin. destruct Hin as [x [Hx Hin]].
  apply filter_In in Hin. rewrite <- Hx. apply in_map. apply Hin.
Qed.

Lemma wf_clearTimeout h w : well_formed w -> well_formed (clearTimeout h w).
Proof.
  intros (Hh & Hr & Hn & Hf). split; [exact Hh|]. split; [exact Hr|].
  unfold timers_ok, clearTimeout. fields. split.
  - apply NoDup_ids_filter. exact Hn.
  - rewrite Forall_forall in *. intros t Ht. apply filter_In in Ht. apply Hf, Ht.
Qed.

End WellFormed.

Create HintDb wf.

#[export] Hint Resolve
  @wf_logger @wf_call @wf_upd_gen @wf_set_heap @wf_set_inflight @wf_set_rngPos
  @wf_upd_streamer @wf_upd_bot @wf_upd_client @wf_streamStatus @wf_currentStream
  @wf_lastFrameTime @wf_generationInProgress @wf_Map_set @wf_removeClient
  @wf_broadcast @wf_sendToClient @wf_addClient @wf_arm @wf_setTimeout @wf_setInterval
  @wf_clearTimeout : wf.

Ltac wf := cbv beta iota zeta; auto 30 with wf.

Section WellFormedHandlers.
Context {rt : JsRuntime}.

Lemma wf_stopReceiving w : well_formed w -> well_formed (stopReceiving w).
Proof. intros H. unfold stopReceiving. wf. Qed.

Lemma wf_processIncomingFrame fd now w :
  well_formed w -> well_formed (processIncomingFrame fd now w).
Proof.
  intros H. unfold processIncomingFrame.
  destruct (currentStream (appState w)); [|exact H].
  destruct (fd_data fd) as [[|a b]|]; wf.
Qed.

Lemma wf_sendWaitingFrame now w : well_formed w -> well_formed (sendWaitingFrame now w).
Proof.
  intros H. unfold sendWaitingFrame. destruct (negb (hasActiveFrames now w)); wf.
Qed.

Lemma wf_requestGeneration prompt now w :
  well_formed w -> well_formed (requestGeneration prompt now w).
Proof.
  intros H. unfold requestGeneration. destruct (generationInProgress (appState w)); wf.
Qed.

Lemma wf_requestGeneration_catch message now w :
  well_formed w -> well_formed (requestGeneration_catch message now w).
Proof. intros H. unfold requestGeneration_catch. wf. Qed.

Lemma wf_whep_onConnect url now w : well_formed w -> well_formed (whep_onConnect url now w).
Proof. intros H. unfold whep_onConnect. wf. Qed.

Lemma wf_whep_onError message now w :
  well_formed w -> well_formed (whep_onError message now w).
Proof. intros H. unfold whep_onError. wf. Qed.

Lemma wf_whep_onDisconnect reason now w :
  well_formed w -> well_formed (whep_onDisconnect reason now w).
Proof.
  intros H. unfold whep_onDisconnect. cbv zeta.
  apply wf_broadcast, wf_streamStatus, wf_stopReceiving, wf_logger. exact H.
Qed.

Lemma wf_run_callbacks url now cbs : forall w,
  well_formed w -> well_formed (run_callbacks url now cbs w).
Proof.
  unfold run_callbacks. induction cbs as [|cb cbs IH]; intros w H; cbn [fold_left]; [exact H|].
  apply IH. destruct cb; cbn [run_callback].
  - apply wf_whep_onConnect. exact H.
  - apply wf_whep_onDisconnect. exact H.
  - apply wf_whep_onError. exact H.
  - apply wf_processIncomingFrame. exact H.
Qed.

Lemma wf_connect i w : well_formed w -> well_formed (connect i w).
Proof. intros H. unfold connect. destruct (nth_error (heap w) i); wf. Qed.

Lemma wf_disconnect i w : well_formed w -> well_formed (disconnect i w).
Proof.
  intros H. unfold disconnect. destruct (nth_error (heap w) i) as [c|]; [|exact H].
  destruct (peerConnection c); wf.
Qed.

Lemma wf_startWhepConnection url w : well_formed w -> well_formed (startWhepConnection url w).
Proof. intros H. unfold startWhepConnection. cbv zeta. apply wf_connect. wf. Qed.

Lemma wf_startWhepConnection_catch message now w :
  well_formed w -> well_formed (startWhepConnection_catch message now w).
Proof. intros H. unfold startWhepConnection_catch. wf. Qed.

Lemma wf_requestGeneration_resume r now w :
  well_formed w -> well_formed (requestGeneration_resume r now w).
Proof.
  intros H. destruct r; cbn [requestGeneration_resume];
    try (apply wf_requestGeneration_catch; exact H).
  cbv zeta. apply wf_startWhepConnection. wf.
Qed.

Lemma wf_requestGeneration_connected i r now w :
  well_formed w -> well_formed (requestGeneration_connected i r now w).
Proof.
  intros H. unfold requestGeneration_connected.
  destruct (nth_error (heap w) i) as [c|]; [|exact H].
  destruct r as [|message].
  - unfold setTimeout. wf.
  - cbv zeta. apply wf_requestGeneration_catch, wf_startWhepConnection_catch.
    destruct (onError c); [apply wf_whep_onError|]; wf.
Qed.

Lemma wf_handleGenerationTimeout now w :
  well_formed w -> well_formed (handleGenerationTimeout now w).
Proof.
  intros H. unfold handleGenerationTimeout, handleGenerationTimeout_statements, run_statements.
  cbn [fold_left]. wf.
Qed.

Lemma wf_stopCurrentGeneration w : well_formed w -> well_formed (stopCurrentGeneration w).
Proof.
  intros H. unfold stopCurrentGeneration. cbv zeta.
  apply wf_logger, wf_generationInProgress, wf_upd_gen, wf_currentStream,
    wf_streamStatus, wf_stopReceiving.
  assert (H1 : well_formed
                 match generationTimeout (videoGenerator w) with
                 | Some h => upd_gen (set_generationTimeout None) (clearTimeout h w)
                 | None => w
                 end).
  { destruct (generationTimeout (videoGenerator w)); wf. }
  revert H1.
  generalize (match generationTimeout (videoGenerator w) with
              | Some h => upd_gen (set_generationTimeout None) (clearTimeout h w)
              | None => w
              end).
  intros w1 H1. destruct (whepConnection (videoGenerator w1)); [|exact H1].
  apply wf_upd_gen, wf_disconnect. exact H1.
Qed.

Lemma wf_pick l w v y : pick l w = (v, y) -> well_formed w -> well_formed y.
Proof. intros [= _ <-]. apply wf_set_rngPos. Qed.

Lemma wf_generateThought now w : well_formed w -> well_formed (generateThought now w).
Proof.
  intros H. unfold generateThought.
  destruct (pick thoughtPatterns w) as [v y] eqn:E.
  apply (wf_pick _ _ _ _ E) in H. wf.
Qed.

Lemma wf_generatePrompt now w : well_formed w -> well_formed (generatePrompt now w).
Proof.
  intros H. unfold generatePrompt.
  repeat match goal with
  | |- context [pick ?l ?x] =>
      let v := fresh "v" in let y := fresh "w" in let E := fresh "E" in
      destruct (pick l x) as [v y] eqn:E;
      apply (wf_pick _ _ _ _ E) in H; clear E
  end.
  match goal with |- context [set_lastPrompt ?p] => generalize p; intros prompt end.
  wf.
Qed.

Lemma wf_processCycle now w : well_formed w -> well_formed (processCycle now w).
Proof.
  intros H. unfold processCycle. cbv zeta. apply wf_setTimeout, wf_generateThought. exact H.
Qed.

Lemma wf_cycle_prompt now w : well_formed w -> well_formed (cycle_prompt now w).
Proof.
  intros H. rewrite cycle_prompt_eq. apply wf_generatePrompt with (now := now) in H.
  revert H. generalize (generatePrompt now w). intros g H.
  unfold cycle_prompt_check. destruct (negb (hasActiveFrames now g)); wf.
Qed.

Lemma wf_start now w : well_formed w -> well_formed (start now w).
Proof. intros H. unfold start, setInterval. wf. Qed.

Lemma wf_stop w : well_formed w -> well_formed (stop w).
Proof. intros H. unfold stop. destruct (cycleInterval (llmBot (appState w))); wf. Qed.

Lemma wf_run_task t now w : well_formed w -> well_formed (run_task t now w).
Proof.
  intros H. destruct t; cbn [run_task].
  - apply wf_processCycle. exact H.
  - apply wf_cycle_prompt. exact H.
  - apply wf_requestGeneration. exact H.
  - apply wf_handleGenerationTimeout. exact H.
  - destruct (negb (hasActiveFrames now w)); [apply wf_sendWaitingFrame|]; exact H.
  - unfold checkStreamStatus.
    destruct (currentStreamId (videoGenerator w)) as [[|a s]|]; wf.
Qed.

Lemma wf_rearm h due w :
  well_formed w ->
  well_formed
    (set_timers
       (map (fun x => if Nat.eqb (t_id x) h
                      then {| t_id := h; t_due := due;
                              t_task := t_task x; t_period := t_period x |}
                      else x) (timers w))
       (nextTimer w) w).
Proof.
  intros (Hh & Hr & Hn & Hf). split; [exact Hh|]. split; [exact Hr|].
  unfold timers_ok. fields.
  assert (Hid : forall x, t_id (if Nat.eqb (t_id x) h
                                then {| t_id := h; t_due := due;
                                        t_task := t_task x; t_period := t_period x |}
                                else x) = t_id x).
  { intros x. destruct (Nat.eqb_spec (t_id x) h) as [E|E]; [symmetry; exact E|reflexivity]. }
  split.
  - rewrite map_map. rewrite (map_ext _ t_id Hid). exact Hn.
  - rewrite Forall_forall in *. intros t Ht. apply in_map_iff in Ht.
    destruct Ht as [x [<- Hx]]. rewrite Hid. apply Hf, Hx.
Qed.

Lemma wf_fire h now w w' : well_formed w -> fire h now w = Some w' -> well_formed w'.
Proof.
  intros H. unfold fire.
  destruct (find_timer h w) as [t|]; [|discriminate].
  destruct (t_due t <=? now); [|discriminate].
  intros [= <-]. apply wf_run_task.
  destruct (t_period t); [apply wf_rearm|apply wf_clearTimeout]; exact H.
Qed.

Lemma wf_requestGeneration_value p now w :
  well_formed w -> well_formed (requestGeneration_value p now w).
Proof.
  intros H. unfold requestGeneration_value.
  destruct (prompt_text p) as [s|message]; [apply wf_requestGeneration; exact H|].
  destruct (generationInProgress (appState w)); [apply wf_logger; exact H|].
  cbv zeta. apply wf_requestGeneration_catch.
  apply wf_streamStatus, wf_generationInProgress. exact H.
Qed.

Lemma wf_handleClientMessage id v now w w' :
  well_formed w -> handleClientMessage id v now w = Some w' -> well_formed w'.
Proof.
  intros H. unfold handleClientMessage.
  destruct (member "type" v) as [ty|]; [|discriminate].
  destruct (is_label ty "start_generation").
  { destruct (member "prompt" v) as [[p|]|]; intros [= <-]; try exact H.
    destruct (truthy p); [apply wf_requestGeneration_value|]; exact H. }
  destruct (is_label ty "stop_generation").
  { intros [= <-]. apply wf_stopCurrentGeneration. exact H. }
  destruct (is_label ty "get_status"); intros [= <-].
  - apply wf_sendToClient. exact H.
  - apply wf_logger. exact H.
Qed.

Lemma wf_step now e w w' : well_formed w -> step now e w = Some w' -> well_formed w'.
Proof.
  intros H. destruct e; cbn [step].
  - intros [= <-]. cbv zeta. apply wf_setInterval, wf_setInterval, wf_start. exact H.
  - apply wf_fire. exact H.
  - intros [= <-]. destruct (String.eqb prompt ""); [|apply wf_requestGeneration]; exact H.
  - destruct (inflight w); [discriminate|]. intros [= <-].
    apply wf_requestGeneration_resume, wf_set_inflight. exact H.
  - destruct (nth_error (heap w) i) as [c|]; [|discriminate].
    destruct (connecting c); [|discriminate]. intros [= <-].
    apply wf_requestGeneration_connected. exact H.
  - destruct (nth_error (heap w) i) as [c|]; [|discriminate].
    destruct (peerConnection c); [|discriminate].
    destruct (oniceconnectionstatechange state c) as [c' cbs].
    intros [= <-]. apply wf_run_callbacks, wf_logger, wf_upd_client. exact H.
  - destruct (nth_error (heap w) i) as [c|]; [|discriminate].
    intros [= <-]. apply wf_run_callbacks. exact H.
  - intros [= <-]. apply wf_addClient. exact H.
  - intros [= <-]. apply wf_Map_set. exact H.
  - intros [= <-]. unfold on_message.
    destruct (JSON_parse payload) as [v|]; [|apply wf_logger; exact H].
    destruct (handleClientMessage id v now w) as [w1|] eqn:E; [|apply wf_logger; exact H].
    apply (wf_handleClientMessage id v now w w1 H E).
  - intros [= <-]. apply wf_removeClient. exact H.
  - intros [= <-]. apply wf_removeClient, wf_logger. exact H.
  - destruct (Map_get id (clients (appState w))); [|discriminate].
    intros [= <-]. apply wf_Map_set. exact H.
  - intros [= <-]. apply wf_stopCurrentGeneration, wf_stop, wf_logger. exact H.
Qed.

Lemma wf_run events : forall w w',
  well_formed w -> run events w = Some w' -> well_formed w'.
Proof.
  induction events as [|[now e] events IH]; intros w w' H; cbn [run].
  - intros [= <-]. exact H.
  - destruct (step now e w) as [w1|] eqn:E; [|discriminate].
    apply IH. apply (wf_step now e w w1 H E).
Qed.

Lemma wf_initial draws : well_formed (initial draws).
Proof.
  split; [|split; [|split]].
  - unfold history_ok. cbn. lia.
  - constructor.
  - constructor.
  - constructor.
Qed.

End WellFormedHandlers.

(** ** Invariants of every reachable state *)

Section ReachableInvariants.
Context {rt : JsRuntime}.

Lemma wf_reachable draws events w :
  run events (initial draws) = Some w -> well_formed w.
Proof. intros H. apply (wf_run events (initial draws) w (wf_initial draws) H). Qed.

(** X1. Whatever events the server has handled, the stored history
    holds at most 50 records. *)
Theorem reachable_history_bound (draws : nat -> N) (events : list (Z * Event)) (w : World) :
  run events (initial draws) = Some w ->
  (List.length (messages (appState w)) <= 50)%nat.
Proof. intros H. apply (wf_reachable draws events w H). Qed.

(** X2. In every state the server reaches, a broadcast calls [send]
    once on every open socket, in registration order, and the
    registry afterwards is the registry before without the open
    sockets whose [send] threw. *)
Theorem reachable_broadcast (draws : nat -> N) (events : list (Z * Event)) (w : World)
    (m : Message) (now : Z) :
  run events (initial draws) = Some w ->
  let w' := broadcast m now w in
  NoDup (map fst (clients (appState w))) /\
  trace w' = (trace w ++ one_broadcast m (clients (appState w)))%list /\
  clients (appState w') =
    filter (fun e => negb (is_open e && sendThrows (snd e))) (clients (appState w)) /\
  NoDup (map fst (clients (appState w'))).
Proof.
  intros H w'. pose proof (wf_reachable draws events w H) as Hw.
  assert (Hnd : NoDup (map fst (clients (appState w)))) by apply Hw.
  assert (Hc : clients (appState w') =
               filter (fun e => negb (is_open e && sendThrows (snd e)))
                 (clients (appState w))).
  { subst w'. rewrite broadcast_clients. apply filter_ext_in.
    intros c Hin. rewrite (dropped_own _ Hnd c Hin). reflexivity. }
  split; [exact Hnd|]. split; [apply broadcast_trace|]. split; [exact Hc|].
  rewrite Hc. apply NoDup_keys_filter. exact Hnd.
Qed.

Lemma run_task_timers t now w :
  exists extra,
    timers (run_task t now w) = (timers w ++ extra)%list /\
    Forall (fun x => t_id x = nextTimer w) extra.
Proof.
  destruct t; cbn [run_task].
  - exists [one_shot (nextTimer w) (now + 2000) TaskPrompt].
    split; [apply (processCycle_spec now w)|repeat constructor].
  - exists (if hasActiveFrames now w then []
            else [one_shot (nextTimer w) (now + 2000) TaskRequest]).
    split; [apply (cycle_prompt_spec now w)|].
    destruct (hasActiveFrames now w); repeat constructor.
  - exists []. rewrite app_nil_r. split; [apply requestGeneration_timers|constructor].
  - exists []. rewrite app_nil_r. split; [|constructor].
    unfold handleGenerationTimeout, handleGenerationTimeout_statements, run_statements.
    cbn [fold_left]. through. reflexivity.
  - exists []. rewrite app_nil_r. split; [|constructor].
    destruct (negb (hasActiveFrames now w)); [|reflexivity].
    unfold sendWaitingFrame. destruct (negb (hasActiveFrames now w)); [|reflexivity].
    through. reflexivity.
  - exists []. rewrite app_nil_r. split; [|constructor].
    unfold checkStreamStatus.
    destruct (currentStreamId (videoGenerator w)) as [[|a s]|]; reflexivity.
Qed.

Lemma find_cleared h l :
  find (fun t => Nat.eqb (t_id t) h) (filter (fun t => negb (Nat.eqb (t_id t) h)) l) = None.
Proof.
  induction l as [|t l IH]; [reflexivity|]. cbn [filter].
  destruct (Nat.eqb (t_id t) h) eqn:E; cbn [negb find]; [exact IH|].
  rewrite E. exact IH.
Qed.

Lemma find_absent_app h (l extra : list Timer) :
  find (fun t => Nat.eqb (t_id t) h) l = None ->
  Forall (fun x => t_id x <> h) extra ->
  find (fun t => Nat.eqb (t_id t) h) (l ++ extra) = None.
Proof.
  intros Hl Hextra. induction l as [|x l IH]; cbn [app find] in *.
  - induction extra as [|x extra IH]; [reflexivity|].
    inversion Hextra as [|? ? Hx Hrest]; subst. cbn [find].
    destruct (Nat.eqb_spec (t_id x) h); [contradiction|]. apply IH. exact Hrest.
  - destruct (Nat.eqb (t_id x) h); [discriminate Hl|]. apply IH. exact Hl.
Qed.

Lemma filter_absent h (l : list Timer) :
  find (fun t => Nat.eqb (t_id t) h) l = None ->
  filter (fun t => negb (Nat.eqb (t_id t) h)) l = l.
Proof.
  induction l as [|x l IH]; cbn [find filter]; [reflexivity|].
  destruct (Nat.eqb (t_id x) h); [discriminate|]. cbn [negb]. intros Hn.
  rewrite IH by exact Hn. reflexivity.
Qed.

Lemma timers_clearTimeout h w :
  timers (clearTimeout h w) = filter (fun t => negb (Nat.eqb (t_id t) h)) (timers w).
Proof. reflexivity. Qed.

(** X3. A one-shot timer runs at most once: in every state the
    server reaches, when the callback of a one-shot timer has run the
    handle is armed no longer, so it cannot fire again and clearing
    it changes no timer. *)
Theorem one_shot_fires_once (draws : nat -> N) (events : list (Z * Event)) (w w' : World)
    (h : nat) (t : Timer) (now later : Z) :
  run events (initial draws) = Some w ->
  find_timer h w = Some t -> t_period t = None ->
  fire h now w = Some w' ->
  find_timer h w' = None /\ fire h later w' = None /\
  timers (clearTimeout h w') = timers w'.
Proof.
  intros Hrun Hfind Hper Hfire.
  pose proof (wf_reachable draws events w Hrun) as (_ & _ & _ & Hfresh).
  assert (Hlt : (h < nextTimer w)%nat).
  { unfold find_timer in Hfind. apply find_some in Hfind. destruct Hfind as [Hin Hid].
    apply Nat.eqb_eq in Hid. rewrite Forall_forall in Hfresh.
    specialize (Hfresh t Hin). lia. }
  unfold fire in Hfire. rewrite Hfind, Hper in Hfire.
  destruct (t_due t <=? now); [|discriminate]. injection Hfire as <-.
  destruct (run_task_timers (t_task t) now (clearTimeout h w)) as (extra & Ht & Hextra).
  assert (Hnone : find_timer h (run_task (t_task t) now (clearTimeout h w)) = None).
  { unfold find_timer. rewrite Ht, timers_clearTimeout.
    apply find_absent_app; [apply find_cleared|].
    eapply Forall_impl; [|exact Hextra]. cbv beta. intros x Hx.
    replace (nextTimer (clearTimeout h w)) with (nextTimer w) in Hx by reflexivity. lia. }
  split; [exact Hnone|]. split.
  - unfold fire. rewrite Hnone. reflexivity.
  - rewrite timers_clearTimeout. apply filter_absent. exact Hnone.
Qed.

End ReachableInvariants.

Lemma reachable_history_bound_witness :
  (List.length (messages (appState (after first_cycle))) <= 50)%nat.
Proof.
  apply (@reachable_history_bound example_runtime (fun _ => 0%N) first_cycle).
  vm_compute. reflexivity.
Defined.

Lemma reachable_broadcast_witness :
  let m := {| type := "thought"; content := Some "hi"; timestamp := Some 5; data := None |} in
  clients (appState (@broadcast example_runtime m 5 one_broken)) =
  [("a", open_client); ("d", closed_client)].
Proof.
  intros m.
  destruct (@reachable_broadcast example_runtime (fun _ => 0%N)
              [(0, EvConnection "a" open_client);
               (1, EvConnection "b" open_client);
               (2, EvConnection "d" open_client);
               (3, EvTransport "b" broken_client);
               (4, EvTransport "d" closed_client)] one_broken m 5)
    as (_ & _ & Hc & _); [vm_compute; reflexivity|].
  rewrite Hc. vm_compute. reflexivity.
Defined.

Lemma one_shot_fires_once_witness :
  @fire example_runtime 1 1000 (after [(0, EvListen)]) = Some (after first_cycle) /\
  find_timer 1 (after first_cycle) = None /\
  @fire example_runtime 1 2000 (after first_cycle) = None.
Proof.
  assert (Hf : @fire example_runtime 1 1000 (after [(0, EvListen)]) = Some (after first_cycle))
    by (vm_compute; reflexivity).
  split; [exact Hf|].
  destruct (@one_shot_fires_once example_runtime (fun _ => 0%N) [(0, EvListen)]
              (after [(0, EvListen)]) (after first_cycle) 1
              (one_shot 1 1000 TaskCycle) 1000 2000) as (A & B & _);
    try (vm_compute; reflexivity); try exact Hf.
  split; assumption.
Defined.

(** ** Failure of the handshake *)

Lemma serialised_app t1 t2 : serialised (t1 ++ t2) = (serialised t1 ++ serialised t2)%list.
Proof. unfold serialised. apply flat_map_app. Qed.

Section HandshakeFailure.
Context {rt : JsRuntime}.

Lemma serialised_one_broadcast m cs : serialised (one_broadcast m cs) = [m].
Proof.
  unfold one_broadcast, serialised. cbn [flat_map app]. f_equal.
  induction (filter is_open cs) as [|e l IH]; [reflexivity|].
  cbn [map flat_map]. unfold attempt at 1. destruct (sendThrows (snd e)); exact IH.
Qed.

Lemma serialised_broadcast m now w :
  serialised (trace (broadcast m now w)) = (serialised (trace w) ++ [m])%list.
Proof.
  rewrite broadcast_trace. fold (one_broadcast m (clients (appState w))).
  rewrite serialised_app, serialised_one_broadcast. reflexivity.
Qed.

Lemma whep_onError_spec message now w :
  let w' := whep_onError message now w in
  serialised (trace w') =
    (serialised (trace w) ++ [error_message ("WHEP connection error: " ++ message) now])%list /\
  streamStatus (appState w') = Error /\
  generationInProgress (appState w') = generationInProgress (appState w) /\
  timers w' = timers w /\ videoGenerator w' = videoGenerator w /\ heap w' = heap w /\
  currentStream (appState w') = currentStream (appState w).
Proof.
  intros w'. subst w'. unfold whep_onError. cbv zeta. rewrite serialised_broadcast.
  through. repeat split; reflexivity.
Qed.

Lemma startWhepConnection_catch_spec message now w :
  let w' := startWhepConnection_catch message now w in
  serialised (trace w') =
    (serialised (trace w) ++ [error_message ("WHEP connection failed: " ++ message) now])%list /\
  timers w' = timers w /\ videoGenerator w' = videoGenerator w /\ heap w' = heap w /\
  currentStream (appState w') = currentStream (appState w).
Proof.
  intros w'. subst w'. unfold startWhepConnection_catch. cbv zeta.
  rewrite serialised_broadcast. through. repeat split; reflexivity.
Qed.

Lemma requestGeneration_catch_serialised message now w :
  serialised (trace (requestGeneration_catch message now w)) =
  (serialised (trace w) ++ [error_message ("Video generation failed: " ++ message) now])%list.
Proof.
  unfold requestGeneration_catch. cbv zeta. rewrite serialised_broadcast. reflexivity.
Qed.

(** X4. When [connect()] of the signalling client throws, three
    error events are broadcast, in this order: the one of [onError],
    the one of the [catch] of [startWhepConnection] and the one of
    the [catch] of [requestGeneration], each carrying the message.
    The status is Error and the flag is clear; no timer is armed,
    and the generator still refers to the failed client and to the
    stream id. *)
Theorem handshake_failure (i : nat) (c : WHEPClient) (message : string) (now : Z)
    (w : World) :
  nth_error (heap w) i = Some c -> onError c = true ->
  let w' := requestGeneration_connected i (WhepFailed message) now w in
  serialised (trace w') =
    (serialised (trace w) ++
     [error_message ("WHEP connection error: " ++ message) now;
      error_message ("WHEP connection failed: " ++ message) now;
      error_message ("Video generation failed: " ++ message) now])%list /\
  streamStatus (appState w') = Error /\
  generationInProgress (appState w') = false /\
  timers w' = timers w /\
  videoGenerator w' = videoGenerator w /\
  currentStream (appState w') = currentStream (appState w).
Proof.
  intros Hc He w'. subst w'. unfold requestGeneration_connected. rewrite Hc, He.
  cbv zeta.
  set (w0 := logger LError "WHEP connection failed:" (upd_client i (set_connecting false) w)).
  assert (H0 : trace w0 = trace w /\ timers w0 = timers w /\
               videoGenerator w0 = videoGenerator w /\
               currentStream (appState w0) = currentStream (appState w)).
  { subst w0. unfold upd_client. rewrite Hc. repeat split. }
  clearbody w0. destruct H0 as (Ht0 & Hti0 & Hv0 & Hcs0).
  destruct (whep_onError_spec message now w0) as (Ht1 & _ & _ & Hti1 & Hv1 & _ & Hcs1).
  generalize dependent (whep_onError message now w0). intros w1 Ht1 Hti1 Hv1 Hcs1.
  destruct (startWhepConnection_catch_spec message now w1) as (Ht2 & Hti2 & Hv2 & _ & Hcs2).
  generalize dependent (startWhepConnection_catch message now w1).
  intros w2 Ht2 Hti2 Hv2 Hcs2.
  pose proof (requestGeneration_catch_serialised message now w2) as Ht3.
  destruct (requestGeneration_catch_spec message now w2) as (Hs & Hg & _ & Hcs3 & Hv3 & Hti3 & _).
  rewrite Ht3, Ht2, Ht1, Ht0, Hs, Hg, Hti3, Hti2, Hti1, Hti0, Hv3, Hv2, Hv1, Hv0,
    Hcs3, Hcs2, Hcs1, Hcs0, <- !app_assoc.
  repeat split; reflexivity.
Qed.

End HandshakeFailure.

Lemma handshake_failure_witness :
  let w' := @requestGeneration_connected example_runtime 0 (WhepFailed "boom") 3
              handshake_pending in
  sent_to "a" (trace w') =
    (sent_to "a" (trace handshake_pending) ++
     ["error:WHEP connection error: boom";
      "error:WHEP connection failed: boom";
      "error:Video generation failed: boom"])%list /\
  streamStatus (appState w') = Error /\ timers w' = [] /\
  whepConnection (videoGenerator w') = Some 0%nat.
Proof.
  intros w'.
  destruct (@handshake_failure example_runtime 0 (connecting_client (Some "u")) "boom" 3
              handshake_pending) as (_ & Hs & _ & Ht & Hv & _);
    [reflexivity | reflexivity |].
  fold w' in Hs, Ht, Hv. rewrite Ht, Hv.
  repeat split; try assumption; vm_compute; reflexivity.
Defined.

(** ** Stopping *)

Lemma find_filter_other h h' (l : list Timer) :
  h' <> h ->
  find (fun t => Nat.eqb (t_id t) h') (filter (fun t => negb (Nat.eqb (t_id t) h)) l) =
  find (fun t => Nat.eqb (t_id t) h') l.
Proof.
  intros N. induction l as [|x l IH]; [reflexivity|]. cbn [filter find].
  destruct (Nat.eqb_spec (t_id x) h) as [E|E]; cbn [negb find].
  - destruct (Nat.eqb_spec (t_id x) h'); [congruence|exact IH].
  - destruct (Nat.eqb (t_id x) h'); [reflexivity|exact IH].
Qed.

Lemma heap_set_same i c (h : list WHEPClient) :
  nth_error h i = Some c -> heap_set i c h = h.
Proof.
  revert i. induction h as [|x h IH]; intros [|i]; cbn; try discriminate.
  - intros [= ->]. reflexivity.
  - intros H. rewrite IH by exact H. reflexivity.
Qed.

Lemma nth_error_heap_set i c (h : list WHEPClient) x :
  nth_error h i = Some x -> nth_error (heap_set i c h) i = Some c.
Proof.
  revert i. induction h as [|y h IH]; intros [|i]; cbn; try discriminate.
  - reflexivity.
  - apply IH.
Qed.

Lemma heap_set_twice i c c' (h : list WHEPClient) :
  heap_set i c (heap_set i c' h) = heap_set i c h.
Proof.
  revert i. induction h as [|y h IH]; intros [|i]; cbn; try reflexivity.
  rewrite IH. reflexivity.
Qed.

Section Stopping.
Context {rt : JsRuntime}.

(** X5. [stopCurrentGeneration] is idempotent: a second call right
    after a first changes nothing but the log; in particular it is
    safe with no session. *)
Theorem stopCurrentGeneration_idempotent (w : World) :
  unchanged (stopCurrentGeneration w) (stopCurrentGeneration (stopCurrentGeneration w)).
Proof.
  destruct (stopCurrentGeneration_spec w) as (Hs & Hc & Hg & Hf & Hv & _).
  generalize dependent (stopCurrentGeneration w). intros w1 Hs Hc Hg Hf Hv.
  unfold stopCurrentGeneration, stopReceiving. rewrite Hv. cbv beta iota zeta.
  fields. rewrite Hv.
  destruct w1 as [a v hp ti nt inf rg rp tr lg]. fields in Hs. fields in Hc.
  fields in Hg. fields in Hf. fields in Hv. fields.
  destruct a as [cl ms cs st bot fs lft gip]. fields in Hs. fields in Hc.
  fields in Hg. fields in Hf. destruct fs as [hf fc cf]. fields in Hf.
  subst. repeat split; reflexivity.
Qed.

(** X6. [LLMBot.stop()] clears the interval only.  A callback that a
    cycle armed before the stop stays armed, and when it is due it
    still calls [requestGeneration] with the last prompt.  A second
    [stop()] changes nothing but the log. *)
Theorem bot_stop_keeps_pending (h h' : nat) (due now : Z) (w : World) :
  cycleInterval (llmBot (appState w)) = Some h ->
  find_timer h' w = Some (one_shot h' due TaskRequest) ->
  h' <> h -> due <= now ->
  find_timer h (stop w) = None /\
  find_timer h' (stop w) = Some (one_shot h' due TaskRequest) /\
  fire h' now (stop w) =
    Some (requestGeneration (lastPrompt (llmBot (appState w))) now
            (clearTimeout h' (stop w))) /\
  unchanged (stop w) (stop (stop w)).
Proof.
  intros Hc Hf N Hdue.
  assert (Hstop : stop w = logger LInfo "LLM Bot cycle stopped"
                             (upd_bot (set_cycleInterval None) (clearTimeout h w))).
  { unfold stop. rewrite Hc. reflexivity. }
  assert (H1 : find_timer h (stop w) = None).
  { rewrite Hstop. unfold find_timer. fields. apply find_cleared. }
  assert (H2 : find_timer h' (stop w) = Some (one_shot h' due TaskRequest)).
  { rewrite Hstop. unfold find_timer. fields. rewrite find_filter_other by exact N.
    exact Hf. }
  split; [exact H1|]. split; [exact H2|]. split.
  - rewrite (fire_one_shot h' due TaskRequest now (stop w) H2).
    destruct (Z.leb_spec due now); [|lia]. cbn [run_task]. unfold cycle_request.
    rewrite Hstop. reflexivity.
  - rewrite Hstop. unfold stop at 1. fields. repeat split; reflexivity.
Qed.

(** X7. [WHEPClient.disconnect()] closes the peer connection at most
    once: after it the client holds no connection and is not
    connected, the frame interval delivers nothing more, and a second
    call changes nothing but the log. *)
Theorem disconnect_idempotent (i : nat) (c : WHEPClient) (fd : FrameData) (w : World) :
  nth_error (heap w) i = Some c ->
  let w1 := disconnect i w in
  (exists c', nth_error (heap w1) i = Some c' /\
              peerConnection c' = false /\ isConnected c' = false /\
              frame_tick fd c' = []) /\
  trace w1 = (trace w ++ if peerConnection c then [CWhepClose i] else [])%list /\
  unchanged w1 (disconnect i w1).
Proof.
  intros Hc w1.
  set (c1 := set_isConnected false (if peerConnection c then set_peerConnection false c else c)).
  assert (Hh : heap w1 = heap_set i c1 (heap w)).
  { subst w1 c1. unfold disconnect. rewrite Hc.
    destruct (peerConnection c); unfold upd_client; fields; rewrite Hc; fields.
    - rewrite (nth_error_heap_set i _ (heap w) c Hc). fields.
      rewrite heap_set_twice. reflexivity.
    - reflexivity. }
  assert (Hn : nth_error (heap w1) i = Some c1).
  { rewrite Hh. apply (nth_error_heap_set i c1 (heap w) c Hc). }
  assert (Hp : peerConnection c1 = false).
  { subst c1. destruct (peerConnection c) eqn:E; cbn; [reflexivity|exact E]. }
  split; [|split].
  - exists c1. split; [exact Hn|]. split; [exact Hp|]. split; reflexivity.
  - subst w1. unfold disconnect. rewrite Hc.
    destruct (peerConnection c); unfold upd_client; fields; rewrite Hc; fields.
    + rewrite (nth_error_heap_set i _ (heap w) c Hc). reflexivity.
    + rewrite app_nil_r. reflexivity.
  - generalize dependent w1. intros w1 Hh Hn.
    unfold disconnect. rewrite Hn, Hp. unfold upd_client. rewrite Hn. fields.
    assert (Hsame : set_isConnected false c1 = c1).
    { subst c1. destruct (peerConnection c); destruct c; reflexivity. }
    rewrite Hsame, (heap_set_same i c1 (heap w1) Hn). repeat split; reflexivity.
Qed.

End Stopping.

Lemma bot_stop_keeps_pending_witness :
  let w := after frames_during_wait in
  find_timer 0 (stop w) = None /\
  find_timer 6 (stop w) = Some (one_shot 6 5000 TaskRequest) /\
  @fire example_runtime 6 5000 (stop w) =
    Some (@requestGeneration example_runtime (lastPrompt (llmBot (appState w))) 5000
            (clearTimeout 6 (stop w))).
Proof.
  intros w.
  assert (H1 : cycleInterval (llmBot (appState w)) = Some 0%nat) by (vm_compute; reflexivity).
  assert (H2 : find_timer 6 w = Some (one_shot 6 5000 TaskRequest))
    by (vm_compute; reflexivity).
  assert (H3 : 6%nat <> 0%nat) by discriminate.
  assert (H4 : 5000 <= 5000) by lia.
  destruct (@bot_stop_keeps_pending example_runtime 0 6 5000 5000 w H1 H2 H3 H4)
    as (A & B & C & _).
  split; [exact A|]. split; [exact B|exact C].
Defined.

Lemma disconnect_idempotent_witness :
  let w1 := disconnect 0 active_stream in
  trace w1 = (trace active_stream ++ [CWhepClose 0])%list /\
  unchanged w1 (disconnect 0 w1).
Proof.
  intros w1.
  destruct (disconnect_idempotent 0 (set_isConnected true wired_client)
              a_frame active_stream) as (_ & Ht & Hu).
  - vm_compute. reflexivity.
  - split; [exact Ht|exact Hu].
Defined.

(** ** The registry *)

Lemma Map_get_set_same {V} k (v : V) m : Map_get k (Map_set k v m) = Some v.
Proof.
  induction m as [|[k' v'] m IH]; cbn [Map_set Map_get].
  - rewrite String.eqb_refl. reflexivity.
  - destruct (String.eqb_spec k' k) as [->|N]; cbn [Map_get].
    + rewrite String.eqb_refl. reflexivity.
    + destruct (String.eqb_spec k' k); [contradiction|exact IH].
Qed.

Lemma Map_get_set_other {V} k k' (v : V) m :
  k' <> k -> Map_get k' (Map_set k v m) = Map_get k' m.
Proof.
  intros N. induction m as [|[k0 v0] m IH]; cbn [Map_set Map_get].
  - destruct (String.eqb_spec k k'); [congruence|reflexivity].
  - destruct (String.eqb_spec k0 k) as [->|N0]; cbn [Map_get].
    + destruct (String.eqb_spec k k'); [congruence|reflexivity].
    + destruct (String.eqb k0 k'); [reflexivity|exact IH].
Qed.

Lemma Map_get_delete_same {V} k (m : list (string * V)) : Map_get k (Map_delete k m) = None.
Proof.
  unfold Map_delete. induction m as [|[k' v'] m IH]; cbn [filter Map_get fst]; [reflexivity|].
  destruct (String.eqb_spec k' k) as [->|N]; cbn [negb Map_get]; [exact IH|].
  destruct (String.eqb_spec k' k); [contradiction|exact IH].
Qed.

Lemma Map_get_delete_other {V} k k' (m : list (string * V)) :
  k' <> k -> Map_get k' (Map_delete k m) = Map_get k' m.
Proof.
  intros N. unfold Map_delete.
  induction m as [|[k0 v0] m IH]; cbn [filter Map_get fst]; [reflexivity|].
  destruct (String.eqb_spec k0 k) as [->|N0]; cbn [negb Map_get].
  - destruct (String.eqb_spec k k'); [congruence|exact IH].
  - destruct (String.eqb k0 k'); [reflexivity|exact IH].
Qed.

Lemma Map_delete_absent {V} k (m : list (string * V)) :
  Map_get k m = None -> Map_delete k m = m.
Proof.
  unfold Map_delete. induction m as [|[k' v'] m IH]; cbn [filter Map_get fst]; [reflexivity|].
  destruct (String.eqb k' k); [discriminate|]. cbn [negb]. intros H.
  rewrite IH by exact H. reflexivity.
Qed.

Lemma sent_to_app id t1 t2 : sent_to id (t1 ++ t2) = (sent_to id t1 ++ sent_to id t2)%list.
Proof. unfold sent_to. apply flat_map_app. Qed.

Section Registry.
Context {rt : JsRuntime}.

(** X8. [sendToClient] is a unicast with the failure handling of
    [broadcast].  To an unknown or a not open client it does
    nothing at all.  To an open one it serialises the message and
    calls [send] on that socket only; if [send] throws the client is
    removed.  No other client receives anything or is removed, and
    the history is untouched. *)
Theorem sendToClient_isolation (id : string) (m : Message) (ws : Client) (w : World) :
  let w' := sendToClient id m w in
  (Map_get id (clients (appState w)) = None -> w' = w) /\
  (Map_get id (clients (appState w)) = Some ws -> (readyState ws =? 1) = false -> w' = w) /\
  (Map_get id (clients (appState w)) = Some ws -> (readyState ws =? 1) = true ->
   sendThrows ws = true ->
   Map_get id (clients (appState w')) = None /\
   trace w' = (trace w ++ [CStringify m; CSendThrew id (JSON_stringify m)])%list) /\
  (Map_get id (clients (appState w)) = Some ws -> (readyState ws =? 1) = true ->
   sendThrows ws = false ->
   clients (appState w') = clients (appState w) /\
   trace w' = (trace w ++ [CStringify m; CSend id (JSON_stringify m)])%list) /\
  (forall id', id' <> id ->
     Map_get id' (clients (appState w')) = Map_get id' (clients (appState w)) /\
     sent_to id' (trace w') = sent_to id' (trace w)) /\
  messages (appState w') = messages (appState w).
Proof.
  intros w'. subst w'. unfold sendToClient.
  split; [intros ->; reflexivity|].
  split; [intros -> ->; reflexivity|].
  split; [intros -> -> ->; unfold removeClient; fields;
          split; [apply Map_get_delete_same|rewrite <- app_assoc; reflexivity]|].
  split; [intros -> -> ->; fields;
          split; [reflexivity|rewrite <- app_assoc; reflexivity]|].
  destruct (Map_get id (clients (appState w))) as [ws'|] eqn:E;
    [|repeat split; reflexivity].
  destruct (readyState ws' =? 1); [|repeat split; reflexivity].
  destruct (sendThrows ws'); unfold removeClient; fields.
  - split; [|reflexivity].
    intros id' N. split; [apply Map_get_delete_other; exact N|].
    rewrite <- app_assoc, sent_to_app. cbn. apply app_nil_r.
  - split; [|reflexivity].
    intros id' N. split; [reflexivity|].
    rewrite <- app_assoc, sent_to_app. cbn.
    destruct (String.eqb_spec id id'); [congruence|apply app_nil_r].
Qed.

(** X9. [addClient] registers the socket under its id, leaving the
    other entries as they are, and sends the snapshot of the current
    status to it alone.  A socket whose [send] throws is removed at
    once; a socket that is not open is registered without a
    snapshot. *)
Theorem addClient_greets (ws : Client) (id : string) (now : Z) (w : World) :
  let w' := addClient ws id now w in
  (forall id', id' <> id ->
     Map_get id' (clients (appState w')) = Map_get id' (clients (appState w)) /\
     sent_to id' (trace w') = sent_to id' (trace w)) /\
  ((readyState ws =? 1) = true -> sendThrows ws = false ->
   Map_get id (clients (appState w')) = Some ws /\
   trace w' = (trace w ++ [CStringify (greeting w);
                           CSend id (JSON_stringify (greeting w))])%list) /\
  ((readyState ws =? 1) = true -> sendThrows ws = true ->
   Map_get id (clients (appState w')) = None) /\
  ((readyState ws =? 1) = false ->
   Map_get id (clients (appState w')) = Some ws /\ trace w' = trace w).
Proof.
  intros w'. subst w'. unfold addClient. cbv zeta.
  set (w2 := logger LInfo ("Client connected: " ++ id)
               (upd_app (fun a => set_clients (Map_set id ws (clients a)) a) w)).
  assert (Hget : Map_get id (clients (appState w2)) = Some ws)
    by (subst w2; fields; apply Map_get_set_same).
  assert (Hother : forall id', id' <> id ->
            Map_get id' (clients (appState w2)) = Map_get id' (clients (appState w)))
    by (intros id' N; subst w2; fields; apply Map_get_set_other; exact N).
  assert (Htr : trace w2 = trace w) by reflexivity.
  assert (Hgr : {| type := "connection_established"; content := None; timestamp := None;
                   data := Some (ConnectionPayload (streamStatus (appState w2))
                                   match currentStream (appState w2) with
                                   | Some _ => true | None => false end) |} = greeting w)
    by reflexivity.
  rewrite Hgr. clearbody w2. generalize (greeting w). intros g.
  unfold sendToClient. rewrite Hget.
  destruct (readyState ws =? 1).
  2:{ split; [intros id' N; split; [apply Hother; exact N|rewrite Htr; reflexivity]|].
      split; [discriminate|]. split; [discriminate|].
      intros _. split; [exact Hget|exact Htr]. }
  destruct (sendThrows ws); unfold removeClient; fields; rewrite Htr.
  - split.
    + intros id' N. rewrite Map_get_delete_other by exact N.
      split; [apply Hother; exact N|].
      rewrite <- app_assoc, sent_to_app. cbn. apply app_nil_r.
    + split; [discriminate|]. split; [|discriminate].
      intros _ _. apply Map_get_delete_same.
  - split.
    + intros id' N. split; [apply Hother; exact N|].
      rewrite <- app_assoc, sent_to_app. cbn.
      destruct (String.eqb_spec id id'); [congruence|apply app_nil_r].
    + split; [|split; discriminate].
      intros _ _. split; [exact Hget|rewrite <- app_assoc; reflexivity].
Qed.

(** X10. [removeClient] deletes the entry of the id and no other:
    the id is unknown afterwards, every other id maps to what it
    mapped to, removing an unknown id leaves the registry as it is,
    and a second removal changes nothing but the log. *)
Theorem removeClient_idempotent (id : string) (w : World) :
  let w' := removeClient id w in
  Map_get id (clients (appState w')) = None /\
  (forall id', id' <> id ->
     Map_get id' (clients (appState w')) = Map_get id' (clients (appState w))) /\
  (Map_get id (clients (appState w)) = None ->
   clients (appState w') = clients (appState w)) /\
  unchanged w' (removeClient id w') /\
  trace w' = trace w.
Proof.
  intros w'. subst w'. unfold removeClient. fields.
  split; [apply Map_get_delete_same|].
  split; [intros id' N; apply Map_get_delete_other; exact N|].
  split; [apply Map_delete_absent|].
  split; [|reflexivity].
  unfold unchanged. fields.
  rewrite (Map_delete_absent id (Map_delete id (clients (appState w))))
    by apply Map_get_delete_same.
  repeat split; reflexivity.
Qed.

End Registry.

Lemma sendToClient_isolation_witness :
  let m := {| type := "status_response"; content := None; timestamp := None; data := None |} in
  @sendToClient example_runtime "zz" m one_broken = one_broken /\
  @sendToClient example_runtime "d" m one_broken = one_broken /\
  Map_get "b" (clients (appState (@sendToClient example_runtime "b" m one_broken))) = None /\
  trace (@sendToClient example_runtime "a" m one_broken) =
    (trace one_broken ++ [CStringify m; CSend "a" "status_response:"])%list /\
  sent_to "a" (trace (@sendToClient example_runtime "b" m one_broken))
    = sent_to "a" (trace one_broken).
Proof.
  intros m.
  destruct (@sendToClient_isolation example_runtime "zz" m open_client one_broken)
    as (A & _).
  destruct (@sendToClient_isolation example_runtime "d" m closed_client one_broken)
    as (_ & B & _).
  destruct (@sendToClient_isolation example_runtime "b" m broken_client one_broken)
    as (_ & _ & C & _ & E & _).
  destruct (@sendToClient_isolation example_runtime "a" m open_client one_broken)
    as (_ & _ & _ & D & _).
  assert (N : "a" <> "b") by discriminate.
  assert (Ha : Map_get "a" (clients (appState one_broken)) = Some open_client)
    by (vm_compute; reflexivity).
  assert (Hb : Map_get "b" (clients (appState one_broken)) = Some broken_client)
    by (vm_compute; reflexivity).
  assert (Hd : Map_get "d" (clients (appState one_broken)) = Some closed_client)
    by (vm_compute; reflexivity).
  assert (Hz : Map_get "zz" (clients (appState one_broken)) = None)
    by (vm_compute; reflexivity).
  split; [exact (A Hz)|].
  split; [exact (B Hd eq_refl)|].
  split; [exact (proj1 (C Hb eq_refl eq_refl))|].
  split; [exact (proj2 (D Ha eq_refl eq_refl))|].
  exact (proj2 (E "a" N)).
Defined.

Lemma addClient_greets_witness :
  let w' := @addClient example_runtime open_client "e" 7 three_clients in
  sent_to "a" (trace w') = sent_to "a" (trace three_clients) /\
  Map_get "e" (clients (appState w')) = Some open_client /\
  trace w' = (trace three_clients ++
              [CStringify (greeting three_clients); CSend "e" "connection_established:"])%list /\
  Map_get "e" (clients (appState
     (@addClient example_runtime broken_client "e" 7 three_clients))) = None /\
  trace (@addClient example_runtime closed_client "e" 7 three_clients) = trace three_clients.
Proof.
  intros w'.
  destruct (@addClient_greets example_runtime open_client "e" 7 three_clients)
    as (A & B & _).
  destruct (@addClient_greets example_runtime broken_client "e" 7 three_clients)
    as (_ & _ & C & _).
  destruct (@addClient_greets example_runtime closed_client "e" 7 three_clients)
    as (_ & _ & _ & D).
  assert (N : "a" <> "e") by discriminate.
  split; [exact (proj2 (A "a" N))|].
  split; [exact (proj1 (B eq_refl eq_refl))|]. split; [exact (proj2 (B eq_refl eq_refl))|].
  split; [exact (C eq_refl eq_refl)|]. exact (proj2 (D eq_refl)).
Defined.

Lemma removeClient_idempotent_witness :
  let w' := removeClient "a" three_clients in
  Map_get "a" (clients (appState w')) = None /\
  Map_get "c" (clients (appState w')) = Some open_client /\
  clients (appState (removeClient "zz" three_clients)) = clients (appState three_clients) /\
  unchanged w' (removeClient "a" w').
Proof.
  intros w'.
  destruct (removeClient_idempotent "a" three_clients) as (A & B & _ & D & _).
  destruct (removeClient_idempotent "zz" three_clients) as (_ & _ & C & _).
  assert (N : "c" <> "a") by discriminate.
  subst w'.
  split; [exact A|]. split; [rewrite (B "c" N); vm_compute; reflexivity|].
  split; [apply C; vm_compute; reflexivity|exact D].
Defined.

(** ** Frames *)

Section Frames.
Context {rt : JsRuntime}.

Lemma processIncomingFrame_spec fd now cs w :
  currentStream (appState w) = Some cs ->
  let w' := processIncomingFrame fd now w in
  frameCount (frameStreamer (appState w')) = frameCount (frameStreamer (appState w)) + 1 /\
  serialised (trace w') =
    (serialised (trace w) ++
     [frame_message cs (frameCount (frameStreamer (appState w)) + 1) fd now])%list /\
  messages (appState w') = messages (appState w) /\
  rngPos w' = rngPos w /\
  currentStream (appState w') = Some cs /\
  streamStatus (appState w') = streamStatus (appState w) /\
  currentFrame (frameStreamer (appState w')) =
    match fd_data fd with
    | Some (String a b) => Some ("data:image/jpeg;base64," ++ String a b)
    | _ => currentFrame (frameStreamer (appState w))
    end.
Proof.
  intros Hcs w'. subst w'. unfold processIncomingFrame, frame_message.
  rewrite Hcs. cbv zeta.
  destruct (fd_data fd) as [[|a b]|];
    rewrite serialised_broadcast, broadcast_messages;
    match goal with
    | |- context [rngPos (broadcast ?m ?n ?x)] =>
        destruct (broadcast_rng m n x) as [_ Hp]; rewrite Hp; clear Hp
    end;
    cbn [stored_type type existsb String.eqb Ascii.eqb Bool.eqb orb];
    through; rewrite Hcs; repeat split; reflexivity.
Qed.

Lemma frames_spec cs fds : forall w,
  currentStream (appState w) = Some cs ->
  frameCount (frameStreamer (appState (frames fds w))) =
    frameCount (frameStreamer (appState w)) + Z.of_nat (List.length fds) /\
  serialised (trace (frames fds w)) =
    (serialised (trace w) ++
     frame_messages cs (frameCount (frameStreamer (appState w))) fds)%list /\
  messages (appState (frames fds w)) = messages (appState w).
Proof.
  induction fds as [|[fd now] fds IH]; intros w Hcs; cbn [frames frame_messages List.length].
  - rewrite app_nil_r. repeat split; lia.
  - destruct (processIncomingFrame_spec fd now cs w Hcs) as (Hn & Ht & Hm & _ & Hcs' & _).
    destruct (IH (processIncomingFrame fd now w) Hcs') as (A & B & C).
    rewrite A, B, C, Hn, Ht, Hm, <- app_assoc. repeat split; try reflexivity. lia.
Qed.

(** X11. With no current stream a frame is dropped: nothing at all
    changes.  With a stream every frame is counted and broadcast
    with the stream id and its count, so the frames of a run carry
    consecutive numbers, continuing the count before; frame events
    never enter the history. *)
Theorem frames_numbered (cs : CurrentStream) (fd : FrameData) (now : Z)
    (fds : list (FrameData * Z)) (w : World) :
  (currentStream (appState w) = None -> processIncomingFrame fd now w = w) /\
  (currentStream (appState w) = Some cs ->
   frameCount (frameStreamer (appState (frames fds w))) =
     frameCount (frameStreamer (appState w)) + Z.of_nat (List.length fds) /\
   serialised (trace (frames fds w)) =
     (serialised (trace w) ++
      frame_messages cs (frameCount (frameStreamer (appState w))) fds)%list /\
   messages (appState (frames fds w)) = messages (appState w)).
Proof.
  split.
  - intros H. unfold processIncomingFrame. rewrite H. reflexivity.
  - apply frames_spec.
Qed.

(** X12. [sendWaitingFrame] does nothing at all while the streamer
    is live.  Otherwise it broadcasts one waiting event, which is
    not stored in the history and changes neither the status nor
    the liveness. *)
Theorem waiting_frame_only_when_stale (now : Z) (w : World) :
  (hasActiveFrames now w = true -> sendWaitingFrame now w = w) /\
  (hasActiveFrames now w = false ->
   let w' := sendWaitingFrame now w in
   serialised (trace w') =
     (serialised (trace w) ++
      [{| type := "waiting_frame"; content := None; timestamp := None;
          data := Some (WaitingPayload "Waiting for video frames..." now) |}])%list /\
   messages (appState w') = messages (appState w) /\
   streamStatus (appState w') = streamStatus (appState w) /\
   hasActiveFrames now w' = false).
Proof.
  unfold sendWaitingFrame. split; intros H; rewrite H; cbn [negb]; [reflexivity|].
  cbv zeta. rewrite serialised_broadcast, broadcast_messages, broadcast_streamStatus.
  unfold hasActiveFrames in *. rewrite broadcast_frameStreamer, broadcast_lastFrameTime.
  repeat split; try reflexivity. exact H.
Qed.

End Frames.

Lemma frames_numbered_witness :
  @processIncomingFrame example_runtime a_frame 5 three_clients = three_clients /\
  let w' := @frames example_runtime [(a_frame, 10); (a_frame, 20)] active_stream in
  frameCount (frameStreamer (appState w')) = 2 /\
  messages (appState w') = messages (appState active_stream).
Proof.
  pose proof (@frames_numbered example_runtime
                {| cs_id := Some "s1"; cs_whepUrl := Some "u"; cs_startTime := 3 |}
                a_frame 5 [] three_clients) as (A & _).
  pose proof (@frames_numbered example_runtime
                {| cs_id := Some "s1"; cs_whepUrl := Some "u"; cs_startTime := 3 |}
                a_frame 5 [(a_frame, 10); (a_frame, 20)] active_stream) as (_ & B).
  split; [apply A; reflexivity|].
  destruct B as (B1 & _ & B3); [vm_compute; reflexivity|].
  intros w'. subst w'. split; [rewrite B1; vm_compute; reflexivity|exact B3].
Defined.

Lemma waiting_frame_only_when_stale_witness :
  @sendWaitingFrame example_runtime 5000 (after frames_during_wait)
    = after frames_during_wait /\
  messages (appState (@sendWaitingFrame example_runtime 9000 (after frames_during_wait)))
    = messages (appState (after frames_during_wait)).
Proof.
  pose proof (@waiting_frame_only_when_stale example_runtime 5000 (after frames_during_wait))
    as (A & _).
  pose proof (@waiting_frame_only_when_stale example_runtime 9000 (after frames_during_wait))
    as (_ & B).
  split; [apply A; vm_compute; reflexivity|].
  apply B. vm_compute. reflexivity.
Defined.

(** ** Messages that are ignored *)

Section IgnoredMessages.
Context {rt : JsRuntime}.

(** X13. A client message that parses but asks for nothing changes
    nothing but the log: a value that is no object (for null the
    handler throws and the listener logs the error; for a number, a
    string, a boolean or an array the type is undefined), and an
    object whose type is none of the three known ones, are logged
    and dropped; a start_generation message without a prompt, or
    with a falsy one, is dropped without a log line.  No request is
    made and no client is told. *)
Theorem ignored_messages (id payload : string) (v : Json) (now : Z) (w : World) :
  JSON_parse payload = Some v ->
  let w' := on_message id payload now w in
  ((forall ms, v <> JObj ms) -> unchanged w w' /\ exists line, logs w' = (logs w ++ [line])%list) /\
  (forall ms, v = JObj ms ->
     is_label (Map_get "type" ms) "start_generation" = false ->
     is_label (Map_get "type" ms) "stop_generation" = false ->
     is_label (Map_get "type" ms) "get_status" = false ->
     unchanged w w' /\
     logs w' =
       (logs w ++ [(LWarn, ("Unknown message type from client " ++ id ++ ":")%string)])%list) /\
  (forall ms, v = JObj ms ->
     is_label (Map_get "type" ms) "start_generation" = true ->
     (Map_get "prompt" ms = None \/
      exists p, Map_get "prompt" ms = Some p /\ truthy p = false) ->
     w' = w).
Proof.
  intros Hp w'. subst w'. unfold on_message. rewrite Hp. split; [|split].
  - intros Hno. destruct v as [| b | z | s | l | ms];
      try (split; [repeat split|eexists; reflexivity]).
    exfalso. apply (Hno ms). reflexivity.
  - intros ms -> H1 H2 H3. unfold handleClientMessage. cbn [member].
    rewrite H1, H2, H3. split; [repeat split|reflexivity].
  - intros ms -> H1 Hprompt. unfold handleClientMessage. cbn [member].
    rewrite H1. destruct Hprompt as [-> | [p [-> Hf]]]; [reflexivity|].
    rewrite Hf. reflexivity.
Qed.

End IgnoredMessages.

Lemma ignored_messages_witness :
  unchanged active_stream (@on_message object_runtime "a" "null" 9 active_stream) /\
  unchanged active_stream (@on_message object_runtime "a" "7" 9 active_stream) /\
  logs (@on_message object_runtime "a" "{}" 9 active_stream) =
    (logs active_stream ++ [(LWarn, "Unknown message type from client a:")])%list /\
  @on_message object_runtime "a" start_text 9 active_stream = active_stream.
Proof.
  destruct (@ignored_messages object_runtime "a" "null" JNull 9 active_stream eq_refl)
    as (A & _).
  destruct (@ignored_messages object_runtime "a" "7" (JNum 7) 9 active_stream eq_refl)
    as (B & _).
  destruct (@ignored_messages object_runtime "a" "{}" (JObj []) 9 active_stream eq_refl)
    as (_ & C & _).
  destruct (@ignored_messages object_runtime "a" start_text
              (JObj [("type", JStr "start_generation")]) 9 active_stream eq_refl)
    as (_ & _ & D).
  split; [apply A; intros ms; discriminate|].
  split; [apply B; intros ms; discriminate|].
  split; [apply (C [] eq_refl eq_refl eq_refl eq_refl)|].
  apply (D _ eq_refl eq_refl). left. reflexivity.
Defined.

(** ** The generated prompt *)

Lemma has_char_app c x y : has_char c (x ++ y) = has_char c x || has_char c y.
Proof.
  induction x as [|a x IH]; cbn [append has_char]; [reflexivity|].
  rewrite IH. apply orb_assoc.
Qed.

Lemma append_empty (s : string) : s ++ "" = s.
Proof. induction s as [|a s IH]; cbn [append]; [reflexivity|]. rewrite IH. reflexivity. Qed.

Lemma starts_with_app p s : starts_with p (p ++ s) = true.
Proof.
  induction p as [|a p IH]; cbn [append starts_with]; [reflexivity|].
  rewrite Ascii.eqb_refl, IH. reflexivity.
Qed.

Lemma drop_chars_app p s : drop_chars (String.length p) (p ++ s) = s.
Proof. induction p as [|a p IH]; cbn [append String.length drop_chars]; [reflexivity|exact IH]. Qed.

(** The placeholder is at the front. *)
Lemma replace_hit a p rep s :
  replace (String a p) rep (String a p ++ s) = rep ++ s.
Proof.
  cbn [append]. cbn [replace].
  change (String a (p ++ s)) with (String a p ++ s).
  rewrite starts_with_app, drop_chars_app. reflexivity.
Qed.

(** A text without a brace is passed over. *)
Lemma replace_skip p rep x s :
  has_char brace x = false ->
  replace (String brace p) rep (x ++ s) = x ++ replace (String brace p) rep s.
Proof.
  induction x as [|a x IH]; cbn [append has_char]; intros H; [reflexivity|].
  apply orb_false_iff in H. destruct H as [Ha Hx].
  cbn [replace starts_with]. rewrite (Ascii.eqb_sym brace a), Ha. cbn [andb].
  rewrite IH by exact Hx. reflexivity.
Qed.

Lemma replace_nil p rep : replace (String brace p) rep "" = "".
Proof. reflexivity. Qed.

Ltac no_brace :=
  repeat rewrite has_char_app;
  repeat match goal with H : has_char brace _ = false |- _ => rewrite H end;
  reflexivity.

Ltac pass := repeat (rewrite replace_skip by no_brace); rewrite ?replace_nil.

Lemma fill_scene a s e st env vis atm :
  has_char brace a = false -> has_char brace s = false ->
  has_char brace e = false -> has_char brace st = false ->
  fill "A {adjective} {setting} with {elements}, {style} style, {technical_specs}"
       a s e st env vis atm = prompt_scene a s e st.
Proof.
  intros Ha Hs He Hst. unfold fill. cbv zeta.
  change "A {adjective} {setting} with {elements}, {style} style, {technical_specs}"
    with ("A " ++ ("{adjective}" ++ (" " ++ ("{setting}" ++ (" with " ++ ("{elements}" ++
          (", " ++ ("{style}" ++ (" style, " ++ ("{technical_specs}" ++ "")))))))))).
  pass. rewrite replace_hit.
  pass. rewrite replace_hit.
  pass. rewrite replace_hit.
  pass. rewrite replace_hit.
  pass. rewrite replace_hit.
  pass. pass. pass. pass. pass. pass. pass. pass. pass.
  unfold prompt_scene. reflexivity.
Qed.

Lemma fill_action a s e st env vis atm :
  has_char brace env = false -> has_char brace vis = false ->
  has_char brace atm = false ->
  fill "{action} in a {environment}, featuring {visual_elements}, {atmosphere}"
       a s e st env vis atm = prompt_action env vis atm.
Proof.
  intros He Hv Ha. unfold fill. cbv zeta.
  set (t := "{action} in a {environment}, featuring {visual_elements}, {atmosphere}").
  assert (E1 : forall r, replace "{adjective}" r t = t) by reflexivity.
  assert (E2 : forall r, replace "{setting}" r t = t) by reflexivity.
  assert (E3 : forall r, replace "{elements}" r t = t) by reflexivity.
  assert (E4 : forall r, replace "{style}" r t = t) by reflexivity.
  assert (E5 : forall r, replace "{technical_specs}" r t = t) by reflexivity.
  rewrite E1, E2, E3, E4, E5. subst t.
  change "{action} in a {environment}, featuring {visual_elements}, {atmosphere}"
    with ("{action}" ++ (" in a " ++ ("{environment}" ++ (", featuring " ++
          ("{visual_elements}" ++ (", " ++ ("{atmosphere}" ++ ""))))))).
  rewrite replace_hit.
  pass. rewrite replace_hit.
  pass. rewrite replace_hit.
  pass. rewrite replace_hit.
  pass. pass. pass. pass. pass.
  rewrite append_empty. unfold prompt_action. reflexivity.
Qed.

Lemma fill_abstract a s e st env vis atm :
  fill "{concept} with {colors} and {effects}, {mood} lighting, {format}"
       a s e st env vis atm = prompt_abstract.
Proof. reflexivity. Qed.

Lemma round_double_below k n :
  (k < 2 ^ 53)%N -> (0 < n)%N -> (round_double (k * n) < n * 2 ^ 53)%N.
Proof.
  intros Hk Hn. unfold round_double.
  set (P := (2 ^ 53)%N) in *.
  assert (HP : (0 < P)%N) by (subst P; reflexivity).
  assert (Hm : (k * n + n <= n * P)%N) by nia.
  generalize dependent (k * n)%N. intros m Hm.
  destruct (N.ltb_spec (N.log2 m) 53) as [He|He].
  - destruct (N.eq_dec m 0) as [->|Hz]; [nia|].
    assert (Hhi : (m < 2 ^ N.succ (N.log2 m))%N) by (apply N.log2_spec; lia).
    assert (Hle : (2 ^ N.succ (N.log2 m) <= P)%N)
      by (subst P; apply N.pow_le_mono_r; lia).
    nia.
  - assert (Hpos : (0 < m)%N).
    { destruct (N.eq_dec m 0) as [E|E]; [rewrite E in He; cbn in He; lia|lia]. }
    destruct (N.log2_spec m Hpos) as [Hlo _].
    set (sh := (N.log2 m - 52)%N) in *.
    set (H := (2 ^ (sh - 1))%N).
    assert (E1 : (2 ^ sh = 2 * H)%N).
    { subst H. replace sh with (N.succ (sh - 1)) at 1 by lia. apply N.pow_succ_r'. }
    assert (E2 : (2 ^ N.log2 m = H * P)%N).
    { subst H P. rewrite <- N.pow_add_r. f_equal. lia. }
    rewrite E2 in Hlo. rewrite E1.
    assert (HH : (H < n)%N) by nia.
    assert (Hnz : (2 * H <> 0)%N) by (subst H; pose proof (N.pow_nonzero 2 (sh - 1)); lia).
    pose proof (N.div_mod m (2 * H) Hnz) as Hdm.
    pose proof (N.mod_lt m (2 * H) Hnz) as Hr.
    generalize dependent (m / (2 * H))%N. intros q Hdm.
    generalize dependent (m mod (2 * H))%N. intros r Hdm Hr.
    destruct ((H <? r)%N || ((r =? H)%N && N.odd q)) eqn:Eup.
    + assert (Hge : (H <= r)%N).
      { apply orb_true_iff in Eup. destruct Eup as [Eup|Eup].
        - apply N.ltb_lt in Eup. lia.
        - apply andb_true_iff in Eup. destruct Eup as [Eup _].
          apply N.eqb_eq in Eup. lia. }
      nia.
    + nia.
Qed.

Lemma random_index_bound n w : (0 < n)%nat -> (fst (random_index n w) < n)%nat.
Proof.
  intros Hn. unfold random_index, Math_random. cbn [fst].
  set (k := (rng w (rngPos w) mod 2 ^ 53)%N).
  assert (Hk : (k < 2 ^ 53)%N) by (apply N.mod_lt; discriminate).
  pose proof (round_double_below k (N.of_nat n) Hk ltac:(lia)) as Hb.
  assert (Hq : (round_double (k * N.of_nat n) / 2 ^ 53 < N.of_nat n)%N).
  { apply N.Div0.div_lt_upper_bound. lia. }
  lia.
Qed.

(** The floor is taken of the rounded product: six times a draw two
    steps below 5/6 is a tie that rounds up to 5. *)
Lemma random_index_rounds w :
  rng w (rngPos w) = 7505999378950826%N ->
  fst (random_index 6 w) = 5%nat /\
  N.to_nat (7505999378950826 * 6 / 2 ^ 53) = 4%nat.
Proof.
  intros H. unfold random_index, Math_random. cbn [fst]. rewrite H.
  split; vm_compute; reflexivity.
Qed.

Lemma pick_In l w v y : l <> [] -> pick l w = (v, y) -> In v l.
Proof.
  intros Hl. unfold pick.
  pose proof (random_index_bound (List.length l) w) as Hb.
  destruct (random_index (List.length l) w) as [i w1]. cbn [fst] in Hb.
  intros [= <- _]. apply nth_In. apply Hb.
  destruct l; [contradiction|cbn; lia].
Qed.

Lemma words_no_brace v :
  In v adjectives \/ In v settings \/ In v elements \/ In v styles ->
  has_char brace v = false.
Proof.
  unfold adjectives, settings, elements, styles. cbn [In].
  intros H.
  repeat match goal with
  | H : _ \/ _ |- _ => destruct H as [H|H]
  | H : False |- _ => destruct H
  | H : _ = v |- _ => subst v
  end; reflexivity.
Qed.

Section Prompt.
Context {rt : JsRuntime}.

Lemma generatePrompt_prompt now w :
  exists template a s e st env vis atm,
    In template promptTemplates /\ In a adjectives /\ In s settings /\ In e elements /\
    In st styles /\ In env settings /\ In vis elements /\ In atm adjectives /\
    lastPrompt (llmBot (appState (generatePrompt now w)))
      = fill template a s e st env vis atm /\
    serialised (trace (generatePrompt now w)) =
      (serialised (trace w) ++
       [{| type := "prompt"; content := Some (fill template a s e st env vis atm);
           timestamp := Some now; data := None |}])%list.
Proof.
  unfold generatePrompt.
  destruct (pick promptTemplates w) as [template w1] eqn:E1.
  destruct (pick adjectives w1) as [a w2] eqn:E2.
  destruct (pick settings w2) as [s w3] eqn:E3.
  destruct (pick elements w3) as [e w4] eqn:E4.
  destruct (pick styles w4) as [st w5] eqn:E5.
  destruct (pick settings w5) as [env w6] eqn:E6.
  destruct (pick elements w6) as [vis w7] eqn:E7.
  destruct (pick adjectives w7) as [atm w8] eqn:E8.
  exists template, a, s, e, st, env, vis, atm.
  assert (I1 : In _ promptTemplates) by (eapply pick_In; [|exact E1]; discriminate).
  assert (I2 : In _ adjectives) by (eapply pick_In; [|exact E2]; discriminate).
  assert (I3 : In _ settings) by (eapply pick_In; [|exact E3]; discriminate).
  assert (I4 : In _ elements) by (eapply pick_In; [|exact E4]; discriminate).
  assert (I5 : In _ styles) by (eapply pick_In; [|exact E5]; discriminate).
  assert (I6 : In _ settings) by (eapply pick_In; [|exact E6]; discriminate).
  assert (I7 : In _ elements) by (eapply pick_In; [|exact E7]; discriminate).
  assert (I8 : In _ adjectives) by (eapply pick_In; [|exact E8]; discriminate).
  apply pick_keeps in E1, E2, E3, E4, E5, E6, E7, E8.
  destruct E1 as (_ & _ & _ & _ & _ & T1). destruct E2 as (_ & _ & _ & _ & _ & T2).
  destruct E3 as (_ & _ & _ & _ & _ & T3). destruct E4 as (_ & _ & _ & _ & _ & T4).
  destruct E5 as (_ & _ & _ & _ & _ & T5). destruct E6 as (_ & _ & _ & _ & _ & T6).
  destruct E7 as (_ & _ & _ & _ & _ & T7). destruct E8 as (_ & _ & _ & _ & _ & T8).
  repeat (split; [assumption|]).
  fold (fill template a s e st env vis atm).
  generalize (fill template a s e st env vis atm). intros prompt.
  split.
  - through. reflexivity.
  - cbv zeta. fields. rewrite serialised_broadcast. fields.
    rewrite T8, T7, T6, T5, T4, T3, T2, T1. reflexivity.
Qed.

(** X14. Every prompt [generatePrompt] produces has all its
    placeholders filled: it contains no brace and has one of three
    shapes, one per template, built from words of the four lists.
    That prompt is stored in [lastPrompt] and is the content of the
    one prompt event broadcast. *)
Theorem prompt_filled (now : Z) (w : World) :
  let w' := generatePrompt now w in
  let p := lastPrompt (llmBot (appState w')) in
  has_char brace p = false /\
  ((exists a s e st, In a adjectives /\ In s settings /\ In e elements /\ In st styles /\
                     p = prompt_scene a s e st) \/
   (exists env vis atm, In env settings /\ In vis elements /\ In atm adjectives /\
                        p = prompt_action env vis atm) \/
   p = prompt_abstract) /\
  serialised (trace w') =
    (serialised (trace w) ++
     [{| type := "prompt"; content := Some p; timestamp := Some now; data := None |}])%list.
Proof.
  intros w' p. subst p w'.
  destruct (generatePrompt_prompt now w)
    as (template & a & s & e & st & env & vis & atm &
        It & Ia & Is & Ie & Ist & Ienv & Ivis & Iatm & Hp & Ht).
  rewrite Ht, Hp.
  generalize dependent (generatePrompt now w). intros g _ _.
  assert (Ha := words_no_brace a (or_introl Ia)).
  assert (Hs := words_no_brace s (or_intror (or_introl Is))).
  assert (He := words_no_brace e (or_intror (or_intror (or_introl Ie)))).
  assert (Hst := words_no_brace st (or_intror (or_intror (or_intror Ist)))).
  assert (Henv := words_no_brace env (or_intror (or_introl Ienv))).
  assert (Hvis := words_no_brace vis (or_intror (or_intror (or_introl Ivis)))).
  assert (Hatm := words_no_brace atm (or_introl Iatm)).
  unfold promptTemplates in It. cbn [In] in It.
  destruct It as [<-|[<-|[<-|[]]]].
  - rewrite (fill_scene a s e st env vis atm Ha Hs He Hst).
    split; [unfold prompt_scene; no_brace|]. split; [|reflexivity].
    left. exists a, s, e, st. repeat split; assumption.
  - rewrite (fill_action a s e st env vis atm Henv Hvis Hatm).
    split; [unfold prompt_action; no_brace|]. split; [|reflexivity].
    right. left. exists env, vis, atm. repeat split; assumption.
  - rewrite (fill_abstract a s e st env vis atm).
    split; [reflexivity|]. split; [|reflexivity]. right. right. reflexivity.
Qed.

End Prompt.

(** ** The timeout of a stream that connected *)

Section TimeoutAfterConnect.
Context {rt : JsRuntime}.

Lemma whep_onConnect_spec url now w :
  let w' := whep_onConnect url now w in
  streamStatus (appState w') = Active /\
  currentStream (appState w') =
    Some {| cs_id := currentStreamId (videoGenerator w); cs_whepUrl := url;
            cs_startTime := now |} /\
  generationInProgress (appState w') = false /\
  frameStreamer (appState w') = frameStreamer (appState w) /\
  lastFrameTime (appState w') = lastFrameTime (appState w) /\
  videoGenerator w' = videoGenerator w /\ heap w' = heap w /\
  timers w' = timers w /\ nextTimer w' = nextTimer w.
Proof.
  intros w'. subst w'. unfold whep_onConnect. cbv zeta.
  match goal with
  | |- context [broadcast ?m ?n ?x] =>
      pose proof (broadcast_keeps m n x) as K; cbv zeta in K;
      generalize dependent (broadcast m n x)
  end.
  intros b (K1 & K2 & _ & K4 & K5 & K6 & K7 & K8 & K9 & K10 & _).
  fields. rewrite K1, K2, K4, K5, K6, K7, K8, K9, K10.
  repeat split; reflexivity.
Qed.

Lemma handleGenerationTimeout_rest now w :
  let w' := handleGenerationTimeout now w in
  whepConnection (videoGenerator w') = whepConnection (videoGenerator w) /\
  generationTimeout (videoGenerator w') = generationTimeout (videoGenerator w) /\
  heap w' = heap w /\
  frameStreamer (appState w') = frameStreamer (appState w) /\
  lastFrameTime (appState w') = lastFrameTime (appState w).
Proof.
  intros w'. subst w'.
  unfold handleGenerationTimeout, handleGenerationTimeout_statements, run_statements.
  cbn [fold_left].
  match goal with
  | |- context [broadcast ?m ?n ?x] =>
      pose proof (broadcast_keeps m n x) as K; cbv zeta in K;
      generalize dependent (broadcast m n x)
  end.
  intros b (_ & _ & _ & K4 & K5 & _ & K7 & K8 & _).
  fields. rewrite K4, K5, K7, K8.
  repeat split; reflexivity.
Qed.

(** X15. [onConnect] does not cancel the timeout timer: the timer
    armed after the handshake is still armed when the stream is
    Active, and when it is due it runs.  The status then goes to Idle
    while [currentStream], the signalling client and the stale timer
    handle all stay, so frames that arrive afterwards are still
    broadcast and counted as live. *)
Theorem timeout_survives_connect (h : nat) (t : Timer) (url : option string)
    (now later : Z) (w : World) :
  find_timer h w = Some t -> t_task t = TaskTimeout -> t_period t = None ->
  t_due t <= later ->
  let w1 := whep_onConnect url now w in
  streamStatus (appState w1) = Active /\
  find_timer h w1 = Some t /\
  exists w2, fire h later w1 = Some w2 /\
    streamStatus (appState w2) = Idle /\
    currentStream (appState w2) =
      Some {| cs_id := currentStreamId (videoGenerator w); cs_whepUrl := url;
              cs_startTime := now |} /\
    whepConnection (videoGenerator w2) = whepConnection (videoGenerator w) /\
    generationTimeout (videoGenerator w2) = generationTimeout (videoGenerator w) /\
    heap w2 = heap w /\
    forall fd at_, let w3 := processIncomingFrame fd at_ w2 in
      hasActiveFrames at_ w3 = true /\
      streamStatus (appState w3) = Idle /\
      exists m, serialised (trace w3) = (serialised (trace w2) ++ [m])%list /\
                type m = "frame".
Proof.
  intros Hf Ht Hp Hdue w1. subst w1.
  destruct (whep_onConnect_spec url now w) as (A1 & A2 & A3 & A4 & A5 & A6 & A7 & A8 & A9).
  assert (Hf1 : find_timer h (whep_onConnect url now w) = Some t)
    by (unfold find_timer in *; rewrite A8; exact Hf).
  generalize dependent (whep_onConnect url now w). intros w1 A1 A2 A3 A4 A5 A6 A7 A8 A9 Hf1.
  split; [exact A1|]. split; [exact Hf1|].
  unfold fire. rewrite Hf1, Hp, Ht.
  apply Z.leb_le in Hdue. rewrite Hdue. cbn [run_task].
  eexists. split; [reflexivity|].
  destruct (handleGenerationTimeout_spec later (clearTimeout h w1)) as (B1 & _ & _ & B4 & _).
  destruct (handleGenerationTimeout_rest later (clearTimeout h w1)) as (C1 & C2 & C3 & C4 & C5).
  generalize dependent (handleGenerationTimeout later (clearTimeout h w1)).
  intros w2 B1 B4 C1 C2 C3 C4 C5.
  cbn [clearTimeout set_timers appState videoGenerator heap] in B4, C1, C2, C3.
  split; [exact B1|]. split; [rewrite B4; exact A2|].
  split; [rewrite C1, A6; reflexivity|]. split; [rewrite C2, A6; reflexivity|].
  split; [rewrite C3; exact A7|].
  intros fd at_. cbv zeta.
  assert (Hcs : currentStream (appState w2) =
                Some {| cs_id := currentStreamId (videoGenerator w); cs_whepUrl := url;
                        cs_startTime := now |}) by (rewrite B4; exact A2).
  unfold processIncomingFrame, hasActiveFrames. rewrite Hcs.
  cbv zeta. rewrite serialised_broadcast.
  rewrite broadcast_frameStreamer, broadcast_lastFrameTime, broadcast_streamStatus.
  destruct (fd_data fd) as [[|a b]|]; fields; rewrite B1, Z.sub_diag;
    (split; [reflexivity|]; split; [reflexivity|]; eexists; split; reflexivity).
Qed.

End TimeoutAfterConnect.

Lemma timeout_survives_connect_witness :
  let w1 := @whep_onConnect example_runtime (Some "u") 4 handshake_done in
  find_timer 0 w1 = Some (timeout_timer 0 3) /\
  exists w2, @fire example_runtime 0 10003 w1 = Some w2 /\
             streamStatus (appState w2) = Idle /\
             currentStream (appState w2) =
               Some {| cs_id := Some "s1"; cs_whepUrl := Some "u"; cs_startTime := 4 |}.
Proof.
  assert (H1 : find_timer 0 handshake_done = Some (timeout_timer 0 3))
    by (vm_compute; reflexivity).
  assert (H2 : t_due (timeout_timer 0 3) <= 10003) by (vm_compute; discriminate).
  destruct (@timeout_survives_connect example_runtime 0 (timeout_timer 0 3) (Some "u")
              4 10003 handshake_done H1 eq_refl eq_refl H2)
    as (_ & A & w2 & B & C & D & _).
  intros w1. subst w1. split; [exact A|].
  exists w2. split; [exact B|]. split; [exact C|exact D].
Defined.

(** ** The simulated frames *)

Lemma frame_numbers_app x y :
  frame_numbers (x ++ y) = (frame_numbers x ++ frame_numbers y)%list.
Proof. unfold frame_numbers. apply flat_map_app. Qed.

Lemma count_from_S n k : count_from n (S k) = n :: count_from (n + 1) k.
Proof.
  unfold count_from. cbn [seq map]. rewrite Z.add_0_r. f_equal.
  rewrite <- seq_shift, map_map. apply map_ext. intros i. lia.
Qed.

Lemma ice_no_frames state c :
  frame_numbers (snd (oniceconnectionstatechange state c)) = [].
Proof.
  destruct state; cbn; try reflexivity;
    try (destruct (onConnect c); reflexivity);
    destruct (onDisconnect c); reflexivity.
Qed.

Lemma ice_keeps_onFrame state c :
  onFrame (fst (oniceconnectionstatechange state c)) = onFrame c.
Proof. destruct state; reflexivity. Qed.

Lemma simulate_cleared buffer es c s :
  sim_armed s = false -> frame_numbers (simulate buffer es c s) = [].
Proof.
  revert c s. induction es as [|[now|state] es IH]; intros c s Hs; [reflexivity| |].
  - cbn [simulate]. unfold frameInterval. rewrite Hs. cbn [app]. apply IH. exact Hs.
  - cbn [simulate].
    pose proof (ice_no_frames state c) as Hn.
    destruct (oniceconnectionstatechange state c) as [c1 out]. cbn [snd] in Hn.
    rewrite frame_numbers_app, Hn. cbn [app]. apply IH.
    destruct state; cbn; try exact Hs; reflexivity.
Qed.

Lemma simulate_numbers buffer es c s :
  exists k, (k <= ticks es)%nat /\
            frame_numbers (simulate buffer es c s) = count_from (sim_frameCount s) k.
Proof.
  revert c s. induction es as [|[now|state] es IH]; intros c s.
  - exists O. split; [apply Nat.le_0_l|reflexivity].
  - cbn [simulate]. unfold frameInterval.
    destruct (sim_armed s) eqn:Ha.
    + destruct (negb (isConnected c) || negb (onFrame c)).
      * exists O. split; [apply Nat.le_0_l|].
        cbn [app]. apply simulate_cleared. reflexivity.
      * destruct (IH c {| sim_frameCount := sim_frameCount s + 1; sim_armed := true |})
          as (k & Hk & E).
        exists (S k). split; [unfold ticks in *; cbn [filter List.length]; lia|].
        rewrite frame_numbers_app, E, count_from_S. reflexivity.
    + exists O. split; [apply Nat.le_0_l|].
      cbn [app]. apply simulate_cleared. exact Ha.
  - cbn [simulate].
    pose proof (ice_no_frames state c) as Hn.
    destruct (oniceconnectionstatechange state c) as [c1 out]. cbn [snd] in Hn.
    destruct (IH c1 (frame_cleanup state s)) as (k & Hk & E).
    exists k. split; [exact Hk|].
    rewrite frame_numbers_app, Hn, E. destruct state; reflexivity.
Qed.

(** X16. The frames of one [simulateFrameReception] call are numbered
    consecutively from 0, at most one per tick of its interval.  The
    interval is cleared for good by the first tick that finds the
    client not connected and by a change to disconnected or closed:
    no frame follows, even when the connection comes back.  A change
    to failed alone does not clear it: if connected follows before
    the next tick, that tick delivers the next frame. *)
Theorem simulated_frames (buffer : string) (es : list SimEvent) (c : WHEPClient) :
  (exists k, (k <= ticks es)%nat /\
     frame_numbers (simulate buffer es c simulateFrameReception) = count_from 0 k) /\
  (forall s now, isConnected c = false ->
     frame_numbers (simulate buffer (SimTick now :: es) c s) = []) /\
  (forall s state, state = IceDisconnected \/ state = IceClosed ->
     frame_numbers (simulate buffer (SimIce state :: es) c s) = []) /\
  (forall s now, sim_armed s = true -> onFrame c = true ->
     frame_numbers
       (simulate buffer [SimIce IceFailed; SimIce IceConnected; SimTick now] c s)
     = [sim_frameCount s]) /\
  (forall s now, sim_armed s = true ->
     snd (frameInterval buffer now c s)
     = frame_tick (simulated_frame buffer (sim_frameCount s) now) c).
Proof.
  split; [apply (simulate_numbers buffer es c simulateFrameReception)|].
  split; [|split; [|split]].
  - intros s now Hc. cbn [simulate]. unfold frameInterval. rewrite Hc. cbn [negb orb].
    destruct (sim_armed s) eqn:Ha; cbn [app]; apply simulate_cleared; [reflexivity|exact Ha].
  - intros s state Hst. cbn [simulate].
    pose proof (ice_no_frames state c) as Hn.
    destruct (oniceconnectionstatechange state c) as [c1 out]. cbn [snd] in Hn.
    rewrite frame_numbers_app, Hn. cbn [app]. apply simulate_cleared.
    destruct Hst as [-> | ->]; reflexivity.
  - intros s now Ha Hf. cbn [simulate oniceconnectionstatechange frame_cleanup].
    unfold frameInterval. rewrite Ha.
    cbn [set_isConnected isConnected onFrame onConnect onDisconnect negb orb].
    rewrite Hf. cbn [negb].
    rewrite !frame_numbers_app.
    destruct (onDisconnect c), (onConnect c); reflexivity.
  - intros s now Ha. unfold frameInterval, frame_tick. rewrite Ha.
    destruct (negb (isConnected c) || negb (onFrame c)); reflexivity.
Qed.

Lemma simulated_frames_witness :
  frame_numbers (simulate "AAAA" [SimIce IceDisconnected; SimIce IceConnected; SimTick 40]
                   wired_client simulateFrameReception) = [] /\
  frame_numbers (simulate "AAAA" [SimIce IceFailed; SimIce IceConnected; SimTick 40]
                   wired_client simulateFrameReception) = [0].
Proof.
  destruct (simulated_frames "AAAA" [SimIce IceConnected; SimTick 40] wired_client)
    as (_ & _ & A & B & _).
  split.
  - apply (A simulateFrameReception IceDisconnected). left. reflexivity.
  - apply (B simulateFrameReception 40); reflexivity.
Defined.

(** ** The main route *)

Lemma repeated_length {A B} (l : list A) (cs : list B) :
  List.length (List.concat (map (fun _ => l) cs)) = (List.length cs * List.length l)%nat.
Proof.
  induction cs as [|c cs IH]; [reflexivity|].
  cbn [map List.concat List.length]. rewrite length_app, IH. lia.
Qed.

Lemma repeated_last {A B} (l : list A) (c : B) (cs : list B) :
  List.concat (map (fun _ => l) (c :: cs)) = (List.concat (map (fun _ => l) cs) ++ l)%list.
Proof.
  induction cs as [|c' cs IH]; cbn [map List.concat] in *; [rewrite app_nil_r; reflexivity|].
  rewrite IH at 1. apply app_assoc.
Qed.

Lemma slice_last_over {A} (n : nat) (l r : list A) :
  (List.length r <= n)%nat ->
  slice_last n (l ++ r) = (slice_last (n - List.length r) l ++ r)%list.
Proof.
  intros H. unfold slice_last. rewrite skipn_app, length_app.
  replace (List.length l + List.length r - n)%nat
    with (List.length l - (n - List.length r))%nat by lia.
  replace (List.length l - (n - List.length r) - List.length l)%nat with O by lia.
  reflexivity.
Qed.

(** X17. The messages the main page is rendered with are the last 20
    of the history repeated once per registered client.  With no
    client the list is empty whatever the history holds; with one
    client, or a history of 20 or more, it is the last 20 records;
    with several clients and a shorter history the records come
    more than once. *)
Theorem recent_messages_repeat (w : World) :
  let history := messages (appState w) in
  let registry := clients (appState w) in
  List.length (recentMessages w)
    = Nat.min 20 (List.length registry * List.length history) /\
  (registry = [] -> recentMessages w = []) /\
  (forall c, registry = [c] -> recentMessages w = slice_last 20 history) /\
  (registry <> [] -> (20 <= List.length history)%nat ->
   recentMessages w = slice_last 20 history) /\
  (forall c cs, registry = c :: cs -> (List.length history <= 20)%nat ->
   recentMessages w
   = (slice_last (20 - List.length history) (List.concat (map (fun _ => history) cs))
      ++ history)%list).
Proof.
  intros history registry. subst history registry. unfold recentMessages.
  generalize (messages (appState w)) (clients (appState w)). intros l cs.
  split; [rewrite slice_last_length, repeated_length; reflexivity|].
  split; [intros ->; reflexivity|].
  split; [intros c ->; cbn [map List.concat]; rewrite app_nil_r; reflexivity|].
  split.
  - intros Hne Hlen. destruct cs as [|c cs]; [contradiction|].
    rewrite repeated_last. apply slice_last_app. exact Hlen.
  - intros c cs' -> Hlen. rewrite repeated_last. apply slice_last_over. exact Hlen.
Qed.

Lemma recent_messages_repeat_witness :
  List.length (messages (appState two_viewers)) = 2%nat /\
  recentMessages two_viewers
    = (messages (appState two_viewers) ++ messages (appState two_viewers))%list.
Proof.
  assert (Hc : clients (appState two_viewers) = [("a", open_client); ("c", open_client)])
    by (vm_compute; reflexivity).
  assert (Hl : List.length (messages (appState two_viewers)) = 2%nat)
    by (vm_compute; reflexivity).
  split; [exact Hl|].
  destruct (recent_messages_repeat two_viewers) as (_ & _ & _ & _ & A).
  rewrite (A _ _ Hc) by (rewrite Hl; repeat constructor).
  rewrite Hl. cbn [map List.concat Nat.sub]. rewrite app_nil_r.
  rewrite slice_last_short by (rewrite Hl; repeat constructor). reflexivity.
Defined.

(** ** The status request of a client *)

Lemma is_label_only v a b : is_label v a = true -> a <> b -> is_label v b = false.
Proof.
  destruct v as [[| | |s| |]|]; cbn [is_label]; try discriminate.
  intros Ha N. apply String.eqb_eq in Ha. subst s.
  apply String.eqb_neq. exact N.
Qed.

Section StatusRequest.
Context {rt : JsRuntime}.

(** X18. A get_status message is answered to the client that sent
    it and to no other: the reply carries the status, whether there
    is a current stream and the liveness of the frames at that
    moment.  Nothing but the trace changes; a sender that is no
    longer registered, or not open, gets no reply at all, and one
    whose [send] throws is removed. *)
Theorem get_status_reply (id payload : string) (ms : list (string * Json)) (ws : Client)
    (now : Z) (w : World) :
  JSON_parse payload = Some (JObj ms) ->
  is_label (Map_get "type" ms) "get_status" = true ->
  let w' := on_message id payload now w in
  let reply := status_response now w in
  (Map_get id (clients (appState w)) = Some ws -> (readyState ws =? 1) = true ->
   sendThrows ws = false ->
   appState w' = appState w /\
   trace w' = (trace w ++ [CStringify reply; CSend id (JSON_stringify reply)])%list) /\
  (Map_get id (clients (appState w)) = Some ws -> (readyState ws =? 1) = true ->
   sendThrows ws = true ->
   Map_get id (clients (appState w')) = None /\
   trace w' = (trace w ++ [CStringify reply; CSendThrew id (JSON_stringify reply)])%list) /\
  (Map_get id (clients (appState w)) = None -> w' = w) /\
  (Map_get id (clients (appState w)) = Some ws -> (readyState ws =? 1) = false -> w' = w) /\
  (forall id', id' <> id -> sent_to id' (trace w') = sent_to id' (trace w)) /\
  messages (appState w') = messages (appState w) /\
  streamStatus (appState w') = streamStatus (appState w) /\
  videoGenerator w' = videoGenerator w /\ timers w' = timers w.
Proof.
  intros Hp Hl w' reply. subst w' reply.
  unfold on_message. rewrite Hp. unfold handleClientMessage. cbn [member].
  rewrite (is_label_only _ _ "start_generation" Hl) by discriminate.
  rewrite (is_label_only _ _ "stop_generation" Hl) by discriminate.
  rewrite Hl. fold (status_response now w). generalize (status_response now w). intros m.
  unfold sendToClient.
  destruct (Map_get id (clients (appState w))) as [ws'|] eqn:E.
  2:{ repeat split; try discriminate; reflexivity. }
  destruct (readyState ws' =? 1) eqn:Eo.
  2:{ split; [intros [= <-]; congruence|]. split; [intros [= <-]; congruence|].
      repeat split; try discriminate; reflexivity. }
  destruct (sendThrows ws') eqn:Et; unfold removeClient; fields.
  - split; [intros [= <-]; congruence|].
    split; [intros _ _ _; split; [apply Map_get_delete_same|
                                  rewrite <- app_assoc; reflexivity]|].
    split; [discriminate|]. split; [intros [= <-]; congruence|].
    split; [|repeat split; reflexivity].
    intros id' N. rewrite <- app_assoc, sent_to_app. cbn. apply app_nil_r.
  - split; [intros _ _ _; split; [reflexivity|rewrite <- app_assoc; reflexivity]|].
    split; [intros [= <-]; congruence|].
    split; [discriminate|]. split; [intros [= <-]; congruence|].
    split; [|repeat split; reflexivity].
    intros id' N. rewrite <- app_assoc, sent_to_app. cbn.
    destruct (String.eqb_spec id id'); [congruence|apply app_nil_r].
Qed.

End StatusRequest.

Lemma get_status_reply_witness :
  let w := active_stream in
  let w' := @on_message object_runtime "a" status_text 9
              (@addClient object_runtime open_client "a" 8 w) in
  sent_to "a" (trace w') = ["connection_established"; "status_response"].
Proof.
  intros w w'.
  assert (Hc : Map_get "a" (clients (appState (@addClient object_runtime open_client "a" 8 w)))
               = Some open_client) by (vm_compute; reflexivity).
  destruct (@get_status_reply object_runtime "a" status_text [("type", JStr "get_status")]
              open_client 9 (@addClient object_runtime open_client "a" 8 w) eq_refl eq_refl)
    as (A & _).
  destruct (A Hc eq_refl eq_refl) as [_ B].
  subst w'. rewrite B. vm_compute. reflexivity.
Defined.

(** ** The status poll and the stream id *)

Section StatusPoll.
Context {rt : JsRuntime}.

Lemma whep_onDisconnect_spec reason now w :
  let w' := whep_onDisconnect reason now w in
  streamStatus (appState w') = Idle /\
  hasFrames (frameStreamer (appState w')) = false /\
  frameCount (frameStreamer (appState w')) = frameCount (frameStreamer (appState w)) /\
  currentStream (appState w') = currentStream (appState w) /\
  generationInProgress (appState w') = generationInProgress (appState w) /\
  lastFrameTime (appState w') = lastFrameTime (appState w) /\
  videoGenerator w' = videoGenerator w /\ heap w' = heap w /\ timers w' = timers w /\
  serialised (trace w') =
    (serialised (trace w) ++
     [status_message ("Stream disconnected: " ++ ice_name reason) now])%list.
Proof.
  intros w'. subst w'. unfold whep_onDisconnect, stopReceiving. cbv zeta.
  rewrite serialised_broadcast.
  match goal with
  | |- context [broadcast ?m ?n ?x] =>
      pose proof (broadcast_keeps m n x) as K; cbv zeta in K;
      generalize dependent (broadcast m n x)
  end.
  intros b (K1 & K2 & _ & K4 & K5 & K6 & K7 & K8 & K9 & _).
  rewrite K1, K2, K4, K5, K6, K7, K8, K9. fields.
  repeat split; reflexivity.
Qed.

(** X19. The status poll asks for the stream id the generator holds
    and is silent without one.  The id is set by the answer of the
    start call and cleared by a stop and by the timeout only: after a
    failed start call and after a disconnect the poll still asks for
    the id of the stream before. *)
Theorem status_poll_follows_id (now : Z) (w : World) :
  (forall a s url,
     let w' := requestGeneration_resume (ResponseOk (Some (String a s)) url) now w in
     trace (checkStreamStatus w') = (trace w' ++ [CFetchStatus (String a s)])%list) /\
  (forall url,
     let w' := requestGeneration_resume (ResponseOk None url) now w in
     checkStreamStatus w' = w') /\
  checkStreamStatus (stopCurrentGeneration w) = stopCurrentGeneration w /\
  checkStreamStatus (handleGenerationTimeout now w) = handleGenerationTimeout now w /\
  (forall message a s, currentStreamId (videoGenerator w) = Some (String a s) ->
     let w' := requestGeneration_catch message now w in
     trace (checkStreamStatus w') = (trace w' ++ [CFetchStatus (String a s)])%list) /\
  (forall reason a s, currentStreamId (videoGenerator w) = Some (String a s) ->
     let w' := whep_onDisconnect reason now w in
     trace (checkStreamStatus w') = (trace w' ++ [CFetchStatus (String a s)])%list).
Proof.
  split; [|split; [|split; [|split; [|split]]]].
  - intros a s url w'. subst w'.
    destruct (requestGeneration_resume_ok (Some (String a s)) url now w) as (A & _).
    cbv zeta in A.
    generalize dependent (requestGeneration_resume (ResponseOk (Some (String a s)) url) now w).
    intros w' A. unfold checkStreamStatus. rewrite A. reflexivity.
  - intros url w'. subst w'.
    destruct (requestGeneration_resume_ok None url now w) as (A & _). cbv zeta in A.
    generalize dependent (requestGeneration_resume (ResponseOk None url) now w).
    intros w' A. unfold checkStreamStatus. rewrite A. reflexivity.
  - destruct (stopCurrentGeneration_spec w) as (_ & _ & _ & _ & A & _). cbv zeta in A.
    generalize dependent (stopCurrentGeneration w).
    intros w' A. unfold checkStreamStatus. rewrite A. reflexivity.
  - destruct (handleGenerationTimeout_spec now w) as (_ & _ & A & _). cbv zeta in A.
    generalize dependent (handleGenerationTimeout now w).
    intros w' A. unfold checkStreamStatus. rewrite A. reflexivity.
  - intros message a s Hid w'. subst w'.
    destruct (requestGeneration_catch_spec message now w) as (_ & _ & _ & _ & A & _).
    cbv zeta in A.
    generalize dependent (requestGeneration_catch message now w).
    intros w' A. unfold checkStreamStatus. rewrite A, Hid. reflexivity.
  - intros reason a s Hid w'. subst w'.
    destruct (whep_onDisconnect_spec reason now w) as (_ & _ & _ & _ & _ & _ & A & _).
    cbv zeta in A.
    generalize dependent (whep_onDisconnect reason now w).
    intros w' A. unfold checkStreamStatus. rewrite A, Hid. reflexivity.
Qed.

End StatusPoll.

Lemma status_poll_follows_id_witness :
  let w' := @whep_onDisconnect example_runtime IceFailed 5 handshake_done in
  trace (checkStreamStatus w') = (trace w' ++ [CFetchStatus "s1"])%list.
Proof.
  assert (H : currentStreamId (videoGenerator handshake_done) = Some "s1")
    by (vm_compute; reflexivity).
  destruct (@status_poll_follows_id example_runtime 5 handshake_done)
    as (_ & _ & _ & _ & _ & A).
  exact (A IceFailed _ _ H).
Defined.

(** ** The disconnect callback *)

Section DisconnectCallback.
Context {rt : JsRuntime}.

(** X20. [onDisconnect] ends the liveness of the frames and sets the
    status Idle with one status event, and that is all: the current
    stream, the flag, the generator with its signalling client and
    its timer handle, and the timers stay.  So a disconnect during
    Starting leaves the server Idle but refusing requests, and a
    frame that still arrives for the kept stream is broadcast and
    makes the frames live again. *)
Theorem disconnect_keeps_session (reason : IceState) (now : Z) (w : World) :
  let w' := whep_onDisconnect reason now w in
  streamStatus (appState w') = Idle /\
  (forall t, hasActiveFrames t w' = false) /\
  serialised (trace w') =
    (serialised (trace w) ++
     [status_message ("Stream disconnected: " ++ ice_name reason) now])%list /\
  currentStream (appState w') = currentStream (appState w) /\
  generationInProgress (appState w') = generationInProgress (appState w) /\
  videoGenerator w' = videoGenerator w /\ heap w' = heap w /\ timers w' = timers w /\
  (generationInProgress (appState w) = true ->
   forall prompt t, unchanged w' (requestGeneration prompt t w')) /\
  (forall cs fd t, currentStream (appState w) = Some cs ->
     let w2 := processIncomingFrame fd t w' in
     hasActiveFrames t w2 = true /\ streamStatus (appState w2) = Idle /\
     serialised (trace w2) =
       (serialised (trace w') ++
        [frame_message cs (frameCount (frameStreamer (appState w)) + 1) fd t])%list).
Proof.
  intros w'. subst w'.
  destruct (whep_onDisconnect_spec reason now w)
    as (A1 & A2 & A3 & A4 & A5 & A6 & A7 & A8 & A9 & A10).
  generalize dependent (whep_onDisconnect reason now w).
  intros w' A1 A2 A3 A4 A5 A6 A7 A8 A9 A10.
  split; [exact A1|].
  split; [intros t; unfold hasActiveFrames; rewrite A2; reflexivity|].
  split; [exact A10|]. split; [exact A4|]. split; [exact A5|].
  split; [exact A7|]. split; [exact A8|]. split; [exact A9|].
  split.
  - intros Hflag prompt t. rewrite requestGeneration_skipped by (rewrite A5; exact Hflag).
    repeat split.
  - intros cs fd t Hcs. cbv zeta.
    assert (Hcs' : currentStream (appState w') = Some cs) by (rewrite A4; exact Hcs).
    destruct (processIncomingFrame_spec fd t cs w' Hcs') as (_ & B2 & _ & _ & _ & B6 & _).
    destruct (processIncomingFrame_bookkeeping fd t w') as [C1 C2];
      [rewrite Hcs'; discriminate|].
    generalize dependent (processIncomingFrame fd t w').
    intros w2 B2 B6 C1 C2.
    unfold hasActiveFrames. rewrite C1, C2, Z.sub_diag, B6, B2, A3.
    repeat split; [exact A1].
Qed.

End DisconnectCallback.

Lemma disconnect_keeps_session_witness :
  unchanged (@whep_onDisconnect example_runtime IceFailed 5 handshake_done)
    (@requestGeneration example_runtime "q" 6
       (@whep_onDisconnect example_runtime IceFailed 5 handshake_done)) /\
  hasActiveFrames 6
    (@processIncomingFrame example_runtime a_frame 6
       (@whep_onDisconnect example_runtime IceDisconnected 5 active_stream)) = true.
Proof.
  assert (H1 : generationInProgress (appState handshake_done) = true)
    by (vm_compute; reflexivity).
  assert (H2 : currentStream (appState active_stream) =
               Some {| cs_id := Some "s1"; cs_whepUrl := Some "u"; cs_startTime := 3 |})
    by (vm_compute; reflexivity).
  destruct (@disconnect_keeps_session example_runtime IceFailed 5 handshake_done)
    as (_ & _ & _ & _ & _ & _ & _ & _ & A & _).
  destruct (@disconnect_keeps_session example_runtime IceDisconnected 5 active_stream)
    as (_ & _ & _ & _ & _ & _ & _ & _ & _ & B).
  split; [exact (A H1 "q" 6)|].
  exact (proj1 (B _ a_frame 6 H2)).
Defined.

(** ** A prompt that cannot be printed *)

Section UnprintablePrompt.
Context {rt : JsRuntime}.

Lemma requestGeneration_catch_inflight message now w :
  inflight (requestGeneration_catch message now w) = inflight w.
Proof. unfold requestGeneration_catch. cbv zeta. rewrite broadcast_inflight. reflexivity. Qed.

(** X21. When the prompt of a start_generation message cannot be
    converted to a string, the template literal inside the [try] of
    [requestGeneration] throws after the flag and the status were
    written: the [catch] broadcasts one error event with the message
    of the exception and leaves the status Error and the flag clear;
    no start call is made and no timer armed.  While a generation is
    in progress the message is skipped before anything is printed. *)
Theorem unprintable_prompt (id : string) (ms : list (string * Json)) (p : Json)
    (message : string) (now : Z) (w : World) :
  is_label (Map_get "type" ms) "start_generation" = true ->
  Map_get "prompt" ms = Some p -> truthy p = true ->
  prompt_text p = Throws message ->
  exists w', handleClientMessage id (JObj ms) now w = Some w' /\
    (generationInProgress (appState w) = true -> unchanged w w') /\
    (generationInProgress (appState w) = false ->
     streamStatus (appState w') = Error /\
     generationInProgress (appState w') = false /\
     serialised (trace w') =
       (serialised (trace w) ++
        [error_message ("Video generation failed: " ++ message) now])%list /\
     start_calls w' = start_calls w /\ inflight w' = inflight w /\
     timers w' = timers w /\ videoGenerator w' = videoGenerator w).
Proof.
  intros Hl Hp Ht Hx. unfold handleClientMessage. cbn [member].
  rewrite Hl, Hp, Ht. eexists. split; [reflexivity|].
  unfold requestGeneration_value. rewrite Hx.
  destruct (generationInProgress (appState w)) eqn:Eg.
  - split; [intros _; repeat split|discriminate].
  - split; [discriminate|]. intros _. cbv zeta.
    match goal with
    | |- context [requestGeneration_catch message now ?x] =>
        destruct (requestGeneration_catch_spec message now x) as (A1 & A2 & A3 & _ & A5 & A6 & _);
        pose proof (requestGeneration_catch_serialised message now x) as A7;
        pose proof (requestGeneration_catch_inflight message now x) as A8;
        generalize dependent (requestGeneration_catch message now x)
    end.
    intros w' A1 A2 A3 A5 A6 A7 A8.
    split; [exact A1|]. split; [exact A2|]. split; [exact A7|].
    split; [|split; [exact A8|split; [exact A6|exact A5]]].
    unfold start_calls. rewrite A3, filter_app, start_calls_broadcast. apply app_nil_r.
Qed.

End UnprintablePrompt.

Lemma unprintable_prompt_witness :
  exists w', @handleClientMessage example_runtime "a" unprintable_request 9
               (initial (fun _ => 0%N)) = Some w' /\
             streamStatus (appState w') = Error /\
             serialised (trace w') =
               [error_message
                  "Video generation failed: Cannot convert object to primitive value" 9].
Proof.
  destruct (@unprintable_prompt example_runtime "a"
              [("type", JStr "start_generation"); ("prompt", JObj [("toString", JNum 1)])]
              (JObj [("toString", JNum 1)])
              "Cannot convert object to primitive value" 9 (initial (fun _ => 0%N))
              eq_refl eq_refl eq_refl eq_refl)
    as (w' & A & _ & B).
  destruct (B eq_refl) as (B1 & _ & B3 & _).
  exists w'. split; [exact A|]. split; [exact B1|exact B3].
Defined.
